(** * Feature extraction of the continuous-rotation 2D scan registration

    A shallow embedding of [CtRot2DScanRegistration::process] and
    [CtRot2DScanRegistration::extractFeatures]
    (src/lib/CtRot2DScanRegistration.cpp) together with the properties of the
    region tables, the corner and surface passes, the sweep detection and the
    point filter.

    Conventions.
    - [size_t] values are [Z] in [0, 2^64) with the wrap-around written out
      ([wrap64]); [int] values are [Z], and an [int] operation that leaves
      the range of [int] is undefined behaviour, reported as [Err Undefined].
    - [std::vector::operator[]] and [pcl::PointCloud::operator[]] do not
      check their index: an access outside the vector is reported as
      [Err OutOfBounds].
    - [float] and [double] arithmetic is kept abstract behind [FloatOps];
      nothing below depends on a rounding mode or a precision.
    - The base class [ScanRegistration] and [math_utils.h] are not part of
      the sources at hand: what [process] and [extractFeatures] call from
      them is the interface [Collaborators]. *)

From Stdlib Require Import ZArith Lia Bool PrimFloat.
From Stdlib Require Uint63.
From stdpp Require Import base tactics option list strings.

Open Scope Z_scope.

(** ** Machine integers and unchecked vector accesses *)

Definition INT_MIN : Z := - 2 ^ 31.
Definition INT_MAX : Z := 2 ^ 31 - 1.

(** Arithmetic on [size_t] is modulo 2^64. *)
Definition wrap64 (z : Z) : Z := z mod 2 ^ 64.

Inductive error : Set :=
| OutOfBounds   (* unchecked index outside a vector or a C array *)
| Undefined.    (* int overflow, or a double outside the range of int *)

Inductive result (A : Type) : Type :=
| Ok (a : A)
| Err (e : error).
Arguments Ok {A} a.
Arguments Err {A} e.

Definition bind {A B : Type} (m : result A) (k : A -> result B) : result B :=
  match m with
  | Ok a => k a
  | Err e => Err e
  end.

Notation "'do' x <- m ; k" := (bind m (fun x => k))
  (at level 10, x name, m at level 100, k at level 200,
   format "'[v' 'do'  x  <-  m ; '/' k ']'").

(** [v[i]] for a [size_t] index [i]. *)
Definition vec_get {A : Type} (v : list A) (i : Z) : result A :=
  if (0 <=? i) && (i <? Z.of_nat (length v)) then
    match v !! Z.to_nat i with
    | Some a => Ok a
    | None => Err OutOfBounds
    end
  else Err OutOfBounds.

(** [v[i] = a] for a [size_t] index [i]. *)
Definition vec_set {A : Type} (v : list A) (i : Z) (a : A) : result (list A) :=
  if (0 <=? i) && (i <? Z.of_nat (length v)) then Ok (<[Z.to_nat i := a]> v)
  else Err OutOfBounds.

Definition in_int_range (z : Z) : bool := (INT_MIN <=? z) && (z <=? INT_MAX).

Definition int_add (a b : Z) : result Z :=
  if in_int_range (a + b) then Ok (a + b) else Err Undefined.

Definition int_mul (a b : Z) : result Z :=
  if in_int_range (a * b) then Ok (a * b) else Err Undefined.

(** [int(num / den.0)] for a [size_t] value [num] and [den] one of 2.0 and
    4.0.  Below 2^53 the conversion of [num] to [double] and the division by
    a power of two are exact, and the conversion to [int] truncates; from
    2^53 on the quotient is far outside [int] whatever the rounding, which is
    undefined behaviour. *)
Definition int_of_quotient (num den : Z) : result Z :=
  if num / den <=? INT_MAX then Ok (num / den) else Err Undefined.

(** ** The region tables (extractFeatures, lines 178-186) *)

Definition startPoints (cloudSize : Z) : result (list Z) :=
  do q1 <- int_of_quotient (wrap64 (cloudSize - 10)) 4;
  do s1 <- int_add 6 q1;
  do q2 <- int_of_quotient (wrap64 (cloudSize - 10)) 2;
  do s2 <- int_add 6 q2;
  do q3 <- int_of_quotient (wrap64 (3 * wrap64 (cloudSize - 10))) 4;
  do s3 <- int_add 6 q3;
  Ok [5; wrap64 s1; wrap64 s2; wrap64 s3].

Definition endPoints (cloudSize : Z) : result (list Z) :=
  do q1 <- int_of_quotient (wrap64 (cloudSize - 10)) 4;
  do e0 <- int_add 5 q1;
  do q2 <- int_of_quotient (wrap64 (cloudSize - 10)) 2;
  do e1 <- int_add 5 q2;
  do q3 <- int_of_quotient (wrap64 (3 * wrap64 (cloudSize - 10))) 4;
  do e2 <- int_add 5 q3;
  Ok [wrap64 e0; wrap64 e1; wrap64 e2; wrap64 (cloudSize - 6)].

(** Index [i] lies in region [k] as the loops of [extractFeatures] walk
    it: [regionSize = ep - sp] positions, scan indices [sp .. ep-1]. *)
Definition inRegion (ss es : list Z) (k : nat) (i : Z) : Prop :=
  exists sp ep, ss !! k = Some sp /\ es !! k = Some ep /\ sp <= i < ep.

(** Index [i] lies between the two table entries of region [k], both
    included. *)
Definition inRegionClosed (ss es : list Z) (k : nat) (i : Z) : Prop :=
  exists sp ep, ss !! k = Some sp /\ es !! k = Some ep /\ sp <= i <= ep.

(** The partition property in the words of the specification: the regions
    [[start_k, end_k)] cover [[5, validCount-5)] and consecutive regions
    share their boundary. *)
Definition partition_as_specified (validCount : Z) : Prop :=
  exists ss es,
    startPoints validCount = Ok ss /\ endPoints validCount = Ok es /\
    (forall i, 5 <= i < validCount - 5 <-> exists k, inRegion ss es k i) /\
    (forall k sp ep, es !! k = Some ep -> ss !! S k = Some sp -> ep = sp).

(** ** Floating point, points and labels *)

(** The operations on [float] and [double] that the two functions use.
    [flt a b] is the comparison [a < b]; [a > b] is [flt b a]. *)
Class FloatOps (F : Type) : Type := {
  f_of_int : Z -> F;
  f_0_0001 : F;
  fadd : F -> F -> F;
  fsub : F -> F -> F;
  fmul : F -> F -> F;
  fdiv : F -> F -> F;
  flt : F -> F -> bool;
  pcl_isfinite : F -> bool;
  atan2 : F -> F -> F
}.

(** [pcl::PointXYZ], the type of the incoming points. *)
Record PointXYZ (F : Type) : Type := mkPointXYZ {
  in_x : F;
  in_y : F;
  in_z : F
}.
Arguments mkPointXYZ {F}.
Arguments in_x {F}.
Arguments in_y {F}.
Arguments in_z {F}.

(** [pcl::PointXYZI], the type of the points of every internal cloud. *)
Record PointXYZI (F : Type) : Type := mkPointXYZI {
  pt_x : F;
  pt_y : F;
  pt_z : F;
  pt_intensity : F
}.
Arguments mkPointXYZI {F}.
Arguments pt_x {F}.
Arguments pt_y {F}.
Arguments pt_z {F}.
Arguments pt_intensity {F}.

(** Modelled from the spec: the enumeration [PointLabel] (its header is not
    among the sources).  The labels are ordered by sharpness, the default
    label is [SURFACE_LESS_FLAT], and [SURFACE_FLAT] lies at or below it, so
    that the test [_regionLabel[j] <= SURFACE_LESS_FLAT] of line 247 holds
    for both surface labels and for neither corner label. *)
Inductive PointLabel : Set :=
| CORNER_SHARP
| CORNER_LESS_SHARP
| SURFACE_LESS_FLAT
| SURFACE_FLAT.

Definition label_value (l : PointLabel) : Z :=
  match l with
  | CORNER_SHARP => 2
  | CORNER_LESS_SHARP => 1
  | SURFACE_LESS_FLAT => 0
  | SURFACE_FLAT => -1
  end.

Definition PointLabel_eqb (a b : PointLabel) : bool :=
  label_value a =? label_value b.

(** The fields of [RegistrationParams] that the two functions read.  The
    header is not among the sources: the quotas and the region count are
    taken as [int], which is what the comparisons with the [int] counters
    of lines 204 and 229 and the product [maxCornerSharp*10] suggest. *)
Record RegistrationParams (F : Type) : Type := mkParams {
  scanPeriod : F;
  nFeatureRegions : Z;
  maxCornerSharp : Z;
  maxCornerLessSharp : Z;
  maxSurfaceFlat : Z;
  surfaceCurvatureThreshold : F;
  lessFlatFilterSize : F
}.
Arguments mkParams {F}.
Arguments scanPeriod {F}.
Arguments nFeatureRegions {F}.
Arguments maxCornerSharp {F}.
Arguments maxCornerLessSharp {F}.
Arguments maxSurfaceFlat {F}.
Arguments surfaceCurvatureThreshold {F}.
Arguments lessFlatFilterSize {F}.

(** The three vectors that [setRegionBuffersFor] rebuilds. *)
Record RegionBuffers (F : Type) : Type := mkRegionBuffers {
  rb_curvature : list F;
  rb_sortIndices : list Z;
  rb_label : list PointLabel
}.
Arguments mkRegionBuffers {F}.
Arguments rb_curvature {F}.
Arguments rb_sortIndices {F}.
Arguments rb_label {F}.

(** ** The collaborators

    What [process] and [extractFeatures] call but do not define: the clock,
    [calcPointDistance] of math_utils.h, the IMU capability, the buffer
    provider and the suppression of the base class, and the voxel grid.
    Each is a function of exactly what it may read, and returns exactly
    what it may change. *)
Class Collaborators (F Time IMU : Type) : Type := {
  toSec : Time -> F;
  calcPointDistance : PointXYZ F -> F;
  hasIMUData : IMU -> bool;
  imuStartFor : Time -> IMU -> IMU;
  setIMUTransformFor : F -> IMU -> IMU;
  transformToStartIMU : IMU -> PointXYZI F -> PointXYZI F;
  (* the flags [_scanNeighborPicked] for the scan [startIdx .. endIdx] *)
  setScanBuffersFor : list (PointXYZI F) -> Z -> Z -> list Z;
  setRegionBuffersFor : list (PointXYZI F) -> Z -> Z -> RegionBuffers F;
  (* the flags after [markAsPicked(cloudIdx, scanIdx)] *)
  markAsPicked : list (PointXYZI F) -> list Z -> Z -> Z -> list Z;
  voxelGridFilter : F -> list (PointXYZI F) -> list (PointXYZI F)
}.

(** ** The state of the registration object *)

Record ScanRegistration (F Time IMU : Type) : Type := mkState {
  _laserRotDir : Z;
  _sweepStart : Time;
  _scanTime : Time;
  _imu : IMU;
  _laserCloud : list (PointXYZI F);
  _cornerPointsSharp : list (PointXYZI F);
  _cornerPointsLessSharp : list (PointXYZI F);
  _surfacePointsFlat : list (PointXYZI F);
  _surfacePointsLessFlat : list (PointXYZI F);
  _regionCurvature : list F;
  _regionLabel : list PointLabel;
  _regionSortIndices : list Z;
  _scanNeighborPicked : list Z
}.
Arguments mkState {F Time IMU}.
Arguments _laserRotDir {F Time IMU}.
Arguments _sweepStart {F Time IMU}.
Arguments _scanTime {F Time IMU}.
Arguments _imu {F Time IMU}.
Arguments _laserCloud {F Time IMU}.
Arguments _cornerPointsSharp {F Time IMU}.
Arguments _cornerPointsLessSharp {F Time IMU}.
Arguments _surfacePointsFlat {F Time IMU}.
Arguments _surfacePointsLessFlat {F Time IMU}.
Arguments _regionCurvature {F Time IMU}.
Arguments _regionLabel {F Time IMU}.
Arguments _regionSortIndices {F Time IMU}.
Arguments _scanNeighborPicked {F Time IMU}.

(** What [publishResult] hands to the transport: the scan and the four
    feature clouds. *)
Record Published (F : Type) : Type := mkPublished {
  pub_laserCloud : list (PointXYZI F);
  pub_cornerPointsSharp : list (PointXYZI F);
  pub_cornerPointsLessSharp : list (PointXYZI F);
  pub_surfacePointsFlat : list (PointXYZI F);
  pub_surfacePointsLessFlat : list (PointXYZI F)
}.
Arguments mkPublished {F}.
Arguments pub_laserCloud {F}.
Arguments pub_cornerPointsSharp {F}.
Arguments pub_cornerPointsLessSharp {F}.
Arguments pub_surfacePointsFlat {F}.
Arguments pub_surfacePointsLessFlat {F}.

(** ** The two member functions *)

Section Model.
Context {F Time IMU : Type} {FO : FloatOps F} {EXT : Collaborators F Time IMU}.

Abbreviation State := (ScanRegistration F Time IMU).
Abbreviation Cloud := (list (PointXYZI F)).

(** Assignments to single members. *)
Definition set_laserRotDir (v : Z) (st : State) : State :=
  mkState v (_sweepStart st) (_scanTime st) (_imu st) (_laserCloud st)
    (_cornerPointsSharp st) (_cornerPointsLessSharp st)
    (_surfacePointsFlat st) (_surfacePointsLessFlat st)
    (_regionCurvature st) (_regionLabel st) (_regionSortIndices st)
    (_scanNeighborPicked st).

Definition set_laserCloud (imu : IMU) (v : Cloud) (st : State) : State :=
  mkState (_laserRotDir st) (_sweepStart st) (_scanTime st) imu v
    (_cornerPointsSharp st) (_cornerPointsLessSharp st)
    (_surfacePointsFlat st) (_surfacePointsLessFlat st)
    (_regionCurvature st) (_regionLabel st) (_regionSortIndices st)
    (_scanNeighborPicked st).

Definition set_cornerPointsSharp (v : Cloud) (st : State) : State :=
  mkState (_laserRotDir st) (_sweepStart st) (_scanTime st) (_imu st)
    (_laserCloud st) v (_cornerPointsLessSharp st)
    (_surfacePointsFlat st) (_surfacePointsLessFlat st)
    (_regionCurvature st) (_regionLabel st) (_regionSortIndices st)
    (_scanNeighborPicked st).

Definition set_cornerPointsLessSharp (v : Cloud) (st : State) : State :=
  mkState (_laserRotDir st) (_sweepStart st) (_scanTime st) (_imu st)
    (_laserCloud st) (_cornerPointsSharp st) v
    (_surfacePointsFlat st) (_surfacePointsLessFlat st)
    (_regionCurvature st) (_regionLabel st) (_regionSortIndices st)
    (_scanNeighborPicked st).

Definition set_surfacePointsFlat (v : Cloud) (st : State) : State :=
  mkState (_laserRotDir st) (_sweepStart st) (_scanTime st) (_imu st)
    (_laserCloud st) (_cornerPointsSharp st) (_cornerPointsLessSharp st)
    v (_surfacePointsLessFlat st)
    (_regionCurvature st) (_regionLabel st) (_regionSortIndices st)
    (_scanNeighborPicked st).

Definition set_surfacePointsLessFlat (v : Cloud) (st : State) : State :=
  mkState (_laserRotDir st) (_sweepStart st) (_scanTime st) (_imu st)
    (_laserCloud st) (_cornerPointsSharp st) (_cornerPointsLessSharp st)
    (_surfacePointsFlat st) v
    (_regionCurvature st) (_regionLabel st) (_regionSortIndices st)
    (_scanNeighborPicked st).

Definition set_regionLabel (v : list PointLabel) (st : State) : State :=
  mkState (_laserRotDir st) (_sweepStart st) (_scanTime st) (_imu st)
    (_laserCloud st) (_cornerPointsSharp st) (_cornerPointsLessSharp st)
    (_surfacePointsFlat st) (_surfacePointsLessFlat st)
    (_regionCurvature st) v (_regionSortIndices st)
    (_scanNeighborPicked st).

Definition set_regionBuffers (rb : RegionBuffers F) (st : State) : State :=
  mkState (_laserRotDir st) (_sweepStart st) (_scanTime st) (_imu st)
    (_laserCloud st) (_cornerPointsSharp st) (_cornerPointsLessSharp st)
    (_surfacePointsFlat st) (_surfacePointsLessFlat st)
    (rb_curvature rb) (rb_label rb) (rb_sortIndices rb)
    (_scanNeighborPicked st).

Definition set_scanNeighborPicked (v : list Z) (st : State) : State :=
  mkState (_laserRotDir st) (_sweepStart st) (_scanTime st) (_imu st)
    (_laserCloud st) (_cornerPointsSharp st) (_cornerPointsLessSharp st)
    (_surfacePointsFlat st) (_surfacePointsLessFlat st)
    (_regionCurvature st) (_regionLabel st) (_regionSortIndices st) v.

(** The calls into the base class, on the state. *)
Definition call_setScanBuffersFor (startIdx endIdx : Z) (st : State) : State :=
  set_scanNeighborPicked
    (setScanBuffersFor (_laserCloud st) startIdx endIdx) st.

Definition call_setRegionBuffersFor (startIdx endIdx : Z) (st : State) : State :=
  set_regionBuffers (setRegionBuffersFor (_laserCloud st) startIdx endIdx) st.

Definition call_markAsPicked (cloudIdx scanIdx : Z) (st : State) : State :=
  set_scanNeighborPicked
    (markAsPicked (_laserCloud st) (_scanNeighborPicked st) cloudIdx scanIdx)
    st.

(** Modelled from the spec: [ScanRegistration::reset(scanTime, newSweep)]
    of the base class, whose body is not among the sources.  It records the
    scan time and sets the IMU start state for it (comment of line 130);
    the sharp, less sharp and flat clouds are reset every scan; at a sweep
    boundary the sweep start time is set to the scan time and the less
    flat accumulator is cleared. *)
Definition reset (scanTime : Time) (newSweep : bool) (st : State) : State :=
  mkState (_laserRotDir st)
    (if newSweep then scanTime else _sweepStart st)
    scanTime
    (imuStartFor scanTime (_imu st))
    (_laserCloud st) [] [] []
    (if newSweep then [] else _surfacePointsLessFlat st)
    (_regionCurvature st) (_regionLabel st) (_regionSortIndices st)
    (_scanNeighborPicked st).

(** Modelled from the spec: [publishResult] of the base class hands the
    scan and the four feature clouds to the transport. *)
Definition publishResult (st : State) : Published F :=
  mkPublished (_laserCloud st) (_cornerPointsSharp st)
    (_cornerPointsLessSharp st) (_surfacePointsFlat st)
    (_surfacePointsLessFlat st).

(** *** extractFeatures *)

Section Region.
Variable cfg : RegistrationParams F.
Variable sp : Z.

(** The candidate test shared by both passes, with the short circuit of
    [&&]: the curvature is read only when the point is not suppressed.
    [above] selects [curvature > threshold], otherwise
    [curvature < threshold]. *)
Definition candidate (above : bool) (scanIdx regionIdx : Z) (st : State)
  : result bool :=
  do picked <- vec_get (_scanNeighborPicked st) scanIdx;
  if picked =? 0 then
    do c <- vec_get (_regionCurvature st) regionIdx;
    Ok (if above then flt (surfaceCurvatureThreshold cfg) c
        else flt c (surfaceCurvatureThreshold cfg))
  else Ok false.

(** Lines 205-226.  [j] is the loop variable and [fuel] the same number
    in unary, so that [fuel = 0] is the exit test [j > 0]. *)
Fixpoint cornerLoop (fuel : nat) (j : Z) (largestPickedNum : Z) (st : State)
  : result State :=
  match fuel with
  | O => Ok st
  | S fuel' =>
    if largestPickedNum <? maxCornerLessSharp cfg then
      do scanIdx <- vec_get (_regionSortIndices st) j;
      let regionIdx := wrap64 (scanIdx - sp) in
      do accept <- candidate true scanIdx regionIdx st;
      if accept then
        let largestPickedNum := largestPickedNum + 1 in
        if largestPickedNum <=? maxCornerSharp cfg then
          do lbl <- vec_set (_regionLabel st) regionIdx CORNER_SHARP;
          do p <- vec_get (_laserCloud st) scanIdx;
          let st := set_cornerPointsSharp (_cornerPointsSharp st ++ [p])
                      (set_regionLabel lbl st) in
          cornerLoop fuel' (j - 1) largestPickedNum
            (call_markAsPicked scanIdx scanIdx st)
        else
          do m10 <- int_mul (maxCornerSharp cfg) 10;
          if largestPickedNum <=? m10 then
            do lbl <- vec_set (_regionLabel st) regionIdx CORNER_LESS_SHARP;
            do p <- vec_get (_laserCloud st) scanIdx;
            let st := set_cornerPointsLessSharp
                        (_cornerPointsLessSharp st ++ [p])
                        (set_regionLabel lbl st) in
            cornerLoop fuel' (j - 1) largestPickedNum
              (call_markAsPicked scanIdx scanIdx st)
          else Ok st                                         (* break *)
      else cornerLoop fuel' (j - 1) largestPickedNum st
    else Ok st
  end.

(** Lines 230-243.  [fuel] is [regionSize - j] in unary, so that
    [fuel = 0] is the exit test [j < regionSize]. *)
Fixpoint flatLoop (fuel : nat) (j : Z) (smallestPickedNum : Z) (st : State)
  : result State :=
  match fuel with
  | O => Ok st
  | S fuel' =>
    if smallestPickedNum <? maxSurfaceFlat cfg then
      do scanIdx <- vec_get (_regionSortIndices st) j;
      let regionIdx := wrap64 (scanIdx - sp) in
      do accept <- candidate false scanIdx regionIdx st;
      if accept then
        do lbl <- vec_set (_regionLabel st) regionIdx SURFACE_FLAT;
        do p <- vec_get (_laserCloud st) scanIdx;
        let st := set_surfacePointsFlat (_surfacePointsFlat st ++ [p])
                    (set_regionLabel lbl st) in
        flatLoop fuel' (j + 1) (smallestPickedNum + 1)
          (call_markAsPicked scanIdx scanIdx st)
      else flatLoop fuel' (j + 1) smallestPickedNum st
    else Ok st
  end.

(** Lines 246-250. *)
Fixpoint lessFlatLoop (fuel : nat) (j : Z) (st : State)
    (surfPointsLessFlatScan : Cloud) : result Cloud :=
  match fuel with
  | O => Ok surfPointsLessFlatScan
  | S fuel' =>
    do l <- vec_get (_regionLabel st) j;
    if label_value l <=? label_value SURFACE_LESS_FLAT then
      do p <- vec_get (_laserCloud st) (wrap64 (sp + j));
      lessFlatLoop fuel' (j + 1) st (surfPointsLessFlatScan ++ [p])
    else lessFlatLoop fuel' (j + 1) st surfPointsLessFlatScan
  end.

(** The body of the loop over the regions, lines 196-250, for the table
    entries [sp] and [ep]. *)
Definition extractRegion (ep : Z) (st : State) (surfPointsLessFlatScan : Cloud)
  : result (State * Cloud) :=
  let regionSize := wrap64 (ep - sp) in
  let st := call_setRegionBuffersFor sp (wrap64 (ep - 1)) st in
  let j0 := wrap64 (regionSize - 1) in
  do st <- cornerLoop (Z.to_nat j0) j0 0 st;
  do st <- flatLoop (Z.to_nat regionSize) 0 0 st;
  do less <- lessFlatLoop (Z.to_nat regionSize) 0 st surfPointsLessFlatScan;
  Ok (st, less).

End Region.

(** Lines 195-251: [fuel] is [nFeatureRegions - i] in unary. *)
Fixpoint regionsLoop (cfg : RegistrationParams F) (startPoints endPoints : list Z)
    (fuel : nat) (i : Z) (st : State) (surfPointsLessFlatScan : Cloud)
  : result (State * Cloud) :=
  match fuel with
  | O => Ok (st, surfPointsLessFlatScan)
  | S fuel' =>
    do sp <- vec_get startPoints i;
    do ep <- vec_get endPoints i;
    do r <- extractRegion cfg sp ep st surfPointsLessFlatScan;
    regionsLoop cfg startPoints endPoints fuel' (i + 1) (fst r) (snd r)
  end.

(** Lines 178-251: everything before the down-sizing; the second component
    is the local cloud [surfPointsLessFlatScan]. *)
Definition extractRegions (cfg : RegistrationParams F) (st : State)
  : result (State * Cloud) :=
  let cloudSize := Z.of_nat (length (_laserCloud st)) in
  do ss <- startPoints cloudSize;
  do es <- endPoints cloudSize;
  let st := call_setScanBuffersFor 0 cloudSize st in
  regionsLoop cfg ss es (Z.to_nat (wrap64 (nFeatureRegions cfg))) 0 st [].

Definition extractFeatures (cfg : RegistrationParams F) (st : State)
  : result State :=
  do r <- extractRegions cfg st;
  let surfPointsLessFlatScanDS :=
    voxelGridFilter (lessFlatFilterSize cfg) (snd r) in
  Ok (set_surfacePointsLessFlat
        (_surfacePointsLessFlat (fst r) ++ surfPointsLessFlatScanDS) (fst r)).

(** *** process *)

(** The two points that lines 106-107 read. *)
Definition sweepPoints (laserCloudIn : list (PointXYZ F))
  : result (PointXYZ F * PointXYZ F) :=
  let cloudSize := Z.of_nat (length laserCloudIn) in
  do laserPointFirst <- vec_get laserCloudIn 0;
  do laserPointLast <- vec_get laserCloudIn (wrap64 (cloudSize - 1));
  Ok (laserPointFirst, laserPointLast).

(** Lines 109-112 and 114-117. *)
Definition normalized (p : PointXYZ F) : PointXYZ F :=
  let range := calcPointDistance p in
  mkPointXYZ (fdiv (in_x p) range) (fdiv (in_y p) range) (fdiv (in_z p) range).

(** Lines 119-120. *)
Definition laserAngle (laserPointFirst laserPointLast : PointXYZ F) : F :=
  let first := normalized laserPointFirst in
  let last := normalized laserPointLast in
  atan2 (fsub (in_x last) (in_x first)) (fsub (in_y last) (in_y first)).

(** The condition of lines 123-124. *)
Definition signDisagrees (angle : F) (rotDir : Z) : bool :=
  flt (fmul angle (f_of_int rotDir)) (f_of_int 0).

Definition periodElapsed (cfg : RegistrationParams F) (scanTime sweepStart : Time)
  : bool :=
  flt (scanPeriod cfg) (fsub (toSec scanTime) (toSec sweepStart)).

(** Lines 103-131: the sweep detection and the reset. *)
Definition detectSweep (cfg : RegistrationParams F) (st : State)
    (laserCloudIn : list (PointXYZ F)) (scanTime : Time)
  : result (State * bool) :=
  do fl <- sweepPoints laserCloudIn;
  let angle := laserAngle (fst fl) (snd fl) in
  if signDisagrees angle (_laserRotDir st)
     && periodElapsed cfg scanTime (_sweepStart st)
  then Ok (reset scanTime true (set_laserRotDir (_laserRotDir st * -1) st), true)
  else Ok (reset scanTime false st, false).

(** Lines 143-152: the test that keeps a point. *)
Definition keepPoint (point : PointXYZI F) : bool :=
  pcl_isfinite (pt_x point) && pcl_isfinite (pt_y point)
  && pcl_isfinite (pt_z point)
  && negb (flt (fadd (fadd (fmul (pt_x point) (pt_x point))
                           (fmul (pt_y point) (pt_y point)))
                     (fmul (pt_z point) (pt_z point)))
               f_0_0001).

(** Lines 138-140: the axes of the input point, written over [point]. *)
Definition remapInto (point : PointXYZI F) (p : PointXYZ F) : PointXYZI F :=
  mkPointXYZI (in_y p) (in_z p) (in_x p) (pt_intensity point).

(** Lines 137-164, element by element.  [point] is declared outside the
    loop and keeps what the last iteration left in it; [relTime] is the
    constant of line 155.  The counter [i] of the loop is accounted for in
    [ingestBatch]. *)
Fixpoint ingest (laserCloudIn : list (PointXYZ F)) (point : PointXYZI F)
    (imu : IMU) (laserCloudScan : Cloud) : IMU * Cloud :=
  match laserCloudIn with
  | [] => (imu, laserCloudScan)
  | p :: rest =>
    let point := remapInto point p in
    if keepPoint point then
      let relTime := f_of_int 0 in
      if hasIMUData imu then
        let imu := setIMUTransformFor relTime imu in
        let point := transformToStartIMU imu point in
        ingest rest point imu (laserCloudScan ++ [point])
      else ingest rest point imu (laserCloudScan ++ [point])
    else ingest rest point imu laserCloudScan
  end.

(** [pcl::PointXYZI point;] of line 133. *)
Definition defaultPoint : PointXYZI F :=
  mkPointXYZI (f_of_int 0) (f_of_int 0) (f_of_int 0) (f_of_int 0).

(** The loop of lines 137-164 with its counter.  [i] is an [int] that is
    incremented once for every element of the batch, the last time to
    [cloudSize]: the increment overflows, which is undefined, when the batch
    has more than [INT_MAX] points. *)
Definition ingestBatch (laserCloudIn : list (PointXYZ F)) (point : PointXYZI F)
    (imu : IMU) : result (IMU * Cloud) :=
  if Z.of_nat (length laserCloudIn) <=? INT_MAX
  then Ok (ingest laserCloudIn point imu [])
  else Err Undefined.

Definition process (cfg : RegistrationParams F) (st : State)
    (laserCloudIn : list (PointXYZ F)) (scanTime : Time)
  : result (State * Published F) :=
  do sw <- detectSweep cfg st laserCloudIn scanTime;
  let st := fst sw in
  do scan <- ingestBatch laserCloudIn defaultPoint (_imu st);
  let st := set_laserCloud (fst scan) (snd scan) st in
  do st <- extractFeatures cfg st;
  Ok (st, publishResult st).

End Model.

(** ** An executable instance

    Used to run the two functions on concrete scans.  Floating point is
    IEEE 754 binary64 as the kernel provides it; the examples use values on
    which binary32 and binary64 agree.  The collaborators are test doubles:
    a provider that returns scripted curvature values, a suppression that
    marks the accepted index alone, a voxel grid in which every point has a
    cell of its own, and an IMU capability that records the times it is
    asked for and leaves the points where they are. *)

Module Scripted.

Definition float_of_int (z : Z) : float :=
  if z <? 0 then PrimFloat.opp (PrimFloat.of_uint63 (Uint63.of_Z (- z)))
  else PrimFloat.of_uint63 (Uint63.of_Z z).

Definition isfinite (a : float) : bool :=
  negb (PrimFloat.is_nan a || PrimFloat.is_infinity a).

(** A stand-in for [atan2] of libm, which has no executable counterpart:
    its result is NaN, zero, positive or negative exactly when that of
    [atan2 y x] is, which is all that line 123 looks at. *)
Definition atan2_sign (y x : float) : float :=
  if PrimFloat.is_nan y || PrimFloat.is_nan x then PrimFloat.nan
  else if PrimFloat.ltb 0 y then 1%float
  else if PrimFloat.ltb y 0 then (-1)%float
  else if PrimFloat.ltb x 0 then
         (if PrimFloat.ltb (PrimFloat.div 1 y) 0 then (-3)%float else 3%float)
  else y.

#[global] Instance binary64 : FloatOps float := {|
  f_of_int := float_of_int;
  f_0_0001 := 0x1.a36e2eb1c432dp-14%float;   (* the double 0.0001 *)
  fadd := PrimFloat.add;
  fsub := PrimFloat.sub;
  fmul := PrimFloat.mul;
  fdiv := PrimFloat.div;
  flt := PrimFloat.ltb;
  pcl_isfinite := isfinite;
  atan2 := atan2_sign
|}.

(** The IMU double: whether data is available, and the relative times
    that [setIMUTransformFor] was called with, oldest first. *)
Record Recorder : Set := mkRecorder {
  rec_available : bool;
  rec_relTimes : list float
}.

Definition distance (p : PointXYZ float) : float :=
  PrimFloat.sqrt (in_x p * in_x p + in_y p * in_y p + in_z p * in_z p)%float.

(** Stable insertion of the scan index [i] into indices sorted by ascending
    scripted curvature. *)
Fixpoint insert_sorted (curv : Z -> float) (i : Z) (l : list Z) : list Z :=
  match l with
  | [] => [i]
  | k :: rest =>
    if PrimFloat.ltb (curv i) (curv k) then i :: l
    else k :: insert_sorted curv i rest
  end.

Definition sort_indices (curv : Z -> float) (l : list Z) : list Z :=
  fold_left (fun acc i => insert_sorted curv i acc) l [].

Definition curvature_at (script : list float) (i : Z) : float :=
  match script !! Z.to_nat i with
  | Some c => c
  | None => 0%float
  end.

(** The buffers for the scan indices [startIdx .. endIdx], both included;
    an inverted range gives empty buffers. *)
Definition region_buffers (script : list float) (startIdx endIdx : Z)
  : RegionBuffers float :=
  let n := Z.to_nat (endIdx - startIdx + 1) in
  let idx := map (fun k => startIdx + Z.of_nat k) (seq 0 n) in
  mkRegionBuffers (map (curvature_at script) idx)
    (sort_indices (curvature_at script) idx)
    (replicate n SURFACE_LESS_FLAT).

Definition mark (picked : list Z) (scanIdx : Z) : list Z :=
  if 0 <=? scanIdx then <[Z.to_nat scanIdx := 1]> picked else picked.

Definition provider (script : list float) : Collaborators float float Recorder := {|
  toSec := fun t => t;
  calcPointDistance := distance;
  hasIMUData := rec_available;
  imuStartFor := fun _ imu => imu;
  setIMUTransformFor :=
    fun relTime imu =>
      mkRecorder (rec_available imu) (rec_relTimes imu ++ [relTime]);
  transformToStartIMU := fun _ point => point;
  setScanBuffersFor := fun cloud _ _ => replicate (length cloud) 0;
  setRegionBuffersFor := fun _ startIdx endIdx => region_buffers script startIdx endIdx;
  markAsPicked := fun _ picked _ scanIdx => mark picked scanIdx;
  voxelGridFilter := fun _ cloud => cloud
|}.

(** The same collaborators, with a scan whose flags are [flags] before the
    passes. *)
Definition flagging (flags : list Z) (script : list float)
  : Collaborators float float Recorder := {|
  toSec := fun t => t;
  calcPointDistance := distance;
  hasIMUData := rec_available;
  imuStartFor := fun _ imu => imu;
  setIMUTransformFor :=
    fun relTime imu =>
      mkRecorder (rec_available imu) (rec_relTimes imu ++ [relTime]);
  transformToStartIMU := fun _ point => point;
  setScanBuffersFor := fun _ _ _ => flags;
  setRegionBuffersFor := fun _ startIdx endIdx => region_buffers script startIdx endIdx;
  markAsPicked := fun _ picked _ scanIdx => mark picked scanIdx;
  voxelGridFilter := fun _ cloud => cloud
|}.

(** The defaults of the feature parameters: four regions, two sharp and
    twenty corner points, four flat points per region. *)
Definition defaults (period threshold leaf : float) : RegistrationParams float :=
  mkParams period 4 2 20 4 threshold leaf.

(** A state at construction: [_laserRotDir(1)], everything else empty. *)
Definition initial (available : bool) : ScanRegistration float float Recorder :=
  mkState 1 0%float 0%float (mkRecorder available []) [] [] [] [] [] [] [] [] [].

(** A scan point whose three coordinates are [a], with intensity 0: the
    [k]-th point of a test scan is [scanPoint k]. *)
Definition scanPoint (a : Z) : PointXYZI float :=
  mkPointXYZI (float_of_int a) (float_of_int a) (float_of_int a) 0%float.

Definition scanOf (n : nat) : list (PointXYZI float) :=
  map (fun k => scanPoint (Z.of_nat k + 1)) (seq 0 n).

(** Scripted curvatures: every index above any threshold below 1 ... *)
Definition rising (n : nat) : list float :=
  map (fun k => float_of_int (Z.of_nat k + 1)) (seq 0 n).

(** ... and corners at the odd indices, flat points at the even ones. *)
Definition zigzag (n : nat) : list float :=
  map (fun k => if Nat.even k then 0%float else float_of_int (Z.of_nat k))
      (seq 0 n).

(** A raw batch of [n] valid points whose bearing turns against the
    initial rotation direction. *)
Definition rawBatch (n : nat) : list (PointXYZ float) :=
  map (fun k => mkPointXYZ (float_of_int (Z.of_nat (n - k))) 1%float 0%float)
      (seq 0 n).

Definition withCloud (cloud : list (PointXYZI float))
    (st : ScanRegistration float float Recorder)
  : ScanRegistration float float Recorder :=
  set_laserCloud (_imu st) cloud st.

End Scripted.

(** ** Two sentences of the specification, as they are written *)

Section AsSpecified.
Context {F : Type} {FO : FloatOps F}.

(** The four classes of a scan "are pairwise disjoint": no point is in two
    of them. *)
Definition classes_disjoint_as_specified
    (sharp lessSharp flat lessFlat : list (PointXYZI F)) : Prop :=
  forall q,
    ~ (q ∈ sharp /\ q ∈ lessSharp) /\ ~ (q ∈ sharp /\ q ∈ flat) /\
    ~ (q ∈ sharp /\ q ∈ lessFlat) /\ ~ (q ∈ lessSharp /\ q ∈ flat) /\
    ~ (q ∈ lessSharp /\ q ∈ lessFlat) /\ ~ (q ∈ flat /\ q ∈ lessFlat).

(** The filter of lines 143-152 on a raw point. *)
Definition keepRaw (p : PointXYZ F) : bool :=
  keepPoint (mkPointXYZI (in_y p) (in_z p) (in_x p) (f_of_int 0)).

(** The sweep signal is taken "from the first and last valid points of
    the raw batch": the first and the last point that the filter keeps. *)
Definition sweepPoints_as_specified (laserCloudIn : list (PointXYZ F))
  : option (PointXYZ F * PointXYZ F) :=
  match List.filter keepRaw laserCloudIn with
  | [] => None
  | p :: rest => Some (p, List.last rest p)
  end.

End AsSpecified.

(** ** The passes as a step relation

    Both passes of a region do the same thing with a candidate they accept:
    write its label, push the point and call [markAsPicked].  [picking]
    keeps the accepted candidates of a pass and forgets the ones it skips. *)

Section Passes.
Context {F Time IMU : Type} {FO : FloatOps F} {EXT : Collaborators F Time IMU}.

Abbreviation State := (ScanRegistration F Time IMU).
Abbreviation Cloud := (list (PointXYZI F)).

(** The feature cloud that receives the points of a label; the default
    label has none. *)
Definition cloudOf (l : PointLabel) (st : State) : Cloud :=
  match l with
  | CORNER_SHARP => _cornerPointsSharp st
  | CORNER_LESS_SHARP => _cornerPointsLessSharp st
  | SURFACE_FLAT => _surfacePointsFlat st
  | SURFACE_LESS_FLAT => []
  end.

(** The state after lines 214-215, 217-218 or 238-239 and the call of
    [markAsPicked] that follows them. *)
Definition accepted (l : PointLabel) (lbl : list PointLabel) (p : PointXYZI F)
    (scanIdx : Z) (st : State) : State :=
  let st := set_regionLabel lbl st in
  let st :=
    match l with
    | CORNER_SHARP => set_cornerPointsSharp (_cornerPointsSharp st ++ [p]) st
    | CORNER_LESS_SHARP =>
      set_cornerPointsLessSharp (_cornerPointsLessSharp st ++ [p]) st
    | SURFACE_FLAT => set_surfacePointsFlat (_surfacePointsFlat st ++ [p]) st
    | SURFACE_LESS_FLAT => st
    end in
  call_markAsPicked scanIdx scanIdx st.

(** The state with another scan index at position 0 of the sort indices. *)
Definition with_first_sortIndex (x : Z) (st : State) : State :=
  mkState (_laserRotDir st) (_sweepStart st) (_scanTime st) (_imu st)
    (_laserCloud st) (_cornerPointsSharp st) (_cornerPointsLessSharp st)
    (_surfacePointsFlat st) (_surfacePointsLessFlat st)
    (_regionCurvature st) (_regionLabel st)
    (<[0%nat := x]> (_regionSortIndices st)) (_scanNeighborPicked st).

Definition on_result {A B : Type} (f : A -> B) (r : result A) : result B :=
  match r with
  | Ok a => Ok (f a)
  | Err e => Err e
  end.

(** The label of the corner that makes the count [largestPickedNum]. *)
Definition cornerLabel (cfg : RegistrationParams F) (largestPickedNum : Z)
  : PointLabel :=
  if largestPickedNum <=? maxCornerSharp cfg then CORNER_SHARP
  else CORNER_LESS_SHARP.

Definition flatLabel (smallestPickedNum : Z) : PointLabel := SURFACE_FLAT.

Inductive picking (sp quota : Z) (labelFor : Z -> PointLabel)
  : Z -> State -> State -> Prop :=
| picking_done (c : Z) (st : State) : picking sp quota labelFor c st st
| picking_accept (c : Z) (st st' : State) (scanIdx : Z)
    (lbl : list PointLabel) (p : PointXYZI F) :
    c < quota ->
    vec_get (_scanNeighborPicked st) scanIdx = Ok 0 ->
    vec_set (_regionLabel st) (wrap64 (scanIdx - sp)) (labelFor (c + 1)) = Ok lbl ->
    vec_get (_laserCloud st) scanIdx = Ok p ->
    picking sp quota labelFor (c + 1)
      (accepted (labelFor (c + 1)) lbl p scanIdx st) st' ->
    picking sp quota labelFor c st st'.

(** The number of entries of a label vector that satisfy [P]. *)
Definition countLabel (P : PointLabel -> bool) (v : list PointLabel) : Z :=
  Z.of_nat (length (List.filter P v)).

Definition isSharp (l : PointLabel) : bool := PointLabel_eqb l CORNER_SHARP.
Definition isLessSharp (l : PointLabel) : bool :=
  PointLabel_eqb l CORNER_LESS_SHARP.
Definition isCorner (l : PointLabel) : bool :=
  PointLabel_eqb l CORNER_SHARP || PointLabel_eqb l CORNER_LESS_SHARP.
Definition isFlat (l : PointLabel) : bool := PointLabel_eqb l SURFACE_FLAT.

(** An index whose suppression flag is set. *)
Definition marked (picked : list Z) (i : Z) : Prop :=
  exists v, vec_get picked i = Ok v /\ v <> 0.

(** [pts] are the points of [cloud] at the scan indices [idx], in order. *)
Definition atIndices (cloud : Cloud) (idx : list Z) (pts : Cloud) : Prop :=
  Forall2 (fun i p => vec_get cloud i = Ok p) idx pts.

(** The part of the state that no pass of [extractFeatures] writes. *)
Definition sameSweepState (st0 st : State) : Prop :=
  _laserRotDir st = _laserRotDir st0 /\ _sweepStart st = _sweepStart st0 /\
  _scanTime st = _scanTime st0 /\ _imu st = _imu st0 /\
  _laserCloud st = _laserCloud st0 /\
  _surfacePointsLessFlat st = _surfacePointsLessFlat st0.

(** [st'] has the sweep state and the scan of [st], and each of its three
    feature clouds is the one of [st] followed by points of the scan. *)
Definition grownFrom (st st' : State) : Prop :=
  sameSweepState st st' /\
  forall X, exists pts,
      cloudOf X st' = cloudOf X st ++ pts /\
      forall p, p ∈ pts -> p ∈ _laserCloud st.

(** A point of the scan buffer obtained from the raw point [p]: its axes
    remapped, and moved by the IMU capability when that has data. *)
Definition derivedFrom (p : PointXYZ F) (q : PointXYZI F) : Prop :=
  exists point imu,
    q = remapInto point p \/ q = transformToStartIMU imu (remapInto point p).

(** The scan indices accepted with label [l], out of a log of accepted
    candidates in the order of their acceptance. *)
Definition idxOf (l : PointLabel) (log : list (PointLabel * Z)) : list Z :=
  map snd (List.filter (fun e => PointLabel_eqb (fst e) l) log).

(** What holds of a log of the candidates accepted since the state [st0]:
    the three feature clouds grew by the points at the logged indices, no
    index was accepted twice, and every accepted index is suppressed. *)
Definition picksInv (st0 st : State) (log : list (PointLabel * Z)) : Prop :=
  sameSweepState st0 st /\
  (forall X, X <> SURFACE_LESS_FLAT ->
             exists pts, cloudOf X st = cloudOf X st0 ++ pts /\
                         atIndices (_laserCloud st0) (idxOf X log) pts) /\
  NoDup (map snd log) /\
  (forall e, e ∈ log -> fst e <> SURFACE_LESS_FLAT /\
                        marked (_scanNeighborPicked st) (snd e)).

(** The candidates accepted in the region that starts at [sp] carry the
    label they were accepted with. *)
Definition labelsInv (sp : Z) (st : State) (log : list (PointLabel * Z)) : Prop :=
  forall e, e ∈ log ->
            sp <= snd e /\ vec_get (_regionLabel st) (snd e - sp) = Ok (fst e).

(** The buffers of a state fit the region [[sp, ep)] of a scan of
    [length (_laserCloud st)] points: one curvature, one label and one sort
    index per position, the sort indices inside the region, a suppression
    flag for every point. *)
Definition buffersFit (sp ep : Z) (st : State) : Prop :=
  0 <= sp < ep /\ ep <= Z.of_nat (length (_laserCloud st)) /\
  Z.of_nat (length (_laserCloud st)) <= 2 ^ 63 /\
  Z.of_nat (length (_regionSortIndices st)) = ep - sp /\
  Forall (fun i => sp <= i < ep) (_regionSortIndices st) /\
  Z.of_nat (length (_regionCurvature st)) = ep - sp /\
  Z.of_nat (length (_regionLabel st)) = ep - sp /\
  (length (_laserCloud st) <= length (_scanNeighborPicked st))%nat.

(** Two tables whose regions are not inverted and follow one another. *)
Definition tables_ordered (ss es : list Z) : Prop :=
  forall k sp ep,
    ss !! k = Some sp -> es !! k = Some ep ->
    1 <= sp <= ep /\ ep <= 2 ^ 63 /\
    forall k' ep', (k' < k)%nat -> es !! k' = Some ep' -> ep' <= sp.

(** [x] lies below the end of a region before region [i]. *)
Definition below (es : list Z) (i : Z) (x : Z) : Prop :=
  exists k ep, Z.of_nat k < i /\ es !! k = Some ep /\ x < ep.

(** The scan indices that the loop of lines 246-250 pushes. *)
Fixpoint lessFlatIdx (labels : list PointLabel) (sp : Z) (fuel : nat) (j : Z)
  : list Z :=
  match fuel with
  | O => []
  | S fuel' =>
    match vec_get labels j with
    | Ok l =>
      if label_value l <=? label_value SURFACE_LESS_FLAT
      then wrap64 (sp + j) :: lessFlatIdx labels sp fuel' (j + 1)
      else lessFlatIdx labels sp fuel' (j + 1)
    | Err _ => []
    end
  end.

(** The curvature that the region starting at [sp] holds for the scan
    index [scanIdx] is above the threshold, or below it. *)
Definition pastThreshold (cfg : RegistrationParams F) (curvature : list F)
    (sp : Z) (above : bool) (scanIdx : Z) : Prop :=
  exists c,
    vec_get curvature (wrap64 (scanIdx - sp)) = Ok c /\
    (if above then flt (surfaceCurvatureThreshold cfg) c
     else flt c (surfaceCurvatureThreshold cfg)) = true.

(** [x] is a scan index of one of the regions of the two tables. *)
Definition inRegions (ss es : list Z) (x : Z) : Prop :=
  exists k sp ep, ss !! k = Some sp /\ es !! k = Some ep /\ sp <= x < ep.

(** The scan indices of a scan of [n] points that the four regions
    cover: [5 .. n - 7] without the three entries between two regions. *)
Definition insideRegions (n : Z) (i : Z) : Prop :=
  5 <= i < n - 6 /\ i <> 5 + (n - 10) / 4 /\
  i <> 5 + (n - 10) / 2 /\ i <> 5 + 3 * (n - 10) / 4.

(** [st'] has the scan of [st], and each of its three feature clouds is
    the one of [st] followed by the points of the scan at scan indices
    that satisfy [ok]. *)
Definition grownAt (ok : Z -> Prop) (st st' : State) : Prop :=
  _laserCloud st' = _laserCloud st /\
  forall X, exists idx pts,
      cloudOf X st' = cloudOf X st ++ pts /\
      atIndices (_laserCloud st) idx pts /\ Forall ok idx.

End Passes.

(** ** The constructor and the message handler *)

(** The members that [CtRot2DScanRegistration] has besides those of its
    base class: the number of messages still to skip.  [_laserRotDir] is
    kept with the registration state. *)
Record CtRot2DScanRegistration (F Time IMU : Type) : Type := mkCtRot2D {
  _systemDelay : Z;
  _config : RegistrationParams F;
  _registration : ScanRegistration F Time IMU
}.
Arguments mkCtRot2D {F Time IMU}.
Arguments _systemDelay {F Time IMU}.
Arguments _config {F Time IMU}.
Arguments _registration {F Time IMU}.

Section Handler.
Context {F Time IMU : Type} {FO : FloatOps F} {EXT : Collaborators F Time IMU}.
(** A [sensor_msgs::PointCloud2] message, with what [pcl::fromROSMsg] decodes
    from it and the stamp of its header. *)
Context {Msg : Type}.
Variable fromROSMsg : Msg -> list (PointXYZ F).
Variable header_stamp : Msg -> Time.

Abbreviation Self := (CtRot2DScanRegistration F Time IMU).

(** Lines 43-49, on the state [base] that [ScanRegistration(config)] built;
    [SYSTEM_DELAY] is a constant of the missing header. *)
Definition construct (SYSTEM_DELAY : Z) (config : RegistrationParams F)
    (base : ScanRegistration F Time IMU) : Self :=
  mkCtRot2D SYSTEM_DELAY config (set_laserRotDir 1 base).

(** Lines 84-96.  The second component is what [publishResult] handed out,
    if the message got that far. *)
Definition handleCloudMessage (self : Self) (laserCloudMsg : Msg)
  : result (Self * option (Published F)) :=
  if 0 <? _systemDelay self then
    Ok (mkCtRot2D (_systemDelay self - 1) (_config self) (_registration self),
        None)
  else
    let laserCloudIn := fromROSMsg laserCloudMsg in
    do r <- process (_config self) (_registration self) laserCloudIn
              (header_stamp laserCloudMsg);
    Ok (mkCtRot2D (_systemDelay self) (_config self) (fst r), Some (snd r)).

(** The handler on the messages of the topic, one after the other; the
    results published on the way are collected in their order. *)
Fixpoint handleAll (self : Self) (msgs : list Msg)
  : result (Self * list (Published F)) :=
  match msgs with
  | [] => Ok (self, [])
  | m :: rest =>
    do r <- handleCloudMessage self m;
    do rs <- handleAll (fst r) rest;
    Ok (fst rs, match snd r with
                | Some pub => pub :: snd rs
                | None => snd rs
                end)
  end.

End Handler.

(** ** setup *)

(** What [setup] asks of a [ros::NodeHandle]: [getParam] into a
    [std::string], which fails when the parameter is missing or not a
    string, and [hasParam]. *)
Class ParamServer (Node : Type) : Type := {
  getParamString : Node -> string -> option string;
  hasParam : Node -> string -> bool
}.

(** The subscription that [node.subscribe] makes. *)
Record Subscription : Set := mkSubscription {
  sub_topic : string;
  sub_queueSize : Z
}.

Section Setup.
Context {F Node : Type} {PS : ParamServer Node}.
(** [ScanRegistration::setup] of the base class: whether it succeeded and
    the parameters it left. *)
Variable baseSetup : Node -> Node -> RegistrationParams F -> bool * RegistrationParams F.
(** The literal [0.1] of line 70. *)
Variable f_0_1 : F.

Definition set_scanPeriod (v : F) (cfg : RegistrationParams F) : RegistrationParams F :=
  mkParams v (nFeatureRegions cfg) (maxCornerSharp cfg) (maxCornerLessSharp cfg)
    (maxSurfaceFlat cfg) (surfaceCurvatureThreshold cfg) (lessFlatFilterSize cfg).

(** Lines 53-80: the return value, [_config] afterwards and the
    subscription, if one was made.  The comparison of the lidar name with
    ["ct_2d"] only decides about a log line. *)
Definition setup (node privateNode : Node) (cfg : RegistrationParams F)
  : bool * RegistrationParams F * option Subscription :=
  let based := baseSetup node privateNode cfg in
  if negb (fst based) then (false, snd based, None)
  else
    let cfg :=
      match getParamString privateNode "lidar" with
      | Some lidarName =>
        if negb (hasParam privateNode "scanPeriod")
        then set_scanPeriod f_0_1 (snd based)
        else snd based
      | None => snd based
      end in
    (true, cfg, Some (mkSubscription "/sync_scan_cloud_filtered" 2)).

End Setup.

(** A parameter server as a function from names to values. *)
Inductive ParamValue : Set :=
| ParamString (s : string)
| ParamDouble (d : float)
| ParamInt (i : Z).

#[global] Instance params_of_function : ParamServer (string -> option ParamValue) := {|
  getParamString := fun node key =>
    match node key with
    | Some (ParamString s) => Some s
    | _ => None
    end;
  hasParam := fun node key =>
    match node key with
    | Some _ => true
    | None => false
    end
|}.

(** ** The conversions of common.h *)

Record Vector3 (F : Type) : Type := mkVector3 {
  v_x : F;
  v_y : F;
  v_z : F
}.
Arguments mkVector3 {F}.
Arguments v_x {F}.
Arguments v_y {F}.
Arguments v_z {F}.

Record Quaternion (F : Type) : Type := mkQuaternion {
  q_x : F;
  q_y : F;
  q_z : F;
  q_w : F
}.
Arguments mkQuaternion {F}.
Arguments q_x {F}.
Arguments q_y {F}.
Arguments q_z {F}.
Arguments q_w {F}.

(** [nav_msgs::Odometry], field by field. *)
Record Odometry (F Time : Type) : Type := mkOdometry {
  header_seq : Z;
  header_stamp_of : Time;
  header_frame_id : string;
  child_frame_id : string;
  pose_position : Vector3 F;
  pose_orientation : Quaternion F;
  pose_covariance : list F;
  twist_linear : Vector3 F;
  twist_angular : Vector3 F;
  twist_covariance : list F
}.
Arguments mkOdometry {F Time}.
Arguments header_seq {F Time}.
Arguments header_stamp_of {F Time}.
Arguments header_frame_id {F Time}.
Arguments child_frame_id {F Time}.
Arguments pose_position {F Time}.
Arguments pose_orientation {F Time}.
Arguments pose_covariance {F Time}.
Arguments twist_linear {F Time}.
Arguments twist_angular {F Time}.
Arguments twist_covariance {F Time}.

(** [Eigen::Isometry3d]: its linear part, a 3x3 matrix, and its
    translation; the last row of an isometry is fixed. *)
Record Isometry3 (F M : Type) : Type := mkIsometry3 {
  iso_linear : M;
  iso_translation : Vector3 F
}.
Arguments mkIsometry3 {F M}.
Arguments iso_linear {F M}.
Arguments iso_translation {F M}.

(** What the conversions use of Eigen, for 3x3 matrices [M]:
    [Quaterniond::toRotationMatrix] and the constructor of a quaternion
    from a rotation matrix. *)
Class EigenOps (F M : Type) : Type := {
  toRotationMatrix : Quaternion F -> M;
  quaternionOfMatrix : M -> Quaternion F
}.

Section Conversions.
Context {F Time M : Type} {FO : FloatOps F} {EO : EigenOps F M}.

(** Lines 83-98. *)
Definition convertOdometryToEigenIsometry (odom_msg : Odometry F Time)
  : Isometry3 F M :=
  let orientation := pose_orientation odom_msg in
  let position := pose_position odom_msg in
  let quat := mkQuaternion (q_x orientation) (q_y orientation) (q_z orientation)
                (q_w orientation) in
  mkIsometry3 (toRotationMatrix quat)
    (mkVector3 (v_x position) (v_y position) (v_z position)).

(** A default-constructed [nav_msgs::Odometry]: numbers at zero, strings
    empty, the stamp at the default [zero] of [ros::Time]. *)
Definition defaultOdometry (zero : Time) : Odometry F Time :=
  let o := f_of_int 0 in
  mkOdometry 0 zero "" "" (mkVector3 o o o) (mkQuaternion o o o o)
    (replicate 36 o) (mkVector3 o o o) (mkVector3 o o o) (replicate 36 o).

(** Lines 101-120; [zero] is the stamp of a default-constructed message,
    which line 109 overwrites. *)
Definition convertEigenIsometryToOdometry (zero : Time) (frame_id : string)
    (odom : Isometry3 F M) (stamp : Time) : Odometry F Time :=
  let odom_msg := defaultOdometry zero in
  let pos := iso_translation odom in
  let rot := quaternionOfMatrix (iso_linear odom) in
  mkOdometry (header_seq odom_msg) stamp frame_id (child_frame_id odom_msg)
    (mkVector3 (v_x pos) (v_y pos) (v_z pos))
    (mkQuaternion (q_x rot) (q_y rot) (q_z rot) (q_w rot))
    (pose_covariance odom_msg) (twist_linear odom_msg) (twist_angular odom_msg)
    (twist_covariance odom_msg).

End Conversions.

(** * Properties *)

(** ** The region tables *)

Lemma wrap64_small (z : Z) : 0 <= z < 2 ^ 64 -> wrap64 z = z.
Proof. intros Hz. unfold wrap64. apply Z.mod_small. exact Hz. Qed.

Lemma wrap64_neg (z : Z) : - 2 ^ 64 <= z < 0 -> wrap64 z = z + 2 ^ 64.
Proof.
  intros Hz. unfold wrap64. symmetry.
  apply Z.mod_unique with (q := -1); lia.
Qed.

Lemma wrap64_range (z : Z) : 0 <= wrap64 z < 2 ^ 64.
Proof. unfold wrap64. apply Z.mod_pos_bound. lia. Qed.

Lemma int_of_quotient_ok (num den : Z) :
  num / den <= INT_MAX -> int_of_quotient num den = Ok (num / den).
Proof.
  intros Hq. unfold int_of_quotient.
  destruct (Z.leb_spec (num / den) INT_MAX); [reflexivity | lia].
Qed.

Lemma int_add_ok (a b : Z) :
  INT_MIN <= a + b <= INT_MAX -> int_add a b = Ok (a + b).
Proof.
  intros [Hlo Hhi]. unfold int_add, in_int_range.
  destruct (Z.leb_spec INT_MIN (a + b)); [| lia].
  destruct (Z.leb_spec (a + b) INT_MAX); [reflexivity | lia].
Qed.

Lemma int_mul_ok (a b : Z) :
  INT_MIN <= a * b <= INT_MAX -> int_mul a b = Ok (a * b).
Proof.
  intros [Hlo Hhi]. unfold int_mul, in_int_range.
  destruct (Z.leb_spec INT_MIN (a * b)); [| lia].
  destruct (Z.leb_spec (a * b) INT_MAX); [reflexivity | lia].
Qed.

Ltac table_entry :=
  first
    [ rewrite int_of_quotient_ok
        by (unfold INT_MAX; Z.div_mod_to_equations; lia)
    | rewrite int_add_ok
        by (unfold INT_MIN, INT_MAX; Z.div_mod_to_equations; lia) ];
  cbn [bind].

(** The entries of the two tables, for a scan of 10 to 2^31 points. *)
Lemma tables_values (n : Z) :
  10 <= n <= 2 ^ 31 ->
  startPoints n =
    Ok [5; 6 + (n - 10) / 4; 6 + (n - 10) / 2; 6 + 3 * (n - 10) / 4] /\
  endPoints n =
    Ok [5 + (n - 10) / 4; 5 + (n - 10) / 2; 5 + 3 * (n - 10) / 4; n - 6].
Proof.
  intros Hn. unfold startPoints, endPoints.
  rewrite (wrap64_small (n - 10)) by lia.
  rewrite (wrap64_small (3 * (n - 10))) by lia.
  split; repeat table_entry;
    rewrite !wrap64_small by (Z.div_mod_to_equations; lia); reflexivity.
Qed.

Lemma lookup4 {A : Type} (a b c d : A) (k : nat) (v : A) :
  [a; b; c; d] !! k = Some v ->
  k = 0%nat /\ v = a \/ k = 1%nat /\ v = b \/
  k = 2%nat /\ v = c \/ k = 3%nat /\ v = d.
Proof.
  destruct k as [|[|[|[|k]]]]; cbn; intros Hk; inversion Hk; auto 6.
Qed.

(** The two tables are laid out as index ranges with both ends included:
    for a scan of at least 11 points they hold the quarter points of
    [validCount - 10] rounded down, each region starts one index after the
    end entry of the region before it, and the ranges [start_k .. end_k]
    are pairwise disjoint and cover exactly the indices from 5 up to, and
    excluding, [validCount - 5]. *)
Lemma tables_cover_with_ends_included (validCount : Z) :
  11 <= validCount <= 2 ^ 31 ->
  exists ss es,
    startPoints validCount = Ok ss /\ endPoints validCount = Ok es /\
    ss = [5; 6 + (validCount - 10) / 4; 6 + (validCount - 10) / 2;
          6 + 3 * (validCount - 10) / 4] /\
    es = [5 + (validCount - 10) / 4; 5 + (validCount - 10) / 2;
          5 + 3 * (validCount - 10) / 4; validCount - 6] /\
    (forall k sp ep, es !! k = Some ep -> ss !! S k = Some sp -> sp = ep + 1) /\
    (forall i, 5 <= i < validCount - 5 <-> exists k, inRegionClosed ss es k i) /\
    (forall i k k',
        inRegionClosed ss es k i -> inRegionClosed ss es k' i -> k = k').
Proof.
  intros Hn.
  destruct (tables_values validCount) as [Hs He]; [lia |].
  eexists _, _. split; [exact Hs |]. split; [exact He |].
  split; [reflexivity |]. split; [reflexivity |].
  set (m := validCount - 10) in *.
  assert (Hq1 : 0 <= m / 4 <= m / 2) by (Z.div_mod_to_equations; lia).
  assert (Hq2 : m / 2 <= 3 * m / 4) by (Z.div_mod_to_equations; lia).
  assert (Hq3 : 3 * m / 4 <= m - 1) by (Z.div_mod_to_equations; lia).
  split; [| split].
  - intros k sp ep Hep Hsp.
    apply lookup4 in Hep. cbn in Hsp.
    destruct Hep as [[-> ->]|[[-> ->]|[[-> ->]|[-> ->]]]];
      cbn in Hsp; inversion Hsp; lia.
  - intros i. split.
    + intros Hi.
      destruct (Z_le_gt_dec i (5 + m / 4));
        [exists 0%nat | destruct (Z_le_gt_dec i (5 + m / 2));
          [exists 1%nat | destruct (Z_le_gt_dec i (5 + 3 * m / 4));
            [exists 2%nat | exists 3%nat]]];
        eexists _, _; (split; [reflexivity | split; [reflexivity | lia]]).
    + intros (k & sp & ep & Hsp & Hep & Hi).
      apply lookup4 in Hsp. apply lookup4 in Hep.
      destruct Hsp as [[-> ->]|[[-> ->]|[[-> ->]|[-> ->]]]];
        destruct Hep as [[? ->]|[[? ->]|[[? ->]|[? ->]]]];
        try discriminate; lia.
  - intros i k k' (sp & ep & Hsp & Hep & Hi) (sp' & ep' & Hsp' & Hep' & Hi').
    apply lookup4 in Hsp. apply lookup4 in Hep.
    apply lookup4 in Hsp'. apply lookup4 in Hep'.
    destruct Hsp as [[-> ->]|[[-> ->]|[[-> ->]|[-> ->]]]];
      destruct Hep as [[? ->]|[[? ->]|[[? ->]|[? ->]]]]; try discriminate;
      destruct Hsp' as [[-> ->]|[[-> ->]|[[-> ->]|[-> ->]]]];
      destruct Hep' as [[? ->]|[[? ->]|[[? ->]|[? ->]]]]; try discriminate;
      first [reflexivity | lia].
Qed.

(** C1: the regions as [extractFeatures] walks them do not make the
    partition.  The tables are laid out with both ends included, but the
    loops take [regionSize = ep - sp] and walk the scan indices
    [sp .. ep - 1]: for every scan of 11 to 2^31 points, region [k + 1]
    starts one index after the end entry of region [k] instead of at it, and
    each of the four end entries is an index of [[5, validCount - 5)] that
    lies in no region, while every other index of that interval lies in
    one.  On the scan of 30 points the tables are [5, 11, 16, 21] and
    [10, 15, 20, 24], and the run of the regions takes its corners, its
    flat points and its less flat candidates at the indices 5-9, 11-14,
    16-19 and 21-23: the points at 10, 15, 20 and 24 are in none of the
    outputs. *)
Theorem region_loops_miss_table_ends (validCount : Z) :
  11 <= validCount <= 2 ^ 31 ->
  (exists ss es,
      startPoints validCount = Ok ss /\ endPoints validCount = Ok es /\
      ss = [5; 6 + (validCount - 10) / 4; 6 + (validCount - 10) / 2;
            6 + 3 * (validCount - 10) / 4] /\
      es = [5 + (validCount - 10) / 4; 5 + (validCount - 10) / 2;
            5 + 3 * (validCount - 10) / 4; validCount - 6] /\
      (forall k sp ep, es !! k = Some ep -> ss !! S k = Some sp -> sp <> ep) /\
      (forall k ep, es !! k = Some ep ->
                    5 <= ep < validCount - 5 /\
                    forall k', ~ inRegion ss es k' ep) /\
      (forall i, 5 <= i < validCount - 5 ->
                 (exists k, inRegion ss es k i) \/ (exists k, es !! k = Some i))) /\
  ~ partition_as_specified validCount /\
  (let cfg := Scripted.defaults 0.5 0.5 0.5 in
   let st := Scripted.withCloud (Scripted.scanOf 30) (Scripted.initial false) in
   let pointsAt := map (fun i => Scripted.scanPoint (i + 1)) in
   startPoints 30 = Ok [5; 11; 16; 21] /\
   endPoints 30 = Ok [10; 15; 20; 24] /\
   _laserCloud st = pointsAt (seqZ 0 30) /\
   exists st' less,
     extractRegions (EXT := Scripted.provider (Scripted.zigzag 30)) cfg st
     = Ok (st', less) /\
     _cornerPointsSharp st' = pointsAt [9; 7; 13; 11; 19; 17; 23; 21] /\
     _cornerPointsLessSharp st' = pointsAt [5] /\
     _surfacePointsFlat st' = pointsAt [6; 8; 12; 14; 16; 18; 22] /\
     less = pointsAt [6; 8; 12; 14; 16; 18; 22]).
Proof.
  intros Hn.
  assert (Htables : exists ss es,
      startPoints validCount = Ok ss /\ endPoints validCount = Ok es /\
      ss = [5; 6 + (validCount - 10) / 4; 6 + (validCount - 10) / 2;
            6 + 3 * (validCount - 10) / 4] /\
      es = [5 + (validCount - 10) / 4; 5 + (validCount - 10) / 2;
            5 + 3 * (validCount - 10) / 4; validCount - 6] /\
      (forall k sp ep, es !! k = Some ep -> ss !! S k = Some sp -> sp <> ep) /\
      (forall k ep, es !! k = Some ep ->
                    5 <= ep < validCount - 5 /\
                    forall k', ~ inRegion ss es k' ep) /\
      (forall i, 5 <= i < validCount - 5 ->
                 (exists k, inRegion ss es k i) \/ (exists k, es !! k = Some i))).
  { destruct (tables_values validCount) as [Hs He]; [lia |].
    eexists _, _. split; [exact Hs |]. split; [exact He |].
    split; [reflexivity |]. split; [reflexivity |].
    set (m := validCount - 10) in *.
    assert (Hq1 : 0 <= m / 4 <= m / 2) by (Z.div_mod_to_equations; lia).
    assert (Hq2 : m / 2 <= 3 * m / 4) by (Z.div_mod_to_equations; lia).
    assert (Hq3 : 3 * m / 4 <= m - 1) by (Z.div_mod_to_equations; lia).
    split; [| split].
    - intros k sp ep Hep Hsp.
      apply lookup4 in Hep. cbn in Hsp.
      destruct Hep as [[-> ->]|[[-> ->]|[[-> ->]|[-> ->]]]];
        cbn in Hsp; inversion Hsp; lia.
    - intros k ep Hep. apply lookup4 in Hep.
      assert (Hcase : ep = 5 + m / 4 \/ ep = 5 + m / 2 \/ ep = 5 + 3 * m / 4
                      \/ ep = validCount - 6)
        by (destruct Hep as [[_ ->]|[[_ ->]|[[_ ->]|[_ ->]]]]; auto).
      clear Hep. split; [lia |].
      intros k' (sp' & ep' & Hsp' & Hep' & Hi).
      apply lookup4 in Hsp'. apply lookup4 in Hep'.
      destruct Hsp' as [[-> ->]|[[-> ->]|[[-> ->]|[-> ->]]]];
        destruct Hep' as [[? ->]|[[? ->]|[[? ->]|[? ->]]]];
        try discriminate; lia.
    - intros i Hi.
      destruct (Z.eq_dec i (5 + m / 4)) as [-> | H1];
        [right; exists 0%nat; reflexivity |].
      destruct (Z.eq_dec i (5 + m / 2)) as [-> | H2];
        [right; exists 1%nat; reflexivity |].
      destruct (Z.eq_dec i (5 + 3 * m / 4)) as [-> | H3];
        [right; exists 2%nat; reflexivity |].
      destruct (Z.eq_dec i (validCount - 6)) as [-> | H4];
        [right; exists 3%nat; reflexivity |].
      left.
      destruct (Z_le_gt_dec i (5 + m / 4));
        [exists 0%nat | destruct (Z_le_gt_dec i (5 + m / 2));
          [exists 1%nat | destruct (Z_le_gt_dec i (5 + 3 * m / 4));
            [exists 2%nat | exists 3%nat]]];
        eexists _, _; (split; [reflexivity | split; [reflexivity | lia]]). }
  split; [exact Htables |]. split.
  - destruct Htables as (ss & es & Hs & He & -> & Hes & _ & Hmiss & _).
    intros (ss' & es' & Hs' & He' & Hcover & _).
    rewrite Hs in Hs'. rewrite He in He'.
    inversion Hs'; inversion He'; subst ss' es'.
    destruct (Hmiss 0%nat (5 + (validCount - 10) / 4)) as [Hin Hno];
      [rewrite Hes; reflexivity |].
    destruct (proj1 (Hcover _) Hin) as [k Hk]. exact (Hno k Hk).
  - cbv zeta.
    split; [reflexivity |]. split; [reflexivity |]. split; [reflexivity |].
    destruct (extractRegions (EXT := Scripted.provider (Scripted.zigzag 30))
                (Scripted.defaults 0.5 0.5 0.5)
                (Scripted.withCloud (Scripted.scanOf 30) (Scripted.initial false)))
      as [[st' less] | e] eqn:Hrun; [| vm_compute in Hrun; discriminate].
    exists st', less. split; [reflexivity |].
    vm_compute in Hrun. inversion Hrun. repeat split; reflexivity.
Qed.

Lemma region_loops_miss_table_ends_witness :
  11 <= 30 <= 2 ^ 31 /\
  ~ partition_as_specified 30 /\
  exists st' less,
    extractRegions (EXT := Scripted.provider (Scripted.zigzag 30))
      (Scripted.defaults 0.5 0.5 0.5)
      (Scripted.withCloud (Scripted.scanOf 30) (Scripted.initial false))
    = Ok (st', less) /\
    less = map (fun i => Scripted.scanPoint (i + 1)) [6; 8; 12; 14; 16; 18; 22].
Proof.
  assert (Hn : 11 <= 30 <= 2 ^ 31) by lia.
  split; [exact Hn |].
  destruct (region_loops_miss_table_ends 30 Hn)
    as (_ & Hno & _ & _ & _ & st' & less & Hrun & _ & _ & _ & Hless).
  split; [exact Hno |]. exists st', less. split; assumption.
Defined.

(** Every region has at least one index exactly from 19 points on. *)
Lemma regions_nonempty_iff (n : Z) :
  10 <= n <= 2 ^ 31 ->
  exists ss es,
    startPoints n = Ok ss /\ endPoints n = Ok es /\
    ((forall k sp ep, ss !! k = Some sp -> es !! k = Some ep -> sp < ep)
     <-> 19 <= n).
Proof.
  intros Hn. destruct (tables_values n Hn) as [Hs He].
  eexists _, _. split; [exact Hs |]. split; [exact He |].
  set (m := n - 10) in *. split.
  - intros Hall.
    specialize (Hall 3%nat _ _ eq_refl eq_refl).
    Z.div_mod_to_equations. lia.
  - intros H19 k sp ep Hsp Hep.
    apply lookup4 in Hsp. apply lookup4 in Hep.
    destruct Hsp as [[-> ->]|[[-> ->]|[[-> ->]|[-> ->]]]];
      destruct Hep as [[? ->]|[[? ->]|[[? ->]|[? ->]]]]; try discriminate;
      Z.div_mod_to_equations; lia.
Qed.

(** ** Unchecked accesses *)

Lemma vec_get_Ok {A : Type} (v : list A) (i : Z) (a : A) :
  vec_get v i = Ok a <-> 0 <= i /\ v !! Z.to_nat i = Some a.
Proof.
  unfold vec_get. split.
  - destruct (Z.leb_spec 0 i); cbn [andb]; [| discriminate].
    destruct (Z.ltb_spec i (Z.of_nat (length v))); [| discriminate].
    destruct (v !! Z.to_nat i) eqn:E; [| discriminate].
    intros Hok. inversion Hok. subst. auto.
  - intros [Hi Hv].
    assert (Hlt : (Z.to_nat i < length v)%nat) by (eapply lookup_lt_Some; eauto).
    destruct (Z.leb_spec 0 i); [| lia]. cbn [andb].
    destruct (Z.ltb_spec i (Z.of_nat (length v))); [| lia].
    rewrite Hv. reflexivity.
Qed.

Lemma vec_get_range {A : Type} (v : list A) (i : Z) (a : A) :
  vec_get v i = Ok a -> 0 <= i < Z.of_nat (length v).
Proof.
  intros Hget. apply vec_get_Ok in Hget as [Hi Hv].
  apply lookup_lt_Some in Hv. lia.
Qed.

Lemma vec_get_elem_of {A : Type} (v : list A) (i : Z) (a : A) :
  vec_get v i = Ok a -> a ∈ v.
Proof.
  intros Hget. apply vec_get_Ok in Hget as [_ Hv].
  eapply list_elem_of_lookup_2. exact Hv.
Qed.

Lemma vec_get_nil {A : Type} (i : Z) : vec_get (@nil A) i = Err OutOfBounds.
Proof.
  unfold vec_get. cbn [length].
  destruct (Z.leb_spec 0 i); cbn [andb]; [| reflexivity].
  destruct (Z.ltb_spec i (Z.of_nat 0)); [lia | reflexivity].
Qed.

Lemma vec_set_Ok {A : Type} (v w : list A) (i : Z) (a : A) :
  vec_set v i a = Ok w ->
  0 <= i < Z.of_nat (length v) /\ w = <[Z.to_nat i := a]> v.
Proof.
  unfold vec_set.
  destruct (Z.leb_spec 0 i); cbn [andb]; [| discriminate].
  destruct (Z.ltb_spec i (Z.of_nat (length v))); [| discriminate].
  intros Hok. inversion Hok. split; [lia | reflexivity].
Qed.

Lemma last_default_irrelevant {A : Type} (a : A) (l : list A) (d d' : A) :
  List.last (a :: l) d = List.last (a :: l) d'.
Proof.
  revert a. induction l as [| b l IH]; intros a; [reflexivity |].
  change (List.last (b :: l) d = List.last (b :: l) d'). apply IH.
Qed.

Lemma lookup_last {A : Type} (p : A) (rest : list A) :
  (p :: rest) !! length rest = Some (List.last rest p).
Proof.
  revert p. induction rest as [| q rest IH]; intros p; [reflexivity |].
  cbn [length]. rewrite lookup_cons. rewrite IH. f_equal.
  destruct rest as [| r rest']; [reflexivity |].
  change (List.last (r :: rest') q = List.last (r :: rest') p).
  apply last_default_irrelevant.
Qed.

(** ** The sweep detection of [process] *)

Section Sweep.
Context {F Time IMU : Type} {FO : FloatOps F} {EXT : Collaborators F Time IMU}.

Abbreviation State := (ScanRegistration F Time IMU).

Lemma sweepPoints_cons (p : PointXYZ F) (rest : list (PointXYZ F)) :
  Z.of_nat (length (p :: rest)) < 2 ^ 64 ->
  sweepPoints (p :: rest) = Ok (p, List.last rest p).
Proof.
  intros Hlen. unfold sweepPoints.
  assert (H0 : vec_get (p :: rest) 0 = Ok p) by (apply vec_get_Ok; split; [lia | reflexivity]).
  rewrite H0. cbn [bind].
  assert (Hl : vec_get (p :: rest) (wrap64 (Z.of_nat (length (p :: rest)) - 1))
               = Ok (List.last rest p)).
  { cbn [length] in *. rewrite wrap64_small by lia.
    apply vec_get_Ok. split; [lia |].
    replace (Z.to_nat (Z.of_nat (S (length rest)) - 1)) with (length rest) by lia.
    apply lookup_last. }
  rewrite Hl. reflexivity.
Qed.

(** C10: [process] reads [laserCloudIn.points[0]] and
    [laserCloudIn.points[cloudSize - 1]] before it looks at any point's
    validity.  On an empty batch both accesses are outside the vector (the
    second at index 2^64 - 1) and [process] does nothing else.  On a
    non-empty batch the two reads yield the first and the last raw point,
    whatever these are, and [process] goes on with them: the angle it
    compares with the rotation direction is made of these two points, and
    only then is the batch filtered. *)
Theorem process_reads_raw_ends (cfg : RegistrationParams F) (st : State)
    (scanTime : Time) (p : PointXYZ F) (rest : list (PointXYZ F)) :
  Z.of_nat (length (p :: rest)) < 2 ^ 64 ->
  (wrap64 (Z.of_nat (length (@nil (PointXYZ F))) - 1) = 2 ^ 64 - 1 /\
   vec_get (@nil (PointXYZ F)) 0 = Err OutOfBounds /\
   vec_get (@nil (PointXYZ F)) (2 ^ 64 - 1) = Err OutOfBounds /\
   sweepPoints (@nil (PointXYZ F)) = Err OutOfBounds /\
   process cfg st [] scanTime = Err OutOfBounds) /\
  sweepPoints (p :: rest) = Ok (p, List.last rest p) /\
  process cfg st (p :: rest) scanTime
  = (let first := p in
     let last := List.last rest p in
     let angle :=
       atan2 (fsub (fdiv (in_x last) (calcPointDistance last))
                   (fdiv (in_x first) (calcPointDistance first)))
             (fsub (fdiv (in_y last) (calcPointDistance last))
                   (fdiv (in_y first) (calcPointDistance first))) in
     let newSweep :=
       flt (fmul angle (f_of_int (_laserRotDir st))) (f_of_int 0)
       && flt (scanPeriod cfg) (fsub (toSec scanTime) (toSec (_sweepStart st))) in
     let stR :=
       if newSweep
       then reset scanTime true (set_laserRotDir (_laserRotDir st * -1) st)
       else reset scanTime false st in
     do scan <- ingestBatch (p :: rest) defaultPoint (_imu stR);
     do st' <- extractFeatures cfg (set_laserCloud (fst scan) (snd scan) stR);
     Ok (st', publishResult st')).
Proof.
  intros Hlen.
  split; [repeat split; reflexivity |].
  split; [apply sweepPoints_cons; exact Hlen |].
  unfold process, detectSweep.
  rewrite sweepPoints_cons by exact Hlen. cbn [bind fst snd].
  unfold signDisagrees, periodElapsed, laserAngle, normalized.
  cbn [in_x in_y in_z].
  destruct (flt _ (f_of_int 0) && flt (scanPeriod cfg) _); reflexivity.
Qed.

Lemma detectSweep_nonempty (cfg : RegistrationParams F) (st : State)
    (scanTime : Time) (p : PointXYZ F) (rest : list (PointXYZ F)) :
  Z.of_nat (length (p :: rest)) < 2 ^ 64 ->
  exists stR newSweep,
    detectSweep cfg st (p :: rest) scanTime = Ok (stR, newSweep).
Proof.
  intros Hlen. unfold detectSweep.
  rewrite sweepPoints_cons by exact Hlen. cbn [bind fst snd].
  destruct (signDisagrees (laserAngle p (List.last rest p)) (_laserRotDir st)
            && periodElapsed cfg scanTime (_sweepStart st));
    eexists _, _; reflexivity.
Qed.

(** C8 (as amended): the sweep signal is computed from the first and the
    last element of the raw batch, valid or not: each is divided by its
    range, [atan2] is taken of the differences of the x and of the y
    coordinates, and the product of the angle with the rotation direction is
    compared with zero. *)
Theorem sweep_signal_from_raw_ends (cfg : RegistrationParams F) (st : State)
    (scanTime : Time) (p : PointXYZ F) (rest : list (PointXYZ F)) :
  Z.of_nat (length (p :: rest)) < 2 ^ 64 ->
  let first := p in
  let last := List.last rest p in
  let angle :=
    atan2 (fsub (fdiv (in_x last) (calcPointDistance last))
                (fdiv (in_x first) (calcPointDistance first)))
          (fsub (fdiv (in_y last) (calcPointDistance last))
                (fdiv (in_y first) (calcPointDistance first))) in
  exists st',
    detectSweep cfg st (p :: rest) scanTime
    = Ok (st', flt (fmul angle (f_of_int (_laserRotDir st))) (f_of_int 0)
               && periodElapsed cfg scanTime (_sweepStart st)).
Proof.
  intros Hlen first last angle. unfold detectSweep.
  rewrite sweepPoints_cons by exact Hlen. cbn [bind fst snd].
  change (laserAngle p (List.last rest p)) with angle.
  unfold signDisagrees.
  destruct (flt (fmul angle (f_of_int (_laserRotDir st))) (f_of_int 0)
            && periodElapsed cfg scanTime (_sweepStart st));
    eexists; reflexivity.
Qed.

End Sweep.

Lemma process_reads_raw_ends_witness :
  let cfg := Scripted.defaults 0.5 0.5 0.5 in
  let st := Scripted.initial false in
  let p := mkPointXYZ 0%float 0%float 0%float in
  let rest := Scripted.rawBatch 20 ++ [mkPointXYZ PrimFloat.nan 1%float 0%float] in
  Z.of_nat (length (p :: rest)) < 2 ^ 64 /\
  (wrap64 (Z.of_nat (length (@nil (PointXYZ float))) - 1) = 2 ^ 64 - 1 /\
   vec_get (@nil (PointXYZ float)) 0 = Err OutOfBounds /\
   vec_get (@nil (PointXYZ float)) (2 ^ 64 - 1) = Err OutOfBounds /\
   sweepPoints (@nil (PointXYZ float)) = Err OutOfBounds /\
   process (EXT := Scripted.provider (Scripted.zigzag 20)) cfg st [] 1%float
   = Err OutOfBounds) /\
  sweepPoints (p :: rest) = Ok (p, List.last rest p) /\
  process (EXT := Scripted.provider (Scripted.zigzag 20)) cfg st (p :: rest) 1%float
  = (let first := p in
     let last := List.last rest p in
     let angle :=
       atan2 (fsub (fdiv (in_x last) (Scripted.distance last))
                   (fdiv (in_x first) (Scripted.distance first)))
             (fsub (fdiv (in_y last) (Scripted.distance last))
                   (fdiv (in_y first) (Scripted.distance first))) in
     let newSweep :=
       flt (fmul angle (f_of_int (_laserRotDir st))) (f_of_int 0)
       && flt (scanPeriod cfg) (fsub 1%float (_sweepStart st)) in
     let stR :=
       if newSweep
       then reset (EXT := Scripted.provider (Scripted.zigzag 20)) 1%float true
              (set_laserRotDir (_laserRotDir st * -1) st)
       else reset (EXT := Scripted.provider (Scripted.zigzag 20)) 1%float false st in
     do scan <- ingestBatch (EXT := Scripted.provider (Scripted.zigzag 20))
                  (p :: rest) defaultPoint (_imu stR);
     do st' <- extractFeatures (EXT := Scripted.provider (Scripted.zigzag 20)) cfg
                 (set_laserCloud (fst scan) (snd scan) stR);
     Ok (st', publishResult st')).
Proof.
  intros cfg st p rest.
  assert (Hlen : Z.of_nat (length (p :: rest)) < 2 ^ 64) by (cbn; lia).
  split; [exact Hlen |].
  exact (process_reads_raw_ends (EXT := Scripted.provider (Scripted.zigzag 20))
           cfg st 1%float p rest Hlen).
Defined.

Lemma sweep_signal_from_raw_ends_witness :
  let cfg := Scripted.defaults 1 1 1 in
  let st := Scripted.initial false in
  let p := mkPointXYZ 0%float 0%float 0%float in
  let rest := [mkPointXYZ 1%float 0%float 0%float; mkPointXYZ 0%float 1%float 0%float] in
  Z.of_nat (length (p :: rest)) < 2 ^ 64 /\
  exists st',
    detectSweep (EXT := Scripted.provider []) cfg st (p :: rest) 2%float
    = Ok (st', false).
Proof.
  intros cfg st p rest.
  assert (Hlen : Z.of_nat (length (p :: rest)) < 2 ^ 64) by (cbn; lia).
  split; [exact Hlen |].
  exact (sweep_signal_from_raw_ends (EXT := Scripted.provider []) cfg st
           2%float p rest Hlen).
Defined.

(** C8 (as stated) fails on the batch [(0,0,0); (1,0,0); (0,1,0)]: its
    first valid point is [(1,0,0)], but the point read as [laserPointFirst]
    is [(0,0,0)], which the filter drops; its range is 0, so the angle is
    NaN and no sweep is declared for either rotation direction, while the
    bearing of the first and last valid points is negative. *)
Lemma sweep_signal_not_from_valid_points :
  let zero := mkPointXYZ 0%float 0%float 0%float in
  let a := mkPointXYZ 1%float 0%float 0%float in
  let b := mkPointXYZ 0%float 1%float 0%float in
  sweepPoints [zero; a; b] = Ok (zero, b) /\
  keepRaw zero = false /\
  sweepPoints_as_specified [zero; a; b] = Some (a, b) /\
  PrimFloat.is_nan (laserAngle (EXT := Scripted.provider []) zero b) = true /\
  signDisagrees (laserAngle (EXT := Scripted.provider []) zero b) 1 = false /\
  signDisagrees (laserAngle (EXT := Scripted.provider []) zero b) (-1) = false /\
  signDisagrees (laserAngle (EXT := Scripted.provider []) a b) 1 = true.
Proof. vm_compute. repeat split. Qed.

(** ** The passes of a region *)

Section PassesFacts.
Context {F Time IMU : Type} {FO : FloatOps F} {EXT : Collaborators F Time IMU}.

Abbreviation State := (ScanRegistration F Time IMU).
Abbreviation Cloud := (list (PointXYZI F)).

Lemma bind_Ok {A B : Type} (m : result A) (k : A -> result B) (b : B) :
  bind m k = Ok b -> exists a, m = Ok a /\ k a = Ok b.
Proof. destruct m as [a | e]; cbn; [eauto | discriminate]. Qed.

Lemma candidate_true (cfg : RegistrationParams F) (above : bool)
    (scanIdx regionIdx : Z) (st : State) :
  candidate cfg above scanIdx regionIdx st = Ok true ->
  vec_get (_scanNeighborPicked st) scanIdx = Ok 0.
Proof.
  unfold candidate. intros Hc.
  apply bind_Ok in Hc as (picked & Hp & Hc).
  destruct (Z.eqb_spec picked 0) as [-> | Hne]; [exact Hp | discriminate].
Qed.

(** The corner pass is a [picking] with the quota [maxCornerLessSharp]. *)
Lemma cornerLoop_picking (cfg : RegistrationParams F) (sp : Z) (fuel : nat) :
  forall (j c : Z) (st st' : State),
    cornerLoop cfg sp fuel j c st = Ok st' ->
    picking sp (maxCornerLessSharp cfg) (cornerLabel cfg) c st st'.
Proof.
  induction fuel as [| fuel IH]; intros j c st st' Hrun; cbn in Hrun.
  - inversion Hrun. constructor.
  - destruct (Z.ltb_spec c (maxCornerLessSharp cfg)) as [Hq | Hq];
      [| inversion Hrun; constructor].
    apply bind_Ok in Hrun as (scanIdx & Hidx & Hrun).
    apply bind_Ok in Hrun as (accept & Hcand & Hrun).
    destruct accept; [| eapply IH; exact Hrun].
    apply candidate_true in Hcand.
    destruct (Z.leb_spec (c + 1) (maxCornerSharp cfg)) as [Hs | Hs].
    + apply bind_Ok in Hrun as (lbl & Hlbl & Hrun).
      apply bind_Ok in Hrun as (p & Hp & Hrun).
      apply IH in Hrun.
      eapply picking_accept with (scanIdx := scanIdx) (lbl := lbl) (p := p);
        try eassumption.
      * unfold cornerLabel.
        destruct (Z.leb_spec (c + 1) (maxCornerSharp cfg)); [exact Hlbl | lia].
      * unfold cornerLabel.
        destruct (Z.leb_spec (c + 1) (maxCornerSharp cfg)); [exact Hrun | lia].
    + apply bind_Ok in Hrun as (m10 & Hm & Hrun).
      destruct (Z.leb_spec (c + 1) m10) as [Hl | Hl];
        [| inversion Hrun; constructor].
      apply bind_Ok in Hrun as (lbl & Hlbl & Hrun).
      apply bind_Ok in Hrun as (p & Hp & Hrun).
      apply IH in Hrun.
      eapply picking_accept with (scanIdx := scanIdx) (lbl := lbl) (p := p);
        try eassumption.
      * unfold cornerLabel.
        destruct (Z.leb_spec (c + 1) (maxCornerSharp cfg)); [lia | exact Hlbl].
      * unfold cornerLabel.
        destruct (Z.leb_spec (c + 1) (maxCornerSharp cfg)); [lia | exact Hrun].
Qed.

(** The surface pass is a [picking] with the quota [maxSurfaceFlat]. *)
Lemma flatLoop_picking (cfg : RegistrationParams F) (sp : Z) (fuel : nat) :
  forall (j c : Z) (st st' : State),
    flatLoop cfg sp fuel j c st = Ok st' ->
    picking sp (maxSurfaceFlat cfg) flatLabel c st st'.
Proof.
  induction fuel as [| fuel IH]; intros j c st st' Hrun; cbn in Hrun.
  - inversion Hrun. constructor.
  - destruct (Z.ltb_spec c (maxSurfaceFlat cfg)) as [Hq | Hq];
      [| inversion Hrun; constructor].
    apply bind_Ok in Hrun as (scanIdx & Hidx & Hrun).
    apply bind_Ok in Hrun as (accept & Hcand & Hrun).
    destruct accept; [| eapply IH; exact Hrun].
    apply candidate_true in Hcand.
    apply bind_Ok in Hrun as (lbl & Hlbl & Hrun).
    apply bind_Ok in Hrun as (p & Hp & Hrun).
    apply IH in Hrun.
    eapply picking_accept with (scanIdx := scanIdx) (lbl := lbl) (p := p);
      eassumption.
Qed.


(** A region of length 0: [regionSize - 1] wraps, the exit test [j > 0]
    holds, and the first read of the corner pass is outside the vector of
    sort indices, the provider never having 2^64 - 1 of them. *)
Lemma empty_region_out_of_bounds (cfg : RegistrationParams F) (sp : Z)
    (st : State) (less : Cloud) :
  0 < maxCornerLessSharp cfg ->
  Z.of_nat (length (rb_sortIndices
                      (setRegionBuffersFor (_laserCloud st) sp (wrap64 (sp - 1)))))
  < 2 ^ 64 - 1 ->
  extractRegion cfg sp sp st less = Err OutOfBounds.
Proof.
  intros Hquota Hlen. unfold extractRegion.
  replace (sp - sp) with 0 by lia.
  change (wrap64 (wrap64 0 - 1)) with (2 ^ 64 - 1).
  replace (Z.to_nat (2 ^ 64 - 1)) with (S (Z.to_nat (2 ^ 64 - 2))) by lia.
  cbn [cornerLoop].
  destruct (Z.ltb_spec 0 (maxCornerLessSharp cfg)) as [_ | Hno]; [| lia].
  unfold vec_get at 1.
  cbn [_regionSortIndices call_setRegionBuffersFor set_regionBuffers].
  destruct (Z.ltb_spec (2 ^ 64 - 1)
              (Z.of_nat (length (rb_sortIndices
                 (setRegionBuffersFor (_laserCloud st) sp (wrap64 (sp - 1)))))))
    as [Hin | _]; [lia |].
  rewrite andb_false_r. reflexivity.
Qed.

(** A region of length 1: the corner pass ends before its first turn. *)
Lemma one_point_region_has_no_corner (cfg : RegistrationParams F) (sp : Z)
    (st : State) :
  let regionSize := wrap64 (sp + 1 - sp) in
  cornerLoop cfg sp (Z.to_nat (wrap64 (regionSize - 1)))
    (wrap64 (regionSize - 1)) 0 st = Ok st.
Proof. replace (sp + 1 - sp) with 1 by lia. reflexivity. Qed.

(** Whatever the length of the region, the corner pass does not look at
    position 0 of the sorted order: it runs the same with any other scan
    index there. *)
Lemma corner_pass_ignores_position_zero (cfg : RegistrationParams F) (sp x : Z)
    (fuel : nat) :
  forall (c : Z) (st : State),
    cornerLoop cfg sp fuel (Z.of_nat fuel) c (with_first_sortIndex x st)
    = on_result (with_first_sortIndex x)
        (cornerLoop cfg sp fuel (Z.of_nat fuel) c st).
Proof.
  induction fuel as [| fuel IH]; intros c st; [reflexivity |].
  cbn [cornerLoop].
  destruct (c <? maxCornerLessSharp cfg); [| reflexivity].
  assert (Hget : vec_get (_regionSortIndices (with_first_sortIndex x st))
                   (Z.of_nat (S fuel))
                 = vec_get (_regionSortIndices st) (Z.of_nat (S fuel))).
  { unfold vec_get. cbn [_regionSortIndices with_first_sortIndex].
    rewrite length_insert, list_lookup_insert_ne by lia. reflexivity. }
  rewrite Hget.
  destruct (vec_get (_regionSortIndices st) (Z.of_nat (S fuel)))
    as [scanIdx | e]; [| reflexivity].
  cbn [bind].
  change (candidate cfg true scanIdx (wrap64 (scanIdx - sp))
            (with_first_sortIndex x st))
    with (candidate cfg true scanIdx (wrap64 (scanIdx - sp)) st).
  destruct (candidate cfg true scanIdx (wrap64 (scanIdx - sp)) st)
    as [accept | e]; [| reflexivity].
  cbn [bind]. replace (Z.of_nat (S fuel) - 1) with (Z.of_nat fuel) by lia.
  destruct accept; [| apply IH].
  change (_regionLabel (with_first_sortIndex x st)) with (_regionLabel st).
  change (_laserCloud (with_first_sortIndex x st)) with (_laserCloud st).
  destruct (c + 1 <=? maxCornerSharp cfg).
  - destruct (vec_set (_regionLabel st) (wrap64 (scanIdx - sp)) CORNER_SHARP)
      as [lbl | e]; [| reflexivity].
    cbn [bind].
    destruct (vec_get (_laserCloud st) scanIdx) as [p | e]; [| reflexivity].
    cbn [bind]. rewrite <- IH. reflexivity.
  - destruct (int_mul (maxCornerSharp cfg) 10) as [m10 | e]; [| reflexivity].
    cbn [bind].
    destruct (c + 1 <=? m10); [| reflexivity].
    destruct (vec_set (_regionLabel st) (wrap64 (scanIdx - sp)) CORNER_LESS_SHARP)
      as [lbl | e]; [| reflexivity].
    cbn [bind].
    destruct (vec_get (_laserCloud st) scanIdx) as [p | e]; [| reflexivity].
    cbn [bind]. rewrite <- IH. reflexivity.
Qed.

(** *** Quotas *)

Lemma countLabel_insert (P : PointLabel -> bool) (v : list PointLabel)
    (i : nat) (x : PointLabel) :
  countLabel P (<[i := x]> v) <= countLabel P v + (if P x then 1 else 0).
Proof.
  unfold countLabel. revert i.
  induction v as [| a v IH]; intros i.
  - destruct i.
    + cbn. destruct (P x); lia.
    + cbn. destruct (P x); lia.
  - destruct i as [| i].
    + change (<[0%nat := x]> (a :: v)) with (x :: v). cbn [List.filter].
      clear IH. destruct (P x), (P a); cbn [length]; lia.
    + change (<[S i := x]> (a :: v)) with (a :: <[i := x]> v).
      cbn [List.filter]. specialize (IH i).
      destruct (P a), (P x); cbn [length]; lia.
Qed.

Lemma countLabel_default (P : PointLabel -> bool) (v : list PointLabel) :
  P SURFACE_LESS_FLAT = false ->
  Forall (fun l => l = SURFACE_LESS_FLAT) v -> countLabel P v = 0.
Proof.
  intros HP Hall. unfold countLabel.
  induction Hall as [| a v -> _ IH]; [reflexivity |].
  cbn [List.filter]. rewrite HP. exact IH.
Qed.

Lemma countLabel_corner (v : list PointLabel) :
  countLabel isSharp v + countLabel isLessSharp v
  = countLabel isCorner v.
Proof.
  unfold countLabel, isCorner, isSharp, isLessSharp.
  induction v as [| a v IH]; [reflexivity |].
  cbn [List.filter]. destruct a; cbn; cbn in IH; lia.
Qed.

(** A quantity [mu] that an accepted candidate raises by at most one, and
    only when its label satisfies [P], grows in a pass by at most [b c],
    where [b] bounds the accepted candidates with such a label once [c]
    candidates were accepted. *)
Lemma picking_bounded (sp quota : Z) (labelFor : Z -> PointLabel)
    (P : PointLabel -> bool) (mu : State -> Z) (b : Z -> Z) :
  (forall l lbl p scanIdx st i,
      0 <= i ->
      vec_set (_regionLabel st) i l = Ok lbl ->
      mu (accepted l lbl p scanIdx st) <= mu st + (if P l then 1 else 0)) ->
  (forall c, c < quota ->
             b (c + 1) + (if P (labelFor (c + 1)) then 1 else 0) <= b c) ->
  (forall c, 0 <= b c) ->
  forall c st st',
    picking sp quota labelFor c st st' -> mu st' <= mu st + b c.
Proof.
  intros Hstep Hb Hb0 c st st' Hrun.
  induction Hrun as [c st | c st st' scanIdx lbl p Hq Hpk Hlbl Hp Hrun IH].
  - specialize (Hb0 c). lia.
  - assert (Hi : 0 <= wrap64 (scanIdx - sp)).
    { unfold wrap64. apply Z.mod_pos_bound. lia. }
    specialize (Hstep _ _ p scanIdx _ _ Hi Hlbl). specialize (Hb c Hq). lia.
Qed.

Lemma accepted_labels (l : PointLabel) (lbl : list PointLabel)
    (p : PointXYZI F) (scanIdx : Z) (st : State) :
  _regionLabel (accepted l lbl p scanIdx st) = lbl.
Proof. destruct l; reflexivity. Qed.

Lemma accepted_cloudOf (X l : PointLabel) (lbl : list PointLabel)
    (p : PointXYZI F) (scanIdx : Z) (st : State) :
  cloudOf X (accepted l lbl p scanIdx st)
  = if PointLabel_eqb l X && negb (PointLabel_eqb X SURFACE_LESS_FLAT)
    then cloudOf X st ++ [p] else cloudOf X st.
Proof. destruct X, l; reflexivity. Qed.

Lemma count_step (P : PointLabel -> bool) :
  forall l lbl (p : PointXYZI F) scanIdx (st : State) i,
    0 <= i ->
    vec_set (_regionLabel st) i l = Ok lbl ->
    countLabel P (_regionLabel (accepted l lbl p scanIdx st))
    <= countLabel P (_regionLabel st) + (if P l then 1 else 0).
Proof.
  intros l lbl p scanIdx st i Hi Hset.
  rewrite accepted_labels. apply vec_set_Ok in Hset as [_ ->].
  apply countLabel_insert.
Qed.

Lemma pushes_step (X : PointLabel) :
  forall l lbl (p : PointXYZI F) scanIdx (st : State) i,
    0 <= i ->
    vec_set (_regionLabel st) i l = Ok lbl ->
    Z.of_nat (length (cloudOf X (accepted l lbl p scanIdx st)))
    <= Z.of_nat (length (cloudOf X st)) + (if PointLabel_eqb l X then 1 else 0).
Proof.
  intros l lbl p scanIdx st i _ _. rewrite accepted_cloudOf.
  destruct (PointLabel_eqb l X); cbn [andb].
  - destruct (negb (PointLabel_eqb X SURFACE_LESS_FLAT));
      [rewrite length_app; cbn [length] |]; lia.
  - lia.
Qed.

Lemma corner_pushes_step :
  forall l lbl (p : PointXYZI F) scanIdx (st : State) i,
    0 <= i ->
    vec_set (_regionLabel st) i l = Ok lbl ->
    Z.of_nat (length (_cornerPointsSharp (accepted l lbl p scanIdx st)))
    + Z.of_nat (length (_cornerPointsLessSharp (accepted l lbl p scanIdx st)))
    <= Z.of_nat (length (_cornerPointsSharp st))
       + Z.of_nat (length (_cornerPointsLessSharp st))
       + (if isCorner l then 1 else 0).
Proof.
  intros l lbl p scanIdx st i _ _.
  destruct l; cbn; rewrite ?length_app; cbn [length]; lia.
Qed.

(** The bounds [b] of [picking_bounded] for the two passes. *)
Lemma corner_bound_sharp (cfg : RegistrationParams F) (c : Z) :
  c < maxCornerLessSharp cfg ->
  Z.max 0 (maxCornerSharp cfg - (c + 1))
  + (if isSharp (cornerLabel cfg (c + 1)) then 1 else 0)
  <= Z.max 0 (maxCornerSharp cfg - c).
Proof.
  intros _. unfold cornerLabel.
  destruct (Z.leb_spec (c + 1) (maxCornerSharp cfg)); cbn; lia.
Qed.

Lemma corner_bound_corner (cfg : RegistrationParams F) (c : Z) :
  c < maxCornerLessSharp cfg ->
  Z.max 0 (maxCornerLessSharp cfg - (c + 1))
  + (if isCorner (cornerLabel cfg (c + 1)) then 1 else 0)
  <= Z.max 0 (maxCornerLessSharp cfg - c).
Proof.
  intros Hc. unfold cornerLabel.
  destruct (Z.leb_spec (c + 1) (maxCornerSharp cfg)); cbn; lia.
Qed.

Lemma corner_bound_flat (cfg : RegistrationParams F) (c : Z) :
  c < maxCornerLessSharp cfg ->
  0 + (if isFlat (cornerLabel cfg (c + 1)) then 1 else 0) <= 0.
Proof.
  intros _. unfold cornerLabel.
  destruct (Z.leb_spec (c + 1) (maxCornerSharp cfg)); cbn; lia.
Qed.

Lemma flat_bound_flat (cfg : RegistrationParams F) (c : Z) :
  c < maxSurfaceFlat cfg ->
  Z.max 0 (maxSurfaceFlat cfg - (c + 1))
  + (if isFlat (flatLabel (c + 1)) then 1 else 0)
  <= Z.max 0 (maxSurfaceFlat cfg - c).
Proof. intros Hc. cbn. lia. Qed.


Lemma extractRegion_Ok (cfg : RegistrationParams F) (sp ep : Z)
    (st st' : State) (less less' : Cloud) :
  extractRegion cfg sp ep st less = Ok (st', less') ->
  exists st2,
    picking sp (maxCornerLessSharp cfg) (cornerLabel cfg) 0
      (call_setRegionBuffersFor sp (wrap64 (ep - 1)) st) st2 /\
    picking sp (maxSurfaceFlat cfg) flatLabel 0 st2 st' /\
    lessFlatLoop sp (Z.to_nat (wrap64 (ep - sp))) 0 st' less = Ok less'.
Proof.
  unfold extractRegion. intros Hrun.
  apply bind_Ok in Hrun as (st2 & Hcorner & Hrun).
  apply bind_Ok in Hrun as (st3 & Hflat & Hrun).
  apply bind_Ok in Hrun as (l & Hless & Hrun).
  inversion Hrun; subst st3 l.
  exists st2. split; [| split].
  - eapply cornerLoop_picking. exact Hcorner.
  - eapply flatLoop_picking. exact Hflat.
  - exact Hless.
Qed.

(** A quantity as in [picking_bounded] grows in a region by at most the
    bounds of its two passes. *)
Lemma region_bounded (cfg : RegistrationParams F) (sp ep : Z)
    (P : PointLabel -> bool) (mu : State -> Z) (bc bf : Z -> Z)
    (st st' : State) (less less' : Cloud) :
  (forall l lbl p scanIdx st i,
      0 <= i ->
      vec_set (_regionLabel st) i l = Ok lbl ->
      mu (accepted l lbl p scanIdx st) <= mu st + (if P l then 1 else 0)) ->
  (forall c, c < maxCornerLessSharp cfg ->
             bc (c + 1) + (if P (cornerLabel cfg (c + 1)) then 1 else 0) <= bc c) ->
  (forall c, 0 <= bc c) ->
  (forall c, c < maxSurfaceFlat cfg ->
             bf (c + 1) + (if P (flatLabel (c + 1)) then 1 else 0) <= bf c) ->
  (forall c, 0 <= bf c) ->
  extractRegion cfg sp ep st less = Ok (st', less') ->
  mu st' <= mu (call_setRegionBuffersFor sp (wrap64 (ep - 1)) st) + bc 0 + bf 0.
Proof.
  intros Hstep Hbc Hbc0 Hbf Hbf0 Hrun.
  apply extractRegion_Ok in Hrun as (st2 & Hcorner & Hflat & _).
  pose proof (picking_bounded _ _ _ P mu bc Hstep Hbc Hbc0 _ _ _ Hcorner).
  pose proof (picking_bounded _ _ _ P mu bf Hstep Hbf Hbf0 _ _ _ Hflat).
  lia.
Qed.

(** C5: in every region the corner pass labels at most [maxCornerSharp]
    points CORNER_SHARP and at most [maxCornerLessSharp] points CORNER_SHARP
    or CORNER_LESS_SHARP, and the surface pass labels at most
    [maxSurfaceFlat] points SURFACE_FLAT; the same bounds hold for the
    points the region adds to the three feature clouds.  The quotas are
    counts, hence not negative, and the provider hands out the label vector
    with every entry at the default label. *)
Theorem region_quotas (cfg : RegistrationParams F) (sp ep : Z)
    (st st' : State) (less less' : Cloud) :
  0 <= maxCornerSharp cfg ->
  0 <= maxCornerLessSharp cfg ->
  0 <= maxSurfaceFlat cfg ->
  Forall (fun l => l = SURFACE_LESS_FLAT)
    (rb_label (setRegionBuffersFor (_laserCloud st) sp (wrap64 (ep - 1)))) ->
  extractRegion cfg sp ep st less = Ok (st', less') ->
  (countLabel isSharp (_regionLabel st') <= maxCornerSharp cfg /\
   countLabel isSharp (_regionLabel st') + countLabel isLessSharp (_regionLabel st')
   <= maxCornerLessSharp cfg /\
   countLabel isFlat (_regionLabel st') <= maxSurfaceFlat cfg) /\
  (Z.of_nat (length (_cornerPointsSharp st'))
   <= Z.of_nat (length (_cornerPointsSharp st)) + maxCornerSharp cfg /\
   Z.of_nat (length (_cornerPointsSharp st'))
   + Z.of_nat (length (_cornerPointsLessSharp st'))
   <= Z.of_nat (length (_cornerPointsSharp st))
      + Z.of_nat (length (_cornerPointsLessSharp st)) + maxCornerLessSharp cfg /\
   Z.of_nat (length (_surfacePointsFlat st'))
   <= Z.of_nat (length (_surfacePointsFlat st)) + maxSurfaceFlat cfg).
Proof.
  intros Hcs Hcls Hsf Hdefault Hrun.
  set (st1 := call_setRegionBuffersFor sp (wrap64 (ep - 1)) st).
  assert (Hlab : _regionLabel st1
                 = rb_label (setRegionBuffersFor (_laserCloud st) sp (wrap64 (ep - 1))))
    by reflexivity.
  assert (Hsharp :
    countLabel isSharp (_regionLabel st')
    <= countLabel isSharp (_regionLabel st1) + Z.max 0 (maxCornerSharp cfg - 0) + 0).
  { apply (region_bounded cfg sp ep isSharp
             (fun s => countLabel isSharp (_regionLabel s))
             (fun c => Z.max 0 (maxCornerSharp cfg - c)) (fun _ => 0)
             st st' less less'); try exact Hrun.
    - apply count_step.
    - apply corner_bound_sharp.
    - intros; lia.
    - intros; cbn; lia.
    - intros; lia. }
  assert (Hcorner :
    countLabel isCorner (_regionLabel st')
    <= countLabel isCorner (_regionLabel st1)
       + Z.max 0 (maxCornerLessSharp cfg - 0) + 0).
  { apply (region_bounded cfg sp ep isCorner
             (fun s => countLabel isCorner (_regionLabel s))
             (fun c => Z.max 0 (maxCornerLessSharp cfg - c)) (fun _ => 0)
             st st' less less'); try exact Hrun.
    - apply count_step.
    - apply corner_bound_corner.
    - intros; lia.
    - intros; cbn; lia.
    - intros; lia. }
  assert (Hflat :
    countLabel isFlat (_regionLabel st')
    <= countLabel isFlat (_regionLabel st1) + 0
       + Z.max 0 (maxSurfaceFlat cfg - 0)).
  { apply (region_bounded cfg sp ep isFlat
             (fun s => countLabel isFlat (_regionLabel s))
             (fun _ => 0) (fun c => Z.max 0 (maxSurfaceFlat cfg - c))
             st st' less less'); try exact Hrun.
    - apply count_step.
    - apply corner_bound_flat.
    - intros; lia.
    - apply flat_bound_flat.
    - intros; lia. }
  assert (Hpsharp :
    Z.of_nat (length (_cornerPointsSharp st'))
    <= Z.of_nat (length (_cornerPointsSharp st1))
       + Z.max 0 (maxCornerSharp cfg - 0) + 0).
  { apply (region_bounded cfg sp ep isSharp
             (fun s => Z.of_nat (length (cloudOf CORNER_SHARP s)))
             (fun c => Z.max 0 (maxCornerSharp cfg - c)) (fun _ => 0)
             st st' less less'); try exact Hrun.
    - apply pushes_step.
    - apply corner_bound_sharp.
    - intros; lia.
    - intros; cbn; lia.
    - intros; lia. }
  assert (Hpcorner :
    Z.of_nat (length (_cornerPointsSharp st'))
    + Z.of_nat (length (_cornerPointsLessSharp st'))
    <= Z.of_nat (length (_cornerPointsSharp st1))
       + Z.of_nat (length (_cornerPointsLessSharp st1))
       + Z.max 0 (maxCornerLessSharp cfg - 0) + 0).
  { apply (region_bounded cfg sp ep isCorner
             (fun s => Z.of_nat (length (_cornerPointsSharp s))
                       + Z.of_nat (length (_cornerPointsLessSharp s)))
             (fun c => Z.max 0 (maxCornerLessSharp cfg - c)) (fun _ => 0)
             st st' less less'); try exact Hrun.
    - apply corner_pushes_step.
    - apply corner_bound_corner.
    - intros; lia.
    - intros; cbn; lia.
    - intros; lia. }
  assert (Hpflat :
    Z.of_nat (length (_surfacePointsFlat st'))
    <= Z.of_nat (length (_surfacePointsFlat st1)) + 0
       + Z.max 0 (maxSurfaceFlat cfg - 0)).
  { apply (region_bounded cfg sp ep isFlat
             (fun s => Z.of_nat (length (cloudOf SURFACE_FLAT s)))
             (fun _ => 0) (fun c => Z.max 0 (maxSurfaceFlat cfg - c))
             st st' less less'); try exact Hrun.
    - apply pushes_step.
    - apply corner_bound_flat.
    - intros; lia.
    - apply flat_bound_flat.
    - intros; lia. }
  assert (Hz : forall P, P SURFACE_LESS_FLAT = false ->
                         countLabel P (_regionLabel st1) = 0).
  { intros P HP. rewrite Hlab. apply countLabel_default; assumption. }
  rewrite (Hz isSharp) in Hsharp by reflexivity.
  rewrite (Hz isCorner) in Hcorner by reflexivity.
  rewrite (Hz isFlat) in Hflat by reflexivity.
  rewrite countLabel_corner.
  change (_cornerPointsSharp st1) with (_cornerPointsSharp st) in *.
  change (_cornerPointsLessSharp st1) with (_cornerPointsLessSharp st) in *.
  change (_surfacePointsFlat st1) with (_surfacePointsFlat st) in *.
  repeat split; lia.
Qed.


(** *** The accepted candidates *)

Lemma idxOf_app (X : PointLabel) (log log' : list (PointLabel * Z)) :
  idxOf X (log ++ log') = idxOf X log ++ idxOf X log'.
Proof. unfold idxOf. rewrite List.filter_app, map_app. reflexivity. Qed.

Lemma idxOf_elem (X : PointLabel) (log : list (PointLabel * Z)) (i : Z) :
  i ∈ idxOf X log <-> (X, i) ∈ log.
Proof.
  unfold idxOf. rewrite list_elem_of_fmap. split.
  - intros ([Y k] & -> & Hin). apply list_elem_of_In in Hin.
    apply List.filter_In in Hin as [Hin HY]. cbn in HY |- *.
    assert (Y = X) as -> by (destruct Y, X; cbn in HY; congruence).
    apply list_elem_of_In. exact Hin.
  - intros Hin. exists (X, i). split; [reflexivity |].
    apply list_elem_of_In. apply List.filter_In. split.
    + apply list_elem_of_In. exact Hin.
    + cbn. destruct X; reflexivity.
Qed.

Lemma idxOf_sublist (X : PointLabel) (log : list (PointLabel * Z)) :
  sublist (idxOf X log) (map snd log).
Proof.
  unfold idxOf. induction log as [| e log IH]; [constructor |].
  cbn [List.filter]. destruct (PointLabel_eqb (fst e) X); cbn [map].
  - apply sublist_skip. exact IH.
  - apply sublist_cons. exact IH.
Qed.

Lemma accepted_sameSweepState (l : PointLabel) (lbl : list PointLabel)
    (p : PointXYZI F) (scanIdx : Z) (st0 st : State) :
  sameSweepState st0 st -> sameSweepState st0 (accepted l lbl p scanIdx st).
Proof. unfold sameSweepState. destruct l; cbn; tauto. Qed.

Lemma accepted_picked (l : PointLabel) (lbl : list PointLabel)
    (p : PointXYZI F) (scanIdx : Z) (st : State) :
  _scanNeighborPicked (accepted l lbl p scanIdx st)
  = markAsPicked (_laserCloud st) (_scanNeighborPicked st) scanIdx scanIdx.
Proof. destruct l; reflexivity. Qed.

Section Suppression.
(** The contract of [markAsPicked]: the index it is called for is marked
    afterwards, and no mark is taken back. *)
Hypothesis markAsPicked_marks :
  forall (cloud : Cloud) (picked : list Z) (i v : Z),
    vec_get picked i = Ok v -> marked (markAsPicked cloud picked i i) i.
Hypothesis markAsPicked_keeps :
  forall (cloud : Cloud) (picked : list Z) (i k : Z),
    marked picked k -> marked (markAsPicked cloud picked i i) k.

Lemma accepted_picksInv (st0 st : State) (log : list (PointLabel * Z))
    (l : PointLabel) (lbl : list PointLabel) (p : PointXYZI F) (scanIdx : Z) :
  l <> SURFACE_LESS_FLAT ->
  vec_get (_scanNeighborPicked st) scanIdx = Ok 0 ->
  vec_get (_laserCloud st) scanIdx = Ok p ->
  picksInv st0 st log ->
  (scanIdx ∉ map snd log) /\
  picksInv st0 (accepted l lbl p scanIdx st) (log ++ [(l, scanIdx)]).
Proof.
  intros Hl Hpk Hp (Hsame & Hclouds & Hnodup & Hmarked).
  assert (Hfresh : scanIdx ∉ map snd log).
  { intros Hin. apply list_elem_of_fmap in Hin as (e & He & Hin).
    destruct (Hmarked e Hin) as (_ & v & Hv & Hne).
    rewrite <- He in Hv. rewrite Hpk in Hv. inversion Hv. congruence. }
  split; [exact Hfresh |].
  split; [apply accepted_sameSweepState; exact Hsame |].
  split; [| split].
  - intros X HX. destruct (Hclouds X HX) as (pts & Hcl & Hat).
    rewrite accepted_cloudOf, idxOf_app.
    destruct Hsame as (_ & _ & _ & _ & Hcloud & _).
    unfold idxOf at 2. cbn [List.filter fst].
    destruct (PointLabel_eqb l X) eqn:HlX; cbn [andb map snd].
    + assert (negb (PointLabel_eqb X SURFACE_LESS_FLAT) = true) as ->
        by (destruct X; cbn; congruence).
      exists (pts ++ [p]). rewrite Hcl, app_assoc. split; [reflexivity |].
      apply Forall2_app; [exact Hat |].
      constructor; [| constructor]. rewrite <- Hcloud. exact Hp.
    + exists pts. rewrite app_nil_r. split; assumption.
  - rewrite map_app. cbn [map snd]. apply NoDup_app. split; [exact Hnodup |].
    split; [| apply NoDup_singleton].
    intros x Hx Hx'. apply list_elem_of_singleton in Hx'. subst x. auto.
  - intros e He. rewrite accepted_picked.
    apply elem_of_app in He as [He | He].
    + destruct (Hmarked e He) as [Hne Hm]. split; [exact Hne |].
      apply markAsPicked_keeps. exact Hm.
    + apply list_elem_of_singleton in He. subst e. cbn [fst snd].
      split; [exact Hl |]. eapply markAsPicked_marks. exact Hpk.
Qed.

Lemma accepted_labelsInv (sp : Z) (st : State) (log : list (PointLabel * Z))
    (l : PointLabel) (lbl : list PointLabel) (p : PointXYZI F) (scanIdx : Z) :
  scanIdx ∉ map snd log ->
  sp <= scanIdx ->
  vec_set (_regionLabel st) (scanIdx - sp) l = Ok lbl ->
  labelsInv sp st log ->
  labelsInv sp (accepted l lbl p scanIdx st) (log ++ [(l, scanIdx)]).
Proof.
  intros Hfresh Hsp Hset Hinv e He. rewrite accepted_labels.
  apply vec_set_Ok in Hset as [Hrange ->].
  apply elem_of_app in He as [He | He].
  - destruct (Hinv e He) as [Hle Hget]. split; [exact Hle |].
    apply vec_get_Ok in Hget as [H0 Hget]. apply vec_get_Ok. split; [exact H0 |].
    rewrite list_lookup_insert_ne; [exact Hget |].
    intros Heq. apply Hfresh. apply list_elem_of_fmap. exists e.
    split; [lia | exact He].
  - apply list_elem_of_singleton in He. subst e. cbn [fst snd].
    split; [exact Hsp |]. apply vec_get_Ok. split; [lia |].
    apply list_lookup_insert_eq. lia.
Qed.

(** A pass keeps both invariants; [glog] are the candidates accepted before
    the region, [rlog] those accepted in it. *)
Lemma picking_inv (sp quota : Z) (labelFor : Z -> PointLabel)
    (st0 : State) (glog : list (PointLabel * Z)) :
  (forall c, labelFor c <> SURFACE_LESS_FLAT) ->
  0 <= sp ->
  Z.of_nat (length (_laserCloud st0)) <= 2 ^ 64 ->
  forall c st st',
    picking sp quota labelFor c st st' ->
    forall rlog,
      sp + Z.of_nat (length (_regionLabel st)) <= 2 ^ 64 ->
      picksInv st0 st (glog ++ rlog) ->
      labelsInv sp st rlog ->
      exists rlog',
        picksInv st0 st' (glog ++ rlog') /\ labelsInv sp st' rlog' /\
        length (_regionLabel st') = length (_regionLabel st).
Proof.
  intros Hlf Hsp Hcloud c st st' Hrun.
  induction Hrun as [c st | c st st' scanIdx lbl p Hq Hpk Hlbl Hp Hrun IH];
    intros rlog Hlen Hpicks Hlabels.
  - exists rlog. auto.
  - assert (Hidx : 0 <= scanIdx < 2 ^ 64).
    { apply vec_get_range in Hp.
      destruct Hpicks as ((_ & _ & _ & _ & Hcl & _) & _). rewrite Hcl in Hp. lia. }
    assert (Hge : sp <= scanIdx).
    { apply vec_set_Ok in Hlbl as [Hrange _].
      destruct (Z_lt_le_dec scanIdx sp) as [Hlt | Hle]; [| exact Hle].
      exfalso. rewrite wrap64_neg in Hrange by lia. lia. }
    rewrite wrap64_small in Hlbl by lia.
    destruct (accepted_picksInv st0 st (glog ++ rlog) (labelFor (c + 1)) lbl p
                scanIdx (Hlf _) Hpk Hp Hpicks) as [Hfresh Hpicks'].
    rewrite <- app_assoc in Hpicks'.
    assert (Hfresh' : scanIdx ∉ map snd rlog).
    { intros Hin. apply Hfresh. rewrite map_app. apply elem_of_app. auto. }
    pose proof (accepted_labelsInv sp st rlog _ lbl p scanIdx Hfresh' Hge Hlbl
                  Hlabels) as Hlabels'.
    assert (Hlen' : length (_regionLabel (accepted (labelFor (c + 1)) lbl p scanIdx st))
                    = length (_regionLabel st)).
    { rewrite accepted_labels. apply vec_set_Ok in Hlbl as [_ ->].
      apply length_insert. }
    destruct (IH _ ltac:(rewrite Hlen'; exact Hlen) Hpicks' Hlabels')
      as (rlog' & H1 & H2 & H3).
    exists rlog'. split; [exact H1 |]. split; [exact H2 |]. congruence.
Qed.

End Suppression.

End PassesFacts.

(** ** What [extractFeatures] leaves alone *)

Section Frame.
Context {F Time IMU : Type} {FO : FloatOps F} {EXT : Collaborators F Time IMU}.

Abbreviation State := (ScanRegistration F Time IMU).
Abbreviation Cloud := (list (PointXYZI F)).

Lemma grownFrom_refl (st : State) : grownFrom st st.
Proof.
  split; [unfold sameSweepState; tauto |].
  intros X. exists []. rewrite app_nil_r. split; [reflexivity |].
  intros p Hp. inversion Hp.
Qed.

Lemma grownFrom_trans (st1 st2 st3 : State) :
  grownFrom st1 st2 -> grownFrom st2 st3 -> grownFrom st1 st3.
Proof.
  intros [Hs12 Hc12] [Hs23 Hc23]. split.
  - unfold sameSweepState in *. intuition congruence.
  - intros X. destruct (Hc12 X) as (pts & He & Hin).
    destruct (Hc23 X) as (pts' & He' & Hin').
    exists (pts ++ pts'). rewrite He', He, app_assoc. split; [reflexivity |].
    intros p Hp. apply elem_of_app in Hp as [Hp | Hp]; [auto |].
    destruct Hs12 as (_ & _ & _ & _ & Hcl & _). rewrite <- Hcl. auto.
Qed.

Lemma grownFrom_accepted (l : PointLabel) (lbl : list PointLabel)
    (p : PointXYZI F) (scanIdx : Z) (st : State) :
  vec_get (_laserCloud st) scanIdx = Ok p ->
  grownFrom st (accepted l lbl p scanIdx st).
Proof.
  intros Hp. split.
  - apply accepted_sameSweepState. unfold sameSweepState. tauto.
  - intros X. rewrite accepted_cloudOf.
    destruct (PointLabel_eqb l X && negb (PointLabel_eqb X SURFACE_LESS_FLAT)).
    + exists [p]. split; [reflexivity |].
      intros q Hq. apply list_elem_of_singleton in Hq. subst q.
      eapply vec_get_elem_of. exact Hp.
    + exists []. rewrite app_nil_r. split; [reflexivity |].
      intros q Hq. inversion Hq.
Qed.

Lemma picking_grownFrom (sp quota : Z) (labelFor : Z -> PointLabel)
    (c : Z) (st st' : State) :
  picking sp quota labelFor c st st' -> grownFrom st st'.
Proof.
  intros Hrun.
  induction Hrun as [c st | c st st' scanIdx lbl p Hq Hpk Hlbl Hp Hrun IH].
  - apply grownFrom_refl.
  - eapply grownFrom_trans; [| exact IH].
    apply grownFrom_accepted. exact Hp.
Qed.

Lemma grownFrom_setRegionBuffers (s e : Z) (st : State) :
  grownFrom st (call_setRegionBuffersFor s e st).
Proof.
  split; [unfold sameSweepState; cbn; tauto |].
  intros X. exists []. rewrite app_nil_r.
  split; [destruct X; reflexivity |]. intros p Hp. inversion Hp.
Qed.

Lemma grownFrom_setScanBuffers (s e : Z) (st : State) :
  grownFrom st (call_setScanBuffersFor s e st).
Proof.
  split; [unfold sameSweepState; cbn; tauto |].
  intros X. exists []. rewrite app_nil_r.
  split; [destruct X; reflexivity |]. intros p Hp. inversion Hp.
Qed.

(** The loop of lines 246-250 pushes the points at [lessFlatIdx]. *)
Lemma lessFlatLoop_atIndices (sp : Z) (fuel : nat) :
  forall (j : Z) (st : State) (less less' : Cloud),
    lessFlatLoop sp fuel j st less = Ok less' ->
    exists pts,
      less' = less ++ pts /\
      atIndices (_laserCloud st) (lessFlatIdx (_regionLabel st) sp fuel j) pts.
Proof.
  induction fuel as [| fuel IH]; intros j st less less' Hrun; cbn in Hrun.
  - inversion Hrun. exists []. rewrite app_nil_r. split; [reflexivity | constructor].
  - apply bind_Ok in Hrun as (l & Hl & Hrun).
    cbn [lessFlatIdx]. rewrite Hl.
    change (label_value SURFACE_LESS_FLAT) with 0.
    destruct (label_value l <=? 0).
    + apply bind_Ok in Hrun as (p & Hp & Hrun).
      apply IH in Hrun as (pts & -> & Hat).
      exists (p :: pts). rewrite <- app_assoc. split; [reflexivity |].
      constructor; assumption.
    + apply IH in Hrun. exact Hrun.
Qed.

Lemma atIndices_elem_of (cloud : Cloud) (idx : list Z) (pts : Cloud) :
  atIndices cloud idx pts -> forall p, p ∈ pts -> p ∈ cloud.
Proof.
  intros Hat. induction Hat as [| i p idx pts Hp _ IH]; intros q Hq.
  - inversion Hq.
  - apply elem_of_cons in Hq as [-> | Hq]; [| auto].
    eapply vec_get_elem_of. exact Hp.
Qed.

(** A region leaves the sweep state alone and adds points of the scan. *)
Lemma extractRegion_grownFrom (cfg : RegistrationParams F) (sp ep : Z)
    (st st' : State) (less less' : Cloud) :
  extractRegion cfg sp ep st less = Ok (st', less') ->
  grownFrom st st' /\
  exists pts, less' = less ++ pts /\ forall p, p ∈ pts -> p ∈ _laserCloud st.
Proof.
  intros Hrun. apply extractRegion_Ok in Hrun as (st2 & Hcorner & Hflat & Hless).
  assert (Hg : grownFrom st st').
  { eapply grownFrom_trans; [apply grownFrom_setRegionBuffers |].
    eapply grownFrom_trans; eapply picking_grownFrom; eassumption. }
  split; [exact Hg |].
  apply lessFlatLoop_atIndices in Hless as (pts & -> & Hat).
  exists pts. split; [reflexivity |].
  destruct Hg as [(_ & _ & _ & _ & Hcl & _) _]. rewrite <- Hcl.
  eapply atIndices_elem_of. exact Hat.
Qed.

Lemma regionsLoop_grownFrom (cfg : RegistrationParams F) (ss es : list Z)
    (fuel : nat) :
  forall (i : Z) (st st' : State) (less less' : Cloud),
    regionsLoop cfg ss es fuel i st less = Ok (st', less') ->
    grownFrom st st' /\
    exists pts, less' = less ++ pts /\ forall p, p ∈ pts -> p ∈ _laserCloud st.
Proof.
  induction fuel as [| fuel IH]; intros i st st' less less' Hrun; cbn in Hrun.
  - inversion Hrun. split; [apply grownFrom_refl |].
    exists []. rewrite app_nil_r. split; [reflexivity |]. intros p Hp. inversion Hp.
  - apply bind_Ok in Hrun as (sp & Hsp & Hrun).
    apply bind_Ok in Hrun as (ep & Hep & Hrun).
    apply bind_Ok in Hrun as ([st1 less1] & Hregion & Hrun).
    cbn [fst snd] in Hrun.
    apply extractRegion_grownFrom in Hregion as (Hg1 & pts1 & -> & Hin1).
    apply IH in Hrun as (Hg2 & pts2 & -> & Hin2).
    split; [eapply grownFrom_trans; eassumption |].
    exists (pts1 ++ pts2). rewrite app_assoc. split; [reflexivity |].
    intros p Hp. apply elem_of_app in Hp as [Hp | Hp]; [auto |].
    destruct Hg1 as [(_ & _ & _ & _ & Hcl & _) _]. rewrite <- Hcl. auto.
Qed.

Lemma extractRegions_grownFrom (cfg : RegistrationParams F)
    (st st' : State) (less : Cloud) :
  extractRegions cfg st = Ok (st', less) ->
  grownFrom st st' /\ forall p, p ∈ less -> p ∈ _laserCloud st.
Proof.
  unfold extractRegions. intros Hrun.
  apply bind_Ok in Hrun as (ss & Hss & Hrun).
  apply bind_Ok in Hrun as (es & Hes & Hrun).
  apply regionsLoop_grownFrom in Hrun as (Hg & pts & Hless & Hin).
  split.
  - eapply grownFrom_trans; [apply grownFrom_setScanBuffers | exact Hg].
  - intros p Hp. rewrite Hless in Hp. cbn in Hp. apply Hin in Hp. exact Hp.
Qed.

(** [extractFeatures] appends the down-sized less flat cloud of the scan to
    the accumulator and leaves the remaining sweep state alone. *)
Lemma extractFeatures_Ok (cfg : RegistrationParams F) (st st' : State) :
  extractFeatures cfg st = Ok st' ->
  exists st1 less,
    extractRegions cfg st = Ok (st1, less) /\
    (forall p, p ∈ less -> p ∈ _laserCloud st) /\
    _surfacePointsLessFlat st'
    = _surfacePointsLessFlat st ++ voxelGridFilter (lessFlatFilterSize cfg) less /\
    _laserRotDir st' = _laserRotDir st /\ _sweepStart st' = _sweepStart st /\
    _laserCloud st' = _laserCloud st /\
    forall X, exists pts,
        cloudOf X st' = cloudOf X st ++ pts /\
        forall p, p ∈ pts -> p ∈ _laserCloud st.
Proof.
  unfold extractFeatures. intros Hrun.
  apply bind_Ok in Hrun as ([st1 less] & Hregions & Hrun).
  cbn [fst snd] in Hrun. inversion Hrun as [Hst']. clear Hrun.
  exists st1, less. split; [exact Hregions |].
  apply extractRegions_grownFrom in Hregions as ([Hs Hc] & Hless).
  destruct Hs as (Hrot & Hstart & _ & _ & Hcl & Hlf).
  split; [exact Hless |]. cbn.
  split; [rewrite Hlf; reflexivity |].
  split; [exact Hrot |]. split; [exact Hstart |]. split; [exact Hcl |].
  intros X. destruct (Hc X) as (pts & He & Hin). exists pts.
  split; [| exact Hin]. rewrite <- He. destruct X; reflexivity.
Qed.


(** *** The sweep state across [process] *)

Lemma detectSweep_Ok (cfg : RegistrationParams F) (st stR : State)
    (laserCloudIn : list (PointXYZ F)) (scanTime : Time) (newSweep : bool) :
  detectSweep cfg st laserCloudIn scanTime = Ok (stR, newSweep) ->
  exists first last,
    sweepPoints laserCloudIn = Ok (first, last) /\
    newSweep
    = flt (fmul (laserAngle first last) (f_of_int (_laserRotDir st))) (f_of_int 0)
      && flt (scanPeriod cfg) (fsub (toSec scanTime) (toSec (_sweepStart st))) /\
    stR = reset scanTime newSweep
            (if newSweep then set_laserRotDir (_laserRotDir st * -1) st else st).
Proof.
  unfold detectSweep. intros Hrun.
  apply bind_Ok in Hrun as ([first last] & Hfl & Hrun). cbn [fst snd] in Hrun.
  exists first, last. split; [exact Hfl |].
  unfold signDisagrees, periodElapsed in Hrun.
  destruct (flt (fmul (laserAngle first last) (f_of_int (_laserRotDir st)))
              (f_of_int 0)
            && flt (scanPeriod cfg) (fsub (toSec scanTime) (toSec (_sweepStart st))));
    inversion Hrun; split; reflexivity.
Qed.

Lemma ingestBatch_Ok (laserCloudIn : list (PointXYZ F)) (point : PointXYZI F)
    (imu : IMU) (scan : IMU * Cloud) :
  ingestBatch laserCloudIn point imu = Ok scan ->
  Z.of_nat (length laserCloudIn) <= INT_MAX /\
  scan = ingest laserCloudIn point imu [].
Proof.
  unfold ingestBatch.
  destruct (Z.leb_spec (Z.of_nat (length laserCloudIn)) INT_MAX) as [Hle | Hgt];
    intros H; inversion H. split; [exact Hle | reflexivity].
Qed.

Lemma ingestBatch_counted (laserCloudIn : list (PointXYZ F)) (point : PointXYZI F)
    (imu : IMU) :
  Z.of_nat (length laserCloudIn) <= INT_MAX ->
  ingestBatch laserCloudIn point imu = Ok (ingest laserCloudIn point imu []).
Proof.
  intros Hle. unfold ingestBatch.
  destruct (Z.leb_spec (Z.of_nat (length laserCloudIn)) INT_MAX); [reflexivity | lia].
Qed.

Lemma process_Ok (cfg : RegistrationParams F) (st st' : State)
    (laserCloudIn : list (PointXYZ F)) (scanTime : Time) (pub : Published F) :
  process cfg st laserCloudIn scanTime = Ok (st', pub) ->
  exists stR newSweep,
    detectSweep cfg st laserCloudIn scanTime = Ok (stR, newSweep) /\
    let scan := ingest laserCloudIn defaultPoint (_imu stR) [] in
    extractFeatures cfg (set_laserCloud (fst scan) (snd scan) stR) = Ok st' /\
    pub = publishResult st'.
Proof.
  unfold process. intros Hrun.
  apply bind_Ok in Hrun as ([stR newSweep] & Hsweep & Hrun). cbn [fst] in Hrun.
  apply bind_Ok in Hrun as (scan & Hscan & Hrun).
  apply ingestBatch_Ok in Hscan as [_ ->].
  apply bind_Ok in Hrun as (st1 & Hfeat & Hrun). inversion Hrun. subst.
  exists stR, newSweep. split; [exact Hsweep |]. split; [exact Hfeat | reflexivity].
Qed.

(** A batch that [process] handles to the end has no more points than the
    counter of the loop can count. *)
Lemma process_Ok_counted (cfg : RegistrationParams F) (st st' : State)
    (laserCloudIn : list (PointXYZ F)) (scanTime : Time) (pub : Published F) :
  process cfg st laserCloudIn scanTime = Ok (st', pub) ->
  Z.of_nat (length laserCloudIn) <= INT_MAX.
Proof.
  unfold process. intros Hrun.
  apply bind_Ok in Hrun as (sw & _ & Hrun).
  apply bind_Ok in Hrun as (scan & Hscan & _).
  apply ingestBatch_Ok in Hscan as [Hlen _]. exact Hlen.
Qed.

(** C4: [process] declares a new sweep exactly when the product of the
    bearing angle and the rotation direction is negative and the time since
    the sweep start exceeds the scan period.  Then the rotation direction is
    flipped, the sweep start becomes the scan time and the less flat
    accumulator restarts from the down-sized cloud of this scan; otherwise,
    and so whenever the elapsed time does not exceed the scan period, the
    direction and the sweep start stay and the accumulator is extended. *)
Theorem sweep_declared_iff (cfg : RegistrationParams F) (st st' : State)
    (laserCloudIn : list (PointXYZ F)) (scanTime : Time) (pub : Published F) :
  process cfg st laserCloudIn scanTime = Ok (st', pub) ->
  exists first last stR st1 less,
    sweepPoints laserCloudIn = Ok (first, last) /\
    let disagrees :=
      flt (fmul (laserAngle first last) (f_of_int (_laserRotDir st))) (f_of_int 0) in
    let elapsed :=
      flt (scanPeriod cfg) (fsub (toSec scanTime) (toSec (_sweepStart st))) in
    let scan := ingest laserCloudIn defaultPoint (_imu stR) [] in
    detectSweep cfg st laserCloudIn scanTime = Ok (stR, disagrees && elapsed) /\
    extractRegions cfg (set_laserCloud (fst scan) (snd scan) stR) = Ok (st1, less) /\
    (disagrees = true /\ elapsed = true ->
     _laserRotDir st' = - _laserRotDir st /\
     _sweepStart st' = scanTime /\
     _surfacePointsLessFlat stR = [] /\
     _surfacePointsLessFlat st' = voxelGridFilter (lessFlatFilterSize cfg) less) /\
    (disagrees = false \/ elapsed = false ->
     _laserRotDir st' = _laserRotDir st /\
     _sweepStart st' = _sweepStart st /\
     _surfacePointsLessFlat st'
     = _surfacePointsLessFlat st ++ voxelGridFilter (lessFlatFilterSize cfg) less).
Proof.
  intros Hrun.
  apply process_Ok in Hrun as (stR & newSweep & Hsweep & Hfeat & _).
  cbv zeta in Hfeat.
  pose proof Hsweep as Hsw.
  apply detectSweep_Ok in Hsw as (first & last & Hfl & Hnew & HstR).
  apply extractFeatures_Ok in Hfeat
    as (st1 & less & Hregions & _ & Hacc & Hrot & Hstart & _).
  exists first, last, stR, st1, less. split; [exact Hfl |].
  cbv zeta. rewrite <- Hnew. split; [exact Hsweep |]. split; [exact Hregions |].
  cbn [_surfacePointsLessFlat _laserRotDir _sweepStart set_laserCloud]
    in Hacc, Hrot, Hstart.
  rewrite Hacc, Hrot, Hstart, HstR. split.
  - intros [Hd He]. rewrite Hd, He in Hnew. cbn in Hnew. subst newSweep.
    cbn. repeat split; lia.
  - intros Hno.
    assert (newSweep = false) as ->.
    { rewrite Hnew. destruct Hno as [-> | ->]; [reflexivity | apply andb_false_r]. }
    cbn. repeat split.
Qed.

(** *** The point filter *)

Lemma keepPoint_remapInto (point : PointXYZI F) (p : PointXYZ F) :
  keepPoint (remapInto point p) = keepRaw p.
Proof. reflexivity. Qed.

Lemma ingest_filter (laserCloudIn : list (PointXYZ F)) :
  forall (point : PointXYZI F) (imu : IMU) (scan : Cloud),
  exists new,
    snd (ingest laserCloudIn point imu scan) = scan ++ new /\
    Forall2 derivedFrom (List.filter keepRaw laserCloudIn) new /\
    (hasIMUData imu = false ->
     fst (ingest laserCloudIn point imu scan) = imu /\
     Forall (fun q => keepPoint q = true) new).
Proof.
  induction laserCloudIn as [| p rest IH]; intros point imu scan.
  - exists []. cbn. rewrite app_nil_r. repeat split; constructor.
  - cbn [ingest List.filter]. rewrite keepPoint_remapInto.
    destruct (keepRaw p) eqn:Hkeep.
    + destruct (hasIMUData imu) eqn:Himu.
      * destruct (IH (transformToStartIMU (setIMUTransformFor (f_of_int 0) imu)
                        (remapInto point p))
                     (setIMUTransformFor (f_of_int 0) imu)
                     (scan ++ [transformToStartIMU
                                 (setIMUTransformFor (f_of_int 0) imu)
                                 (remapInto point p)]))
          as (new & Hnew & Hall & _).
        eexists (_ :: new). rewrite Hnew, <- app_assoc.
        split; [reflexivity |]. split; [| discriminate].
        constructor; [| exact Hall].
        exists point, (setIMUTransformFor (f_of_int 0) imu). right. reflexivity.
      * destruct (IH (remapInto point p) imu (scan ++ [remapInto point p]))
          as (new & Hnew & Hall & Hno).
        exists (remapInto point p :: new). rewrite Hnew, <- app_assoc.
        split; [reflexivity |]. split.
        -- constructor; [| exact Hall]. exists point, imu. left. reflexivity.
        -- intros _. destruct (Hno Himu) as [Hfst Hkept]. split; [exact Hfst |].
           constructor; [| exact Hkept]. rewrite keepPoint_remapInto. exact Hkeep.
    + destruct (IH (remapInto point p) imu scan) as (new & Hnew & Hall & Hno).
      exists new. auto.
Qed.

Lemma ingest_point_irrelevant (laserCloudIn : list (PointXYZ F))
    (point point' : PointXYZI F) (imu : IMU) (scan : Cloud) :
  pt_intensity point = pt_intensity point' ->
  ingest laserCloudIn point imu scan = ingest laserCloudIn point' imu scan.
Proof.
  intros Hi. destruct laserCloudIn as [| p rest]; [reflexivity |].
  cbn [ingest]. unfold remapInto. rewrite Hi. reflexivity.
Qed.

(** The loop goes on after a point it skips: it leaves what it leaves on
    the batch without the skipped points. *)
Lemma ingest_skips (laserCloudIn : list (PointXYZ F)) :
  forall (point : PointXYZI F) (imu : IMU) (scan : Cloud),
    ingest laserCloudIn point imu scan
    = ingest (List.filter keepRaw laserCloudIn) point imu scan.
Proof.
  induction laserCloudIn as [| p rest IH]; intros point imu scan;
    [reflexivity |].
  cbn [List.filter]. destruct (keepRaw p) eqn:Hkeep.
  - cbn [ingest]. rewrite keepPoint_remapInto, Hkeep.
    destruct (hasIMUData imu); apply IH.
  - cbn [ingest]. rewrite keepPoint_remapInto, Hkeep, IH.
    apply ingest_point_irrelevant. reflexivity.
Qed.

(** C7: [process] drops the points with a coordinate that is not finite
    after the exchange of the axes, or with a squared norm below 0.0001,
    and goes on.  The loop leaves what it leaves on the batch without these
    points, so that [process] returns what feature extraction returns on
    the scan made of the other points: these, in their order, with the axes
    exchanged (and moved by the IMU capability when it has data).  Without
    IMU data every point of the scan buffer has finite coordinates and a
    squared norm that is not below 0.0001.  When [process] returns, the
    scan buffer is published as it is, and the three feature clouds of the
    scan and the cloud handed to the voxel grid consist of points of the
    scan buffer, so that a dropped point is in none of the five outputs. *)
Theorem invalid_points_dropped (cfg : RegistrationParams F) (st stR : State)
    (laserCloudIn : list (PointXYZ F)) (scanTime : Time) (newSweep : bool) :
  detectSweep cfg st laserCloudIn scanTime = Ok (stR, newSweep) ->
  let valid := fun p : PointXYZ F =>
    pcl_isfinite (in_y p) && pcl_isfinite (in_z p) && pcl_isfinite (in_x p)
    && negb (flt (fadd (fadd (fmul (in_y p) (in_y p)) (fmul (in_z p) (in_z p)))
                       (fmul (in_x p) (in_x p)))
                 f_0_0001) in
  let kept := List.filter valid laserCloudIn in
  let scan := ingest kept defaultPoint (_imu stR) [] in
  ingest laserCloudIn defaultPoint (_imu stR) [] = scan /\
  process cfg st laserCloudIn scanTime
  = (if Z.of_nat (length laserCloudIn) <=? INT_MAX
     then do st' <- extractFeatures cfg (set_laserCloud (fst scan) (snd scan) stR);
          Ok (st', publishResult st')
     else Err Undefined) /\
  Forall2 derivedFrom kept (snd scan) /\
  (hasIMUData (_imu stR) = false ->
   Forall (fun q => pcl_isfinite (pt_x q) = true /\ pcl_isfinite (pt_y q) = true /\
                    pcl_isfinite (pt_z q) = true /\
                    flt (fadd (fadd (fmul (pt_x q) (pt_x q))
                                    (fmul (pt_y q) (pt_y q)))
                              (fmul (pt_z q) (pt_z q)))
                        f_0_0001 = false)
          (snd scan)) /\
  forall st' pub,
    process cfg st laserCloudIn scanTime = Ok (st', pub) ->
    pub_laserCloud pub = snd scan /\
    (forall q, q ∈ pub_cornerPointsSharp pub \/
               q ∈ pub_cornerPointsLessSharp pub \/
               q ∈ pub_surfacePointsFlat pub -> q ∈ pub_laserCloud pub) /\
    exists less,
      (forall q, q ∈ less -> q ∈ pub_laserCloud pub) /\
      pub_surfacePointsLessFlat pub
      = _surfacePointsLessFlat stR ++ voxelGridFilter (lessFlatFilterSize cfg) less.
Proof.
  intros Hsweep valid kept scan.
  change valid with keepRaw in kept. subst kept.
  assert (Hscan : ingest laserCloudIn defaultPoint (_imu stR) [] = scan)
    by apply ingest_skips.
  destruct (ingest_filter laserCloudIn defaultPoint (_imu stR) [])
    as (new & Hnew & Hall & Hno).
  cbn [app] in Hnew. rewrite Hscan in Hnew, Hno.
  split; [exact Hscan |]. split; [| split; [| split]].
  - unfold process. rewrite Hsweep. cbn [bind fst]. unfold ingestBatch.
    rewrite Hscan.
    destruct (Z.of_nat (length laserCloudIn) <=? INT_MAX); reflexivity.
  - rewrite Hnew. exact Hall.
  - intros Himu. destruct (Hno Himu) as [_ Hkept]. rewrite Hnew.
    eapply Forall_impl; [exact Hkept |]. cbn beta. intros q Hq.
    unfold keepPoint in Hq.
    apply andb_true_iff in Hq as [Hq Hnorm].
    apply andb_true_iff in Hq as [Hq Hz].
    apply andb_true_iff in Hq as [Hx Hy].
    apply negb_true_iff in Hnorm. auto.
  - intros st' pub Hrun.
    apply process_Ok in Hrun as (stR' & newSweep' & Hsweep' & Hfeat & ->).
    rewrite Hsweep in Hsweep'. inversion Hsweep'. subst stR' newSweep'.
    cbv zeta in Hfeat. rewrite Hscan in Hfeat.
    apply extractFeatures_Ok in Hfeat
      as (st1 & less & _ & Hless & Hacc & _ & _ & Hcl & Hclouds).
    cbn [_laserCloud _surfacePointsLessFlat set_laserCloud]
      in Hless, Hacc, Hcl, Hclouds.
    cbn [publishResult pub_laserCloud pub_cornerPointsSharp
         pub_cornerPointsLessSharp pub_surfacePointsFlat pub_surfacePointsLessFlat].
    rewrite Hcl. split; [reflexivity |].
    split; [| exists less; split; [exact Hless | exact Hacc]].
    assert (Hempty : forall X,
               cloudOf X (set_laserCloud (fst scan) (snd scan) stR) = []).
    { apply detectSweep_Ok in Hsweep as (_ & _ & _ & _ & ->).
      intros X. destruct X, newSweep; reflexivity. }
    intros q [Hq | [Hq | Hq]].
    + destruct (Hclouds CORNER_SHARP) as (pts & He & Hin).
      rewrite (Hempty CORNER_SHARP) in He. cbn in He. rewrite He in Hq. auto.
    + destruct (Hclouds CORNER_LESS_SHARP) as (pts & He & Hin).
      rewrite (Hempty CORNER_LESS_SHARP) in He. cbn in He. rewrite He in Hq. auto.
    + destruct (Hclouds SURFACE_FLAT) as (pts & He & Hin).
      rewrite (Hempty SURFACE_FLAT) in He. cbn in He. rewrite He in Hq. auto.
Qed.

End Frame.

(** C9: the relative time that [process] passes to [setIMUTransformFor] is
    the constant 0 of line 155 for every retained point, whatever the
    position of the point in the scan: with the recording IMU double, the
    times requested while a batch is read are one zero per retained
    point. *)
Theorem relTime_is_constant_zero (script : list float)
    (laserCloudIn : list (PointXYZ float)) :
  forall (point : PointXYZI float) (imu : Scripted.Recorder)
         (scan : list (PointXYZI float)),
    Scripted.rec_relTimes
      (fst (ingest (EXT := Scripted.provider script) laserCloudIn point imu scan))
    = Scripted.rec_relTimes imu
      ++ replicate
           (if Scripted.rec_available imu
            then length (List.filter keepRaw laserCloudIn) else 0%nat)
           (f_of_int 0).
Proof.
  induction laserCloudIn as [| p rest IH]; intros point imu scan.
  - cbn. destruct (Scripted.rec_available imu); rewrite app_nil_r; reflexivity.
  - cbn [ingest List.filter]. rewrite keepPoint_remapInto.
    destruct (keepRaw p) eqn:Hkeep; [| apply IH].
    cbn [hasIMUData Scripted.provider].
    destruct (Scripted.rec_available imu) eqn:Himu.
    + rewrite IH.
      cbn [setIMUTransformFor Scripted.provider Scripted.rec_relTimes
           Scripted.rec_available].
      rewrite Himu, <- app_assoc. reflexivity.
    + rewrite IH, Himu. reflexivity.
Qed.

(** ** The feature classes of a scan *)

Lemma lessFlatIdx_elem (labels : list PointLabel) (sp : Z) (fuel : nat) :
  forall (j i : Z),
    0 <= sp -> 0 <= j -> sp + j + Z.of_nat fuel <= 2 ^ 64 ->
    i ∈ lessFlatIdx labels sp fuel j ->
    sp + j <= i < sp + j + Z.of_nat fuel /\
    exists l, vec_get labels (i - sp) = Ok l /\ label_value l <= 0.
Proof.
  induction fuel as [| fuel IH]; intros j i Hsp Hj Hb Hin; cbn in Hin.
  - inversion Hin.
  - destruct (vec_get labels j) as [l | e] eqn:Hl; [| inversion Hin].
    assert (Hrec : i ∈ lessFlatIdx labels sp fuel (j + 1) ->
                   sp + j <= i < sp + j + Z.of_nat (S fuel) /\
                   exists l, vec_get labels (i - sp) = Ok l /\ label_value l <= 0).
    { intros H. apply IH in H; [| lia ..]. destruct H as [Hr Hex].
      split; [lia | exact Hex]. }
    destruct (Z.leb_spec (label_value l) 0) as [Hle | Hgt]; [| auto].
    apply elem_of_cons in Hin as [-> | Hin]; [| auto].
    rewrite wrap64_small by lia. split; [lia |].
    exists l. replace (sp + j - sp) with j by lia. auto.
Qed.

Lemma lessFlatIdx_complete (labels : list PointLabel) (sp : Z) (fuel : nat) :
  forall (j r : Z) (l : PointLabel),
    0 <= sp -> 0 <= j -> sp + j + Z.of_nat fuel <= 2 ^ 64 ->
    j + Z.of_nat fuel <= Z.of_nat (length labels) ->
    j <= r < j + Z.of_nat fuel ->
    vec_get labels r = Ok l -> label_value l <= 0 ->
    sp + r ∈ lessFlatIdx labels sp fuel j.
Proof.
  induction fuel as [| fuel IH]; intros j r l Hsp Hj Hb Hlen Hr Hget Hle; [lia |].
  cbn [lessFlatIdx].
  destruct (vec_get labels j) as [lj | e] eqn:Hlj.
  - destruct (Z.eq_dec r j) as [-> | Hne].
    + rewrite Hget in Hlj. inversion Hlj. subst lj.
      change (label_value SURFACE_LESS_FLAT) with 0.
      destruct (Z.leb_spec (label_value l) 0); [| lia].
      rewrite wrap64_small by lia. apply elem_of_cons. auto.
    + assert (Hin : sp + r ∈ lessFlatIdx labels sp fuel (j + 1))
        by (apply (IH (j + 1) r l); lia || assumption).
      destruct (label_value lj <=? label_value SURFACE_LESS_FLAT);
        [apply elem_of_cons; auto | exact Hin].
  - exfalso.
    assert (Hsome : is_Some (labels !! Z.to_nat j)) by (apply lookup_lt_is_Some; lia).
    destruct Hsome as [x Hx].
    assert (vec_get labels j = Ok x) by (apply vec_get_Ok; auto).
    congruence.
Qed.

Lemma lessFlatIdx_NoDup (labels : list PointLabel) (sp : Z) (fuel : nat) :
  forall (j : Z),
    0 <= sp -> 0 <= j -> sp + j + Z.of_nat fuel <= 2 ^ 64 ->
    NoDup (lessFlatIdx labels sp fuel j).
Proof.
  induction fuel as [| fuel IH]; intros j Hsp Hj Hb; cbn; [constructor |].
  destruct (vec_get labels j) as [l | e]; [| constructor].
  destruct (label_value l <=? 0); [| apply IH; lia].
  constructor; [| apply IH; lia].
  intros Hin. apply lessFlatIdx_elem in Hin as [Hr _]; [| lia ..].
  rewrite wrap64_small in Hr by lia. lia.
Qed.

Lemma tables_ordered_values (n : Z) (ss es : list Z) :
  15 <= n <= 2 ^ 31 ->
  startPoints n = Ok ss -> endPoints n = Ok es -> tables_ordered ss es.
Proof.
  intros Hn Hss Hes.
  destruct (tables_values n) as [Hs He]; [lia |].
  rewrite Hs in Hss. rewrite He in Hes. inversion Hss. inversion Hes. subst ss es.
  clear Hs He Hss Hes.
  set (m := n - 10) in *.
  assert (Hq1 : 0 <= m / 4 /\ m / 4 + 1 <= m / 2) by (Z.div_mod_to_equations; lia).
  assert (Hq2 : m / 2 + 1 <= 3 * m / 4) by (Z.div_mod_to_equations; lia).
  assert (Hq3 : 3 * m / 4 + 2 <= m) by (Z.div_mod_to_equations; lia).
  intros k sp ep Hsp Hep.
  apply lookup4 in Hsp. apply lookup4 in Hep.
  destruct Hsp as [[-> ->]|[[-> ->]|[[-> ->]|[-> ->]]]];
    destruct Hep as [[? ->]|[[? ->]|[[? ->]|[? ->]]]]; try discriminate;
    (split; [lia |]; split; [lia |]);
    intros k' ep' Hk' Hep'; apply lookup4 in Hep';
    destruct Hep' as [[-> ->]|[[-> ->]|[[-> ->]|[-> ->]]]]; lia.
Qed.

Lemma NoDup_length_bound (l : list Z) (n : Z) :
  0 <= n ->
  NoDup l -> (forall x, x ∈ l -> 0 <= x < n) -> Z.of_nat (length l) <= n.
Proof.
  intros Hn Hnd Hin.
  assert (Hsub : l ⊆+ seqZ 0 n).
  { apply NoDup_submseteq; [exact Hnd |].
    intros x Hx. apply elem_of_seqZ. specialize (Hin x Hx). lia. }
  apply submseteq_length in Hsub. rewrite length_seqZ in Hsub. lia.
Qed.

Lemma log_label_unique (log : list (PointLabel * Z)) (X Y : PointLabel) (i : Z) :
  NoDup (map snd log) -> (X, i) ∈ log -> (Y, i) ∈ log -> X = Y.
Proof.
  induction log as [| e log IH]; intros Hnd HX HY; [inversion HX |].
  cbn [map] in Hnd. apply NoDup_cons in Hnd as [Hnotin Hnd].
  apply elem_of_cons in HX as [HX | HX]; apply elem_of_cons in HY as [HY | HY].
  - congruence.
  - exfalso. apply Hnotin. subst e. cbn.
    apply list_elem_of_fmap. exists (Y, i). auto.
  - exfalso. apply Hnotin. subst e. cbn.
    apply list_elem_of_fmap. exists (X, i). auto.
  - auto.
Qed.

Lemma idxOf_NoDup (log : list (PointLabel * Z)) (X : PointLabel) :
  NoDup (map snd log) -> NoDup (idxOf X log).
Proof. intros Hnd. exact (sublist_NoDup _ _ Hnd (idxOf_sublist X log)). Qed.

Lemma idxOf_disjoint (log : list (PointLabel * Z)) (X Y : PointLabel) (i : Z) :
  NoDup (map snd log) -> X <> Y -> i ∈ idxOf X log -> i ∉ idxOf Y log.
Proof.
  intros Hnd Hne HX HY. apply idxOf_elem in HX. apply idxOf_elem in HY.
  apply Hne. eapply log_label_unique; eassumption.
Qed.

Lemma atIndices_range {F : Type} (cloud : list (PointXYZI F)) (idx : list Z)
    (pts : list (PointXYZI F)) :
  atIndices cloud idx pts ->
  forall i, i ∈ idx -> 0 <= i < Z.of_nat (length cloud).
Proof.
  intros Hat. induction Hat as [| i p idx pts Hp _ IH]; intros k Hk.
  - inversion Hk.
  - apply elem_of_cons in Hk as [-> | Hk]; [| auto].
    eapply vec_get_range. exact Hp.
Qed.

Section Classes.
Context {F Time IMU : Type} {FO : FloatOps F} {EXT : Collaborators F Time IMU}.

Abbreviation State := (ScanRegistration F Time IMU).
Abbreviation Cloud := (list (PointXYZI F)).

(** The contract of the suppression, as in [picking_inv]. *)
Hypothesis markAsPicked_marks :
  forall (cloud : Cloud) (picked : list Z) (i v : Z),
    vec_get picked i = Ok v -> marked (markAsPicked cloud picked i i) i.
Hypothesis markAsPicked_keeps :
  forall (cloud : Cloud) (picked : list Z) (i k : Z),
    marked picked k -> marked (markAsPicked cloud picked i i) k.
(** The contract of the provider: one label per index of the range. *)
Hypothesis setRegionBuffersFor_labels :
  forall (cloud : Cloud) (startIdx endIdx : Z),
    startIdx <= endIdx + 1 ->
    length (rb_label (setRegionBuffersFor cloud startIdx endIdx))
    = Z.to_nat (endIdx - startIdx + 1).

Lemma picksInv_setRegionBuffers (st0 st : State) (log : list (PointLabel * Z))
    (s e : Z) :
  picksInv st0 st log -> picksInv st0 (call_setRegionBuffersFor s e st) log.
Proof.
  intros (Hsame & Hclouds & Hnodup & Hmarked).
  split; [exact Hsame |]. split; [| split; assumption].
  intros X HX. destruct (Hclouds X HX) as (pts & He & Hat).
  exists pts. split; [| exact Hat]. rewrite <- He. destruct X; reflexivity.
Qed.

(** One region: the candidates it accepts and the indices it pushes to the
    less flat candidates lie in [[sp, ep)]; the latter contain the flat
    points of the region and none of its corners. *)
Lemma extractRegion_inv (cfg : RegistrationParams F) (st0 : State)
    (glog : list (PointLabel * Z)) (sp ep : Z) (st st' : State)
    (less less' : Cloud) :
  1 <= sp <= ep -> ep <= 2 ^ 63 ->
  Z.of_nat (length (_laserCloud st0)) <= 2 ^ 64 ->
  picksInv st0 st glog ->
  extractRegion cfg sp ep st less = Ok (st', less') ->
  exists rlog C pts,
    picksInv st0 st' (glog ++ rlog) /\
    less' = less ++ pts /\ atIndices (_laserCloud st0) C pts /\
    NoDup C /\
    (forall i, i ∈ C -> sp <= i < ep) /\
    (forall e, e ∈ rlog -> sp <= snd e < ep) /\
    (forall i, i ∈ idxOf SURFACE_FLAT rlog -> i ∈ C) /\
    (forall i, i ∈ C ->
               (i ∉ idxOf CORNER_SHARP rlog) /\
               (i ∉ idxOf CORNER_LESS_SHARP rlog)).
Proof.
  intros Hsp Hep Hcloud Hpicks Hrun.
  apply extractRegion_Ok in Hrun as (st2 & Hcorner & Hflat & Hless).
  set (st1 := call_setRegionBuffersFor sp (wrap64 (ep - 1)) st) in *.
  assert (Hlen1 : Z.of_nat (length (_regionLabel st1)) = ep - sp).
  { change (_regionLabel st1)
      with (rb_label (setRegionBuffersFor (_laserCloud st) sp (wrap64 (ep - 1)))).
    rewrite wrap64_small by lia.
    rewrite setRegionBuffersFor_labels by lia. lia. }
  assert (Hpicks1 : picksInv st0 st1 (glog ++ [])).
  { rewrite app_nil_r. apply picksInv_setRegionBuffers. exact Hpicks. }
  assert (Hlab1 : labelsInv sp st1 []).
  { intros e He. inversion He. }
  assert (Hcorner_lf : forall c, cornerLabel cfg c <> SURFACE_LESS_FLAT).
  { intros c. unfold cornerLabel.
    destruct (c <=? maxCornerSharp cfg); discriminate. }
  assert (Hflat_lf : forall c, flatLabel c <> SURFACE_LESS_FLAT)
    by (intros c; discriminate).
  assert (Hsp0 : 0 <= sp) by lia.
  assert (Hb1 : sp + Z.of_nat (length (_regionLabel st1)) <= 2 ^ 64) by lia.
  destruct (picking_inv markAsPicked_marks markAsPicked_keeps sp
              (maxCornerLessSharp cfg) (cornerLabel cfg) st0 glog
              Hcorner_lf Hsp0 Hcloud 0 st1 st2 Hcorner [] Hb1 Hpicks1 Hlab1)
    as (rlog1 & Hpicks2 & Hlab2 & Hlen2).
  assert (Hb2 : sp + Z.of_nat (length (_regionLabel st2)) <= 2 ^ 64) by lia.
  destruct (picking_inv markAsPicked_marks markAsPicked_keeps sp
              (maxSurfaceFlat cfg) flatLabel st0 glog
              Hflat_lf Hsp0 Hcloud 0 st2 st' Hflat rlog1 Hb2 Hpicks2 Hlab2)
    as (rlog & Hpicks' & Hlab' & Hlen').
  assert (Hlen : Z.of_nat (length (_regionLabel st')) = ep - sp) by lia.
  rewrite wrap64_small in Hless by lia.
  apply lessFlatLoop_atIndices in Hless as (pts & -> & Hat).
  set (C := lessFlatIdx (_regionLabel st') sp (Z.to_nat (ep - sp)) 0) in *.
  assert (Hcl : _laserCloud st' = _laserCloud st0).
  { destruct Hpicks' as ((_ & _ & _ & _ & Hcl & _) & _). exact Hcl. }
  rewrite Hcl in Hat.
  assert (HC : forall i, i ∈ C ->
                 sp <= i < ep /\
                 exists l, vec_get (_regionLabel st') (i - sp) = Ok l /\
                           label_value l <= 0).
  { intros i Hi. apply lessFlatIdx_elem in Hi; [| lia ..].
    destruct Hi as [Hr Hl]. split; [lia | exact Hl]. }
  exists rlog, C, pts.
  split; [exact Hpicks' |]. split; [reflexivity |]. split; [exact Hat |].
  split; [apply lessFlatIdx_NoDup; lia |].
  split; [intros i Hi; apply HC; exact Hi |].
  split; [| split].
  - intros e He. destruct (Hlab' e He) as [Hle Hget].
    apply vec_get_range in Hget. lia.
  - intros i Hi. apply idxOf_elem in Hi.
    destruct (Hlab' _ Hi) as [Hle Hget]. cbn [fst snd] in Hle, Hget.
    pose proof (vec_get_range _ _ _ Hget) as Hr.
    replace i with (sp + (i - sp)) by lia.
    apply (lessFlatIdx_complete _ sp _ 0 (i - sp) SURFACE_FLAT);
      try assumption; cbn; lia.
  - intros i Hi. destruct (HC i Hi) as (_ & l & Hl & Hv).
    split; intros Hin; apply idxOf_elem in Hin;
      destruct (Hlab' _ Hin) as [_ Hget]; cbn [fst snd] in Hget;
      rewrite Hget in Hl; inversion Hl; subst l; cbn in Hv; lia.
Qed.


(** The loop over the regions keeps the classes apart: the regions follow
    one another, so what a region adds lies above everything added
    before. *)
Lemma regionsLoop_inv (cfg : RegistrationParams F) (st0 : State)
    (ss es : list Z) (fuel : nat) :
  tables_ordered ss es ->
  Z.of_nat (length (_laserCloud st0)) <= 2 ^ 64 ->
  forall (i : Z) (st st' : State) (less less' : Cloud)
         (glog : list (PointLabel * Z)) (C : list Z),
    0 <= i ->
    picksInv st0 st glog ->
    atIndices (_laserCloud st0) C less ->
    NoDup C ->
    (forall x, x ∈ C \/ x ∈ map snd glog -> below es i x) ->
    (forall x, x ∈ idxOf SURFACE_FLAT glog -> x ∈ C) ->
    (forall x, x ∈ C -> (x ∉ idxOf CORNER_SHARP glog) /\
                        (x ∉ idxOf CORNER_LESS_SHARP glog)) ->
    regionsLoop cfg ss es fuel i st less = Ok (st', less') ->
    exists glog' C',
      picksInv st0 st' glog' /\
      atIndices (_laserCloud st0) C' less' /\
      NoDup C' /\
      (forall x, x ∈ idxOf SURFACE_FLAT glog' -> x ∈ C') /\
      (forall x, x ∈ C' -> (x ∉ idxOf CORNER_SHARP glog') /\
                           (x ∉ idxOf CORNER_LESS_SHARP glog')).
Proof.
  intros Hord Hcloud.
  induction fuel as [| fuel IH];
    intros i st st' less less' glog C Hi Hpicks Hat Hnd Hbelow Hflat Hcorner Hrun;
    cbn in Hrun.
  - inversion Hrun; subst. exists glog, C. auto.
  - apply bind_Ok in Hrun as (sp & Hsp & Hrun).
    apply bind_Ok in Hrun as (ep & Hep & Hrun).
    apply bind_Ok in Hrun as ([st1 less1] & Hregion & Hrun).
    cbn [fst snd] in Hrun.
    apply vec_get_Ok in Hsp as [_ Hsp]. apply vec_get_Ok in Hep as [_ Hep].
    destruct (Hord _ _ _ Hsp Hep) as (Hspep & Hep63 & Hprev).
    destruct (extractRegion_inv cfg st0 glog sp ep st st1 less less1
                Hspep Hep63 Hcloud Hpicks Hregion)
      as (rlog & Cr & pts & Hpicks1 & -> & Hatr & Hndr & HCr & Hrlog & Hflatr
          & Hcornerr).
    assert (Hlow : forall x, x ∈ C \/ x ∈ map snd glog -> x < sp).
    { intros x Hx. destruct (Hbelow x Hx) as (k & epk & Hk & Hepk & Hlt).
      specialize (Hprev k epk ltac:(lia) Hepk). lia. }
    assert (Hrlog' : forall X x, x ∈ idxOf X rlog -> sp <= x < ep).
    { intros X x Hx. apply idxOf_elem in Hx. apply (Hrlog _ Hx). }
    assert (Hglog' : forall X x, x ∈ idxOf X glog -> x < sp).
    { intros X x Hx. apply Hlow. right. apply idxOf_elem in Hx.
      apply list_elem_of_fmap. exists (X, x). auto. }
    apply (IH (i + 1) st1 st' (less ++ pts) less' (glog ++ rlog) (C ++ Cr));
      try assumption; try lia.
    + apply Forall2_app; assumption.
    + apply NoDup_app. split; [exact Hnd |]. split; [| exact Hndr].
      intros x Hx Hx'. specialize (Hlow x (or_introl Hx)).
      specialize (HCr x Hx'). lia.
    + intros x Hx.
      assert (Hcase : (x ∈ C \/ x ∈ map snd glog) \/ (sp <= x < ep)).
      { destruct Hx as [Hx | Hx].
        - apply elem_of_app in Hx as [Hx | Hx]; [auto | right; auto].
        - rewrite map_app in Hx. apply elem_of_app in Hx as [Hx | Hx]; [auto |].
          right. apply list_elem_of_fmap in Hx as (e & -> & He). auto. }
      destruct Hcase as [Hold | Hnew].
      * destruct (Hbelow x Hold) as (k & epk & Hk & Hepk & Hlt).
        exists k, epk. split; [lia | auto].
      * exists (Z.to_nat i), ep. split; [lia |]. split; [exact Hep | lia].
    + intros x Hx. rewrite idxOf_app in Hx.
      apply elem_of_app. apply elem_of_app in Hx as [Hx | Hx]; auto.
    + intros x Hx. rewrite !idxOf_app.
      apply elem_of_app in Hx as [Hx | Hx].
      * destruct (Hcorner x Hx) as [Hs Hl].
        specialize (Hlow x (or_introl Hx)).
        split; intros Hin; apply elem_of_app in Hin as [Hin | Hin];
          try contradiction; apply Hrlog' in Hin; lia.
      * destruct (Hcornerr x Hx) as [Hs Hl]. specialize (HCr x Hx).
        split; intros Hin; apply elem_of_app in Hin as [Hin | Hin];
          try contradiction; apply Hglog' in Hin; lia.
Qed.

(** C6 (as amended): for a scan of 15 to 2^31 points and collaborators
    that keep their contracts, the scan indices of the points added to the
    sharp, less sharp and flat clouds are pairwise different, the less flat
    candidates of the scan are taken at pairwise different indices that
    include every flat index and no corner index, and the classes together
    hold no more indices than the scan has points. *)
Theorem feature_classes (cfg : RegistrationParams F) (st st' : State)
    (less : Cloud) :
  15 <= Z.of_nat (length (_laserCloud st)) <= 2 ^ 31 ->
  extractRegions cfg st = Ok (st', less) ->
  exists (sharp lessSharp flat lessFlat : list Z) (ptsS ptsL ptsF : Cloud),
    _cornerPointsSharp st' = _cornerPointsSharp st ++ ptsS /\
    atIndices (_laserCloud st) sharp ptsS /\
    _cornerPointsLessSharp st' = _cornerPointsLessSharp st ++ ptsL /\
    atIndices (_laserCloud st) lessSharp ptsL /\
    _surfacePointsFlat st' = _surfacePointsFlat st ++ ptsF /\
    atIndices (_laserCloud st) flat ptsF /\
    atIndices (_laserCloud st) lessFlat less /\
    NoDup (sharp ++ lessSharp ++ flat) /\
    NoDup (sharp ++ lessSharp ++ lessFlat) /\
    (forall i, i ∈ flat -> i ∈ lessFlat) /\
    Z.of_nat (length sharp) + Z.of_nat (length lessSharp)
    + Z.of_nat (length lessFlat) <= Z.of_nat (length (_laserCloud st)).
Proof.
  intros Hn Hrun. unfold extractRegions in Hrun.
  apply bind_Ok in Hrun as (ss & Hss & Hrun).
  apply bind_Ok in Hrun as (es & Hes & Hrun).
  set (n := Z.of_nat (length (_laserCloud st))) in *.
  set (st0 := call_setScanBuffersFor 0 n st) in *.
  assert (Hord : tables_ordered ss es)
    by (eapply tables_ordered_values; eassumption).
  assert (Hinit : picksInv st0 st0 []).
  { split; [unfold sameSweepState; tauto |]. split; [| split].
    - intros X _. exists []. rewrite app_nil_r. split; [reflexivity | constructor].
    - constructor.
    - intros e He. inversion He. }
  destruct (regionsLoop_inv cfg st0 ss es _ Hord ltac:(cbn; fold n; lia)
              0 st0 st' [] less [] [] ltac:(lia) Hinit
              ltac:(constructor) ltac:(constructor)
              ltac:(intros x [Hx | Hx]; inversion Hx)
              ltac:(intros x Hx; inversion Hx)
              ltac:(intros x Hx; inversion Hx) Hrun)
    as (glog & C & (Hsame & Hclouds & Hnd & Hmarked) & HatC & HndC & Hflat
        & Hcorner).
  change (_laserCloud st0) with (_laserCloud st) in *.
  destruct (Hclouds CORNER_SHARP) as (ptsS & HeS & HatS); [discriminate |].
  destruct (Hclouds CORNER_LESS_SHARP) as (ptsL & HeL & HatL); [discriminate |].
  destruct (Hclouds SURFACE_FLAT) as (ptsF & HeF & HatF); [discriminate |].
  exists (idxOf CORNER_SHARP glog), (idxOf CORNER_LESS_SHARP glog),
    (idxOf SURFACE_FLAT glog), C, ptsS, ptsL, ptsF.
  assert (HndSL : NoDup (idxOf CORNER_SHARP glog ++ idxOf CORNER_LESS_SHARP glog)).
  { apply NoDup_app. split; [apply idxOf_NoDup; exact Hnd |].
    split; [| apply idxOf_NoDup; exact Hnd].
    intros x Hx.
    apply (idxOf_disjoint glog CORNER_SHARP CORNER_LESS_SHARP x Hnd);
      [discriminate | exact Hx]. }
  assert (HndSLC : NoDup (idxOf CORNER_SHARP glog ++ idxOf CORNER_LESS_SHARP glog
                          ++ C)).
  { rewrite app_assoc. apply NoDup_app. split; [exact HndSL |].
    split; [| exact HndC].
    intros x Hx HxC. destruct (Hcorner x HxC) as [Hs Hl].
    apply elem_of_app in Hx as [Hx | Hx]; contradiction. }
  split; [exact HeS |]. split; [exact HatS |].
  split; [exact HeL |]. split; [exact HatL |].
  split; [exact HeF |]. split; [exact HatF |].
  split; [exact HatC |].
  split; [| split; [exact HndSLC | split; [exact Hflat |]]].
  - rewrite app_assoc. apply NoDup_app. split; [exact HndSL |].
    split; [| apply idxOf_NoDup; exact Hnd].
    intros x Hx. apply elem_of_app in Hx as [Hx | Hx].
    + apply (idxOf_disjoint glog CORNER_SHARP SURFACE_FLAT x Hnd);
        [discriminate | exact Hx].
    + apply (idxOf_disjoint glog CORNER_LESS_SHARP SURFACE_FLAT x Hnd);
        [discriminate | exact Hx].
  - pose proof (NoDup_length_bound _ n ltac:(lia) HndSLC) as Hbound.
    rewrite !length_app in Hbound. rewrite !Nat2Z.inj_add in Hbound.
    rewrite Z.add_assoc in Hbound. apply Hbound.
    intros x Hx. apply elem_of_app in Hx as [Hx | Hx];
      [| apply elem_of_app in Hx as [Hx | Hx]].
    + eapply atIndices_range; [exact HatS | exact Hx].
    + eapply atIndices_range; [exact HatL | exact Hx].
    + eapply atIndices_range; [exact HatC | exact Hx].
Qed.

End Classes.

(** ** Scans long enough are processed to the end *)

Lemma vec_get_in_range {A : Type} (v : list A) (i : Z) :
  0 <= i < Z.of_nat (length v) -> exists a, vec_get v i = Ok a.
Proof.
  intros Hi.
  assert (Hsome : is_Some (v !! Z.to_nat i)) by (apply lookup_lt_is_Some; lia).
  destruct Hsome as [a Ha]. exists a. apply vec_get_Ok. split; [lia | exact Ha].
Qed.

Lemma vec_set_in_range {A : Type} (v : list A) (i : Z) (a : A) :
  0 <= i < Z.of_nat (length v) -> vec_set v i a = Ok (<[Z.to_nat i := a]> v).
Proof.
  intros Hi. unfold vec_set.
  destruct (Z.leb_spec 0 i); [| lia].
  destruct (Z.ltb_spec i (Z.of_nat (length v))); [reflexivity | lia].
Qed.

Section Totality.
Context {F Time IMU : Type} {FO : FloatOps F} {EXT : Collaborators F Time IMU}.

Abbreviation State := (ScanRegistration F Time IMU).
Abbreviation Cloud := (list (PointXYZI F)).

(** The provider fills the buffers of a proper range with one entry per
    index and sort indices of that range; there is a flag for every point,
    and the suppression drops none. *)
Hypothesis setRegionBuffersFor_fits :
  forall (cloud : Cloud) (startIdx endIdx : Z),
    startIdx <= endIdx ->
    let rb := setRegionBuffersFor cloud startIdx endIdx in
    Z.of_nat (length (rb_sortIndices rb)) = endIdx - startIdx + 1 /\
    Forall (fun i => startIdx <= i <= endIdx) (rb_sortIndices rb) /\
    Z.of_nat (length (rb_curvature rb)) = endIdx - startIdx + 1 /\
    Z.of_nat (length (rb_label rb)) = endIdx - startIdx + 1.
Hypothesis setScanBuffersFor_length :
  forall (cloud : Cloud) (startIdx endIdx : Z),
    (length cloud <= length (setScanBuffersFor cloud startIdx endIdx))%nat.
Hypothesis markAsPicked_length :
  forall (cloud : Cloud) (picked : list Z) (cloudIdx scanIdx : Z),
    (length picked <= length (markAsPicked cloud picked cloudIdx scanIdx))%nat.

Variable cfg : RegistrationParams F.
Hypothesis maxCornerSharp_times_10 :
  INT_MIN <= maxCornerSharp cfg * 10 <= INT_MAX.

Lemma buffersFit_accepted (sp ep : Z) (st : State) (l : PointLabel)
    (p : PointXYZI F) (scanIdx i : Z) :
  buffersFit sp ep st ->
  buffersFit sp ep (accepted l (<[Z.to_nat i := l]> (_regionLabel st)) p scanIdx st).
Proof.
  intros (H1 & H2 & H3 & H4 & H5 & H6 & H7 & H8).
  unfold buffersFit. rewrite accepted_labels, accepted_picked, length_insert.
  pose proof (markAsPicked_length (_laserCloud st) (_scanNeighborPicked st)
                scanIdx scanIdx) as Hmark.
  destruct l; cbn; repeat split; try assumption; lia.
Qed.

(** What a pass reads for the sort position [j] is in range. *)
Lemma candidate_total (sp ep : Z) (st : State) (above : bool) (j : Z) :
  buffersFit sp ep st -> 0 <= j < ep - sp ->
  exists scanIdx accept p,
    vec_get (_regionSortIndices st) j = Ok scanIdx /\
    sp <= scanIdx < ep /\
    candidate cfg above scanIdx (wrap64 (scanIdx - sp)) st = Ok accept /\
    vec_get (_laserCloud st) scanIdx = Ok p /\
    forall l, vec_set (_regionLabel st) (wrap64 (scanIdx - sp)) l
              = Ok (<[Z.to_nat (wrap64 (scanIdx - sp)) := l]> (_regionLabel st)).
Proof.
  intros (H1 & H2 & H3 & H4 & H5 & H6 & H7 & H8) Hj.
  destruct (vec_get_in_range (_regionSortIndices st) j ltac:(lia))
    as [scanIdx Hidx].
  assert (Hr : sp <= scanIdx < ep).
  { apply vec_get_elem_of in Hidx. rewrite Forall_forall in H5.
    apply H5. exact Hidx. }
  assert (Hw : wrap64 (scanIdx - sp) = scanIdx - sp) by (apply wrap64_small; lia).
  destruct (vec_get_in_range (_scanNeighborPicked st) scanIdx ltac:(lia))
    as [picked Hpicked].
  destruct (vec_get_in_range (_regionCurvature st) (scanIdx - sp) ltac:(lia))
    as [c Hc].
  destruct (vec_get_in_range (_laserCloud st) scanIdx ltac:(lia)) as [p Hp].
  exists scanIdx,
    (if picked =? 0
     then (if above then flt (surfaceCurvatureThreshold cfg) c
           else flt c (surfaceCurvatureThreshold cfg))
     else false), p.
  split; [exact Hidx |]. split; [exact Hr |].
  split; [| split; [exact Hp |]].
  - unfold candidate. rewrite Hpicked, Hw, Hc. cbn [bind].
    destruct (picked =? 0); reflexivity.
  - intros l. apply vec_set_in_range. lia.
Qed.

Lemma cornerLoop_total (sp ep : Z) (fuel : nat) :
  forall (c : Z) (st : State),
    buffersFit sp ep st -> Z.of_nat fuel < ep - sp ->
    exists st', cornerLoop cfg sp fuel (Z.of_nat fuel) c st = Ok st' /\
                buffersFit sp ep st'.
Proof.
  induction fuel as [| fuel IH]; intros c st Hfit Hj; [exists st; auto |].
  cbn [cornerLoop].
  destruct (c <? maxCornerLessSharp cfg); [| exists st; auto].
  destruct (candidate_total sp ep st true (Z.of_nat (S fuel)) Hfit ltac:(lia))
    as (scanIdx & accept & p & Hidx & Hr & Hcand & Hp & Hset).
  rewrite Hidx. cbn [bind]. rewrite Hcand. cbn [bind].
  replace (Z.of_nat (S fuel) - 1) with (Z.of_nat fuel) by lia.
  destruct accept; [| apply IH; [exact Hfit | lia]].
  destruct (c + 1 <=? maxCornerSharp cfg).
  - rewrite Hset, Hp. cbn [bind].
    apply (IH (c + 1)); [| lia].
    apply (buffersFit_accepted sp ep st CORNER_SHARP). exact Hfit.
  - rewrite int_mul_ok by exact maxCornerSharp_times_10. cbn [bind].
    destruct (c + 1 <=? maxCornerSharp cfg * 10); [| exists st; auto].
    rewrite Hset, Hp. cbn [bind].
    apply (IH (c + 1)); [| lia].
    apply (buffersFit_accepted sp ep st CORNER_LESS_SHARP). exact Hfit.
Qed.

Lemma flatLoop_total (sp ep : Z) (fuel : nat) :
  forall (j c : Z) (st : State),
    buffersFit sp ep st -> 0 <= j -> j + Z.of_nat fuel <= ep - sp ->
    exists st', flatLoop cfg sp fuel j c st = Ok st' /\ buffersFit sp ep st'.
Proof.
  induction fuel as [| fuel IH]; intros j c st Hfit Hj Hb; [exists st; auto |].
  cbn [flatLoop].
  destruct (c <? maxSurfaceFlat cfg); [| exists st; auto].
  destruct (candidate_total sp ep st false j Hfit ltac:(lia))
    as (scanIdx & accept & p & Hidx & Hr & Hcand & Hp & Hset).
  rewrite Hidx. cbn [bind]. rewrite Hcand. cbn [bind].
  destruct accept; [| apply IH; [exact Hfit | lia ..]].
  rewrite Hset, Hp. cbn [bind].
  apply (IH (j + 1) (c + 1)); [| lia ..].
  apply (buffersFit_accepted sp ep st SURFACE_FLAT). exact Hfit.
Qed.

Lemma lessFlatLoop_total (sp ep : Z) (st : State) (fuel : nat) :
  buffersFit sp ep st ->
  forall (j : Z) (less : Cloud),
    0 <= j -> j + Z.of_nat fuel <= ep - sp ->
    exists less', lessFlatLoop sp fuel j st less = Ok less'.
Proof.
  intros (H1 & H2 & H3 & H4 & H5 & H6 & H7 & H8).
  induction fuel as [| fuel IH]; intros j less Hj Hb; [eexists; reflexivity |].
  cbn [lessFlatLoop].
  destruct (vec_get_in_range (_regionLabel st) j ltac:(lia)) as [l Hl].
  rewrite Hl. cbn [bind].
  destruct (label_value l <=? label_value SURFACE_LESS_FLAT); [| apply IH; lia].
  rewrite wrap64_small by lia.
  destruct (vec_get_in_range (_laserCloud st) (sp + j) ltac:(lia)) as [p Hp].
  rewrite Hp. cbn [bind]. apply IH; lia.
Qed.

(** A region with at least one index inside the scan is processed to its
    end; the scan is kept and still has a flag for every point. *)
Lemma extractRegion_total (sp ep : Z) (st : State) (less : Cloud) :
  1 <= sp < ep -> ep <= Z.of_nat (length (_laserCloud st)) ->
  Z.of_nat (length (_laserCloud st)) <= 2 ^ 63 ->
  (length (_laserCloud st) <= length (_scanNeighborPicked st))%nat ->
  exists st' less',
    extractRegion cfg sp ep st less = Ok (st', less') /\
    _laserCloud st' = _laserCloud st /\
    (length (_laserCloud st') <= length (_scanNeighborPicked st'))%nat.
Proof.
  intros Hsp Hep Hn Hpicked. unfold extractRegion.
  rewrite (wrap64_small (ep - sp)) by lia.
  rewrite (wrap64_small (ep - 1)) by lia.
  rewrite (wrap64_small (ep - sp - 1)) by lia.
  set (st1 := call_setRegionBuffersFor sp (ep - 1) st).
  assert (Hfit : buffersFit sp ep st1).
  { destruct (setRegionBuffersFor_fits (_laserCloud st) sp (ep - 1) ltac:(lia))
      as (Hs & Hin & Hc & Hl).
    unfold buffersFit. cbn.
    split; [lia |]. split; [exact Hep |]. split; [exact Hn |].
    split; [lia |]. split; [| split; [lia | split; [lia | exact Hpicked]]].
    eapply Forall_impl; [exact Hin |]. cbn. intros i Hi. lia. }
  destruct (cornerLoop_total sp ep (Z.to_nat (ep - sp - 1)) 0 st1 Hfit ltac:(lia))
    as (st2 & Hcorner & Hfit2).
  rewrite Z2Nat.id in Hcorner by lia. rewrite Hcorner. cbn [bind].
  destruct (flatLoop_total sp ep (Z.to_nat (ep - sp)) 0 0 st2 Hfit2
              ltac:(lia) ltac:(lia)) as (st3 & Hflat & Hfit3).
  rewrite Hflat. cbn [bind].
  destruct (lessFlatLoop_total sp ep st3 (Z.to_nat (ep - sp)) Hfit3 0 less
              ltac:(lia) ltac:(lia)) as (less' & Hless).
  rewrite Hless. cbn [bind]. exists st3, less'. split; [reflexivity |].
  apply cornerLoop_picking in Hcorner. apply flatLoop_picking in Hflat.
  apply picking_grownFrom in Hcorner as [(_ & _ & _ & _ & Hc2 & _) _].
  apply picking_grownFrom in Hflat as [(_ & _ & _ & _ & Hc3 & _) _].
  destruct Hfit3 as (_ & _ & _ & _ & _ & _ & _ & Hp3).
  split; [| exact Hp3]. rewrite Hc3, Hc2. reflexivity.
Qed.

Lemma regionsLoop_total (ss es : list Z) (fuel : nat) :
  (forall k sp ep, ss !! k = Some sp -> es !! k = Some ep -> 1 <= sp < ep) ->
  length ss = length es ->
  forall (i : Z) (st : State) (less : Cloud),
    0 <= i -> i + Z.of_nat fuel <= Z.of_nat (length ss) ->
    (forall k ep, es !! k = Some ep -> ep <= Z.of_nat (length (_laserCloud st))) ->
    Z.of_nat (length (_laserCloud st)) <= 2 ^ 63 ->
    (length (_laserCloud st) <= length (_scanNeighborPicked st))%nat ->
    exists r, regionsLoop cfg ss es fuel i st less = Ok r.
Proof.
  intros Hne Hlen.
  induction fuel as [| fuel IH]; intros i st less Hi Hb Hep Hn Hpicked;
    [eexists; reflexivity |].
  cbn [regionsLoop].
  destruct (vec_get_in_range ss i ltac:(lia)) as [sp Hsp].
  destruct (vec_get_in_range es i ltac:(lia)) as [ep Hep'].
  rewrite Hsp, Hep'. cbn [bind].
  apply vec_get_Ok in Hsp as [_ Hsp]. apply vec_get_Ok in Hep' as [_ Hep'].
  destruct (extractRegion_total sp ep st less (Hne _ _ _ Hsp Hep')
              (Hep _ _ Hep') Hn Hpicked) as (st' & less' & Hrun & Hcl & Hp').
  rewrite Hrun. cbn [bind fst snd].
  apply IH; try lia; try assumption.
  - rewrite Hcl. exact Hep.
  - rewrite Hcl. exact Hn.
Qed.

(** With collaborators that keep these contracts, four regions or fewer
    and a scan of 19 to 2^31 points, [extractFeatures] returns. *)
Lemma extractFeatures_total (st : State) :
  19 <= Z.of_nat (length (_laserCloud st)) <= 2 ^ 31 ->
  0 <= nFeatureRegions cfg <= 4 ->
  exists st', extractFeatures cfg st = Ok st'.
Proof.
  intros Hn Hregions. unfold extractFeatures, extractRegions.
  set (n := Z.of_nat (length (_laserCloud st))) in *.
  destruct (tables_values n ltac:(lia)) as [Hs He].
  rewrite Hs, He. cbn [bind].
  rewrite (wrap64_small (nFeatureRegions cfg)) by lia.
  destruct (regions_nonempty_iff n ltac:(lia)) as (ss & es & Hs' & He' & Hiff).
  rewrite Hs in Hs'. rewrite He in He'. inversion Hs'. inversion He'. subst ss es.
  clear Hs' He'.
  set (ss := [5; 6 + (n - 10) / 4; 6 + (n - 10) / 2; 6 + 3 * (n - 10) / 4]) in *.
  set (es := [5 + (n - 10) / 4; 5 + (n - 10) / 2; 5 + 3 * (n - 10) / 4; n - 6]) in *.
  set (st0 := call_setScanBuffersFor 0 n st).
  assert (Hne : forall k sp ep,
             ss !! k = Some sp -> es !! k = Some ep -> 1 <= sp < ep).
  { intros k sp ep Hsp Hep. split.
    - apply lookup4 in Hsp.
      destruct Hsp as [[_ ->]|[[_ ->]|[[_ ->]|[_ ->]]]];
        Z.div_mod_to_equations; lia.
    - apply (proj2 Hiff ltac:(lia) k sp ep Hsp Hep). }
  assert (Hin : forall k ep,
             es !! k = Some ep -> ep <= Z.of_nat (length (_laserCloud st0))).
  { intros k ep Hep. change (Z.of_nat (length (_laserCloud st0))) with n.
    apply lookup4 in Hep.
    destruct Hep as [[_ ->]|[[_ ->]|[[_ ->]|[_ ->]]]];
      Z.div_mod_to_equations; lia. }
  assert (Hpicked : (length (_laserCloud st0)
                     <= length (_scanNeighborPicked st0))%nat).
  { cbn. apply setScanBuffersFor_length. }
  assert (Hbig : Z.of_nat (length (_laserCloud st0)) <= 2 ^ 63).
  { change (Z.of_nat (length (_laserCloud st0))) with n. lia. }
  assert (Hfuel : 0 + Z.of_nat (Z.to_nat (nFeatureRegions cfg))
                  <= Z.of_nat (length ss)).
  { cbn [length ss]. lia. }
  destruct (regionsLoop_total ss es (Z.to_nat (nFeatureRegions cfg)) Hne eq_refl
              0 st0 [] ltac:(lia) Hfuel Hin Hbig Hpicked) as ([st1 less] & Hrun).
  rewrite Hrun. cbn [bind]. eexists. reflexivity.
Qed.

End Totality.

(** ** The scripted collaborators keep their contracts *)

Lemma scripted_mark_marks (picked : list Z) (i v : Z) :
  vec_get picked i = Ok v -> marked (Scripted.mark picked i) i.
Proof.
  intros Hget. pose proof (vec_get_range _ _ _ Hget) as Hr.
  unfold Scripted.mark. destruct (Z.leb_spec 0 i); [| lia].
  exists 1. split; [| discriminate].
  apply vec_get_Ok. split; [lia |]. apply list_lookup_insert_eq. lia.
Qed.

Lemma scripted_mark_keeps (picked : list Z) (i k : Z) :
  marked picked k -> marked (Scripted.mark picked i) k.
Proof.
  intros (v & Hget & Hv). unfold Scripted.mark.
  destruct (Z.leb_spec 0 i); [| exists v; auto].
  pose proof (vec_get_range _ _ _ Hget) as Hr.
  apply vec_get_Ok in Hget as [Hk Hget].
  destruct (Z.eq_dec i k) as [-> | Hne].
  - exists 1. split; [| discriminate].
    apply vec_get_Ok. split; [lia |]. apply list_lookup_insert_eq. lia.
  - exists v. split; [| exact Hv].
    apply vec_get_Ok. split; [lia |].
    rewrite list_lookup_insert_ne by lia. exact Hget.
Qed.

Lemma scripted_labels (script : list float) (startIdx endIdx : Z) :
  length (rb_label (Scripted.region_buffers script startIdx endIdx))
  = Z.to_nat (endIdx - startIdx + 1).
Proof. cbn. apply length_replicate. Qed.

Lemma scripted_labels_default (script : list float) (startIdx endIdx : Z) :
  Forall (fun l => l = SURFACE_LESS_FLAT)
    (rb_label (Scripted.region_buffers script startIdx endIdx)).
Proof. cbn. apply Forall_replicate. reflexivity. Qed.

Lemma insert_sorted_length (curv : Z -> float) (i : Z) (l : list Z) :
  length (Scripted.insert_sorted curv i l) = S (length l).
Proof.
  induction l as [| k l IH]; [reflexivity |]. cbn [Scripted.insert_sorted].
  destruct (PrimFloat.ltb (curv i) (curv k)); cbn [length]; congruence.
Qed.

Lemma insert_sorted_Forall (P : Z -> Prop) (curv : Z -> float) (i : Z)
    (l : list Z) :
  P i -> Forall P l -> Forall P (Scripted.insert_sorted curv i l).
Proof.
  intros Hi Hl. induction Hl as [| k l Hk Hl IH]; cbn [Scripted.insert_sorted].
  - constructor; [exact Hi | constructor].
  - destruct (PrimFloat.ltb (curv i) (curv k)).
    + constructor; [exact Hi |]. constructor; assumption.
    + constructor; assumption.
Qed.

Lemma sort_indices_fits (P : Z -> Prop) (curv : Z -> float) (l : list Z) :
  Forall P l ->
  length (Scripted.sort_indices curv l) = length l /\
  Forall P (Scripted.sort_indices curv l).
Proof.
  unfold Scripted.sort_indices. intros Hl.
  assert (Hgen : forall acc, Forall P acc ->
            length (fold_left (fun acc i => Scripted.insert_sorted curv i acc) l acc)
            = (length l + length acc)%nat /\
            Forall P (fold_left (fun acc i => Scripted.insert_sorted curv i acc) l acc)).
  { induction Hl as [| i l Hi Hl IH]; intros acc Hacc; [auto |].
    cbn [fold_left length].
    destruct (IH (Scripted.insert_sorted curv i acc)
                (insert_sorted_Forall P curv i acc Hi Hacc)) as [Hlen Hall].
    rewrite insert_sorted_length in Hlen. split; [lia | exact Hall]. }
  destruct (Hgen [] ltac:(constructor)) as [Hlen Hall].
  cbn [length] in Hlen. split; [lia | exact Hall].
Qed.

Lemma scripted_buffers_fit (script : list float) (startIdx endIdx : Z) :
  startIdx <= endIdx ->
  let rb := Scripted.region_buffers script startIdx endIdx in
  Z.of_nat (length (rb_sortIndices rb)) = endIdx - startIdx + 1 /\
  Forall (fun i => startIdx <= i <= endIdx) (rb_sortIndices rb) /\
  Z.of_nat (length (rb_curvature rb)) = endIdx - startIdx + 1 /\
  Z.of_nat (length (rb_label rb)) = endIdx - startIdx + 1.
Proof.
  intros Hle. cbn.
  set (n := Z.to_nat (endIdx - startIdx + 1)).
  assert (Hidx : Forall (fun i => startIdx <= i <= endIdx)
                   (map (fun k => startIdx + Z.of_nat k) (seq 0 n))).
  { apply Forall_forall. intros i Hi.
    apply list_elem_of_fmap in Hi as (k & -> & Hk).
    apply elem_of_seq in Hk. lia. }
  destruct (sort_indices_fits _ (Scripted.curvature_at script) _ Hidx)
    as [Hlen Hall].
  rewrite Hlen, !length_map, length_seq, length_replicate.
  split; [lia |]. split; [exact Hall |]. split; lia.
Qed.

(** With the scripted collaborators and the default parameters, every
    scan of 19 to 2^31 points is processed to the end. *)
Lemma scripted_extractFeatures_returns (script : list float)
    (period threshold leaf : float)
    (st : ScanRegistration float float Scripted.Recorder) :
  19 <= Z.of_nat (length (_laserCloud st)) <= 2 ^ 31 ->
  exists st',
    extractFeatures (EXT := Scripted.provider script)
      (Scripted.defaults period threshold leaf) st = Ok st'.
Proof.
  intros Hn.
  apply (extractFeatures_total (EXT := Scripted.provider script)).
  - intros cloud s e Hle. apply scripted_buffers_fit. exact Hle.
  - intros cloud s e. cbn. rewrite length_replicate. lia.
  - intros cloud picked i k. cbn. unfold Scripted.mark.
    destruct (0 <=? k); [rewrite length_insert |]; lia.
  - cbn. unfold INT_MIN, INT_MAX. lia.
  - exact Hn.
  - cbn. lia.
Qed.

(** ** Runs on concrete scans *)

Lemma region_quotas_witness :
  let cfg := Scripted.defaults 0.5 0.5 0.5 in
  let st := call_setScanBuffersFor (EXT := Scripted.provider (Scripted.zigzag 30))
              0 30 (Scripted.withCloud (Scripted.scanOf 30) (Scripted.initial false)) in
  exists st' less',
    extractRegion (EXT := Scripted.provider (Scripted.zigzag 30)) cfg 5 10 st []
    = Ok (st', less') /\
    (countLabel isSharp (_regionLabel st') <= 2 /\
     countLabel isSharp (_regionLabel st') + countLabel isLessSharp (_regionLabel st')
     <= 20 /\
     countLabel isFlat (_regionLabel st') <= 4) /\
    (Z.of_nat (length (_cornerPointsSharp st'))
     <= Z.of_nat (length (_cornerPointsSharp st)) + 2 /\
     Z.of_nat (length (_cornerPointsSharp st'))
     + Z.of_nat (length (_cornerPointsLessSharp st'))
     <= Z.of_nat (length (_cornerPointsSharp st))
        + Z.of_nat (length (_cornerPointsLessSharp st)) + 20 /\
     Z.of_nat (length (_surfacePointsFlat st'))
     <= Z.of_nat (length (_surfacePointsFlat st)) + 4).
Proof.
  intros cfg st.
  destruct (extractRegion (EXT := Scripted.provider (Scripted.zigzag 30))
              cfg 5 10 st []) as [[st' less'] | e] eqn:Hrun;
    [| vm_compute in Hrun; discriminate].
  exists st', less'. split; [reflexivity |].
  apply (region_quotas (EXT := Scripted.provider (Scripted.zigzag 30))
           cfg 5 10 st st' [] less').
  - cbn. lia.
  - cbn. lia.
  - cbn. lia.
  - apply scripted_labels_default.
  - exact Hrun.
Defined.

Lemma sweep_declared_iff_witness :
  let cfg := Scripted.defaults 0.5 0.5 0.5 in
  let st := Scripted.initial true in
  let laserCloudIn := Scripted.rawBatch 20 in
  exists st' pub,
    process (EXT := Scripted.provider (Scripted.zigzag 20)) cfg st laserCloudIn 1%float
    = Ok (st', pub) /\
    exists first last stR st1 less,
      sweepPoints laserCloudIn = Ok (first, last) /\
      let disagrees :=
        flt (fmul (laserAngle (EXT := Scripted.provider (Scripted.zigzag 20))
                     first last) (f_of_int (_laserRotDir st))) (f_of_int 0) in
      let elapsed :=
        flt (scanPeriod cfg) (fsub 1%float (_sweepStart st)) in
      let scan := ingest (EXT := Scripted.provider (Scripted.zigzag 20))
                    laserCloudIn defaultPoint (_imu stR) [] in
      detectSweep (EXT := Scripted.provider (Scripted.zigzag 20)) cfg st
        laserCloudIn 1%float = Ok (stR, disagrees && elapsed) /\
      extractRegions (EXT := Scripted.provider (Scripted.zigzag 20)) cfg
        (set_laserCloud (fst scan) (snd scan) stR) = Ok (st1, less) /\
      (disagrees = true /\ elapsed = true ->
       _laserRotDir st' = - _laserRotDir st /\
       _sweepStart st' = 1%float /\
       _surfacePointsLessFlat stR = [] /\
       _surfacePointsLessFlat st' = less) /\
      (disagrees = false \/ elapsed = false ->
       _laserRotDir st' = _laserRotDir st /\
       _sweepStart st' = _sweepStart st /\
       _surfacePointsLessFlat st' = _surfacePointsLessFlat st ++ less).
Proof.
  intros cfg st laserCloudIn.
  destruct (process (EXT := Scripted.provider (Scripted.zigzag 20)) cfg st
              laserCloudIn 1%float) as [[st' pub] | e] eqn:Hrun;
    [| vm_compute in Hrun; discriminate].
  exists st', pub. split; [reflexivity |].
  exact (sweep_declared_iff (EXT := Scripted.provider (Scripted.zigzag 20))
           cfg st st' laserCloudIn 1%float pub Hrun).
Defined.

Lemma invalid_points_dropped_witness :
  let cfg := Scripted.defaults 0.5 0.5 0.5 in
  let st := Scripted.initial false in
  let laserCloudIn :=
    mkPointXYZ PrimFloat.nan 1%float 0%float
    :: mkPointXYZ 0%float 0%float 0%float :: Scripted.rawBatch 20 in
  (exists st' pub,
      process (EXT := Scripted.provider (Scripted.zigzag 20)) cfg st laserCloudIn
        1%float = Ok (st', pub)) /\
  exists stR newSweep,
    detectSweep (EXT := Scripted.provider (Scripted.zigzag 20)) cfg st
      laserCloudIn 1%float = Ok (stR, newSweep) /\
    let valid := fun p : PointXYZ float =>
      pcl_isfinite (in_y p) && pcl_isfinite (in_z p) && pcl_isfinite (in_x p)
      && negb (flt (fadd (fadd (fmul (in_y p) (in_y p)) (fmul (in_z p) (in_z p)))
                         (fmul (in_x p) (in_x p)))
                   f_0_0001) in
    let kept := List.filter valid laserCloudIn in
    let scan := ingest (EXT := Scripted.provider (Scripted.zigzag 20)) kept
                  defaultPoint (_imu stR) [] in
    ingest (EXT := Scripted.provider (Scripted.zigzag 20)) laserCloudIn
      defaultPoint (_imu stR) [] = scan /\
    process (EXT := Scripted.provider (Scripted.zigzag 20)) cfg st laserCloudIn
      1%float
    = (if Z.of_nat (length laserCloudIn) <=? INT_MAX
       then do st' <- extractFeatures
                        (EXT := Scripted.provider (Scripted.zigzag 20)) cfg
                        (set_laserCloud (fst scan) (snd scan) stR);
            Ok (st', publishResult st')
       else Err Undefined) /\
    Forall2 (derivedFrom (EXT := Scripted.provider (Scripted.zigzag 20)))
      kept (snd scan) /\
    (hasIMUData (Collaborators := Scripted.provider (Scripted.zigzag 20))
       (_imu stR) = false ->
     Forall (fun q => pcl_isfinite (pt_x q) = true /\ pcl_isfinite (pt_y q) = true /\
                      pcl_isfinite (pt_z q) = true /\
                      flt (fadd (fadd (fmul (pt_x q) (pt_x q))
                                      (fmul (pt_y q) (pt_y q)))
                                (fmul (pt_z q) (pt_z q)))
                          f_0_0001 = false)
            (snd scan)) /\
    forall st' pub,
      process (EXT := Scripted.provider (Scripted.zigzag 20)) cfg st laserCloudIn
        1%float = Ok (st', pub) ->
      pub_laserCloud pub = snd scan /\
      (forall q, q ∈ pub_cornerPointsSharp pub \/
                 q ∈ pub_cornerPointsLessSharp pub \/
                 q ∈ pub_surfacePointsFlat pub -> q ∈ pub_laserCloud pub) /\
      exists less,
        (forall q, q ∈ less -> q ∈ pub_laserCloud pub) /\
        pub_surfacePointsLessFlat pub = _surfacePointsLessFlat stR ++ less.
Proof.
  intros cfg st laserCloudIn.
  split.
  { destruct (process (EXT := Scripted.provider (Scripted.zigzag 20)) cfg st
                laserCloudIn 1%float) as [[st' pub] | e] eqn:Hrun;
      [| vm_compute in Hrun; discriminate].
    exists st', pub. reflexivity. }
  destruct (detectSweep (EXT := Scripted.provider (Scripted.zigzag 20)) cfg st
              laserCloudIn 1%float) as [[stR newSweep] | e] eqn:Hsweep;
    [| vm_compute in Hsweep; discriminate].
  exists stR, newSweep. split; [reflexivity |].
  exact (invalid_points_dropped (EXT := Scripted.provider (Scripted.zigzag 20))
           cfg st stR laserCloudIn 1%float newSweep Hsweep).
Defined.

Lemma feature_classes_witness :
  let cfg := Scripted.defaults 0.5 0.5 0.5 in
  let st := Scripted.withCloud (Scripted.scanOf 30) (Scripted.initial false) in
  exists st' less,
    extractRegions (EXT := Scripted.provider (Scripted.zigzag 30)) cfg st
    = Ok (st', less) /\
    exists (sharp lessSharp flat lessFlat : list Z)
           (ptsS ptsL ptsF : list (PointXYZI float)),
      _cornerPointsSharp st' = _cornerPointsSharp st ++ ptsS /\
      atIndices (_laserCloud st) sharp ptsS /\
      _cornerPointsLessSharp st' = _cornerPointsLessSharp st ++ ptsL /\
      atIndices (_laserCloud st) lessSharp ptsL /\
      _surfacePointsFlat st' = _surfacePointsFlat st ++ ptsF /\
      atIndices (_laserCloud st) flat ptsF /\
      atIndices (_laserCloud st) lessFlat less /\
      NoDup (sharp ++ lessSharp ++ flat) /\
      NoDup (sharp ++ lessSharp ++ lessFlat) /\
      (forall i, i ∈ flat -> i ∈ lessFlat) /\
      Z.of_nat (length sharp) + Z.of_nat (length lessSharp)
      + Z.of_nat (length lessFlat) <= Z.of_nat (length (_laserCloud st)).
Proof.
  intros cfg st.
  destruct (extractRegions (EXT := Scripted.provider (Scripted.zigzag 30)) cfg st)
    as [[st' less] | e] eqn:Hrun; [| vm_compute in Hrun; discriminate].
  exists st', less. split; [reflexivity |].
  apply (feature_classes (EXT := Scripted.provider (Scripted.zigzag 30))
           (fun _ picked i v => scripted_mark_marks picked i v)
           (fun _ picked i k => scripted_mark_keeps picked i k)
           (fun _ s e _ => scripted_labels (Scripted.zigzag 30) s e)
           cfg st st' less).
  - cbn. lia.
  - exact Hrun.
Defined.

(** C6 (as stated) fails on a scan of 20 points with flat points at the
    even indices: the test of line 247 holds for SURFACE_FLAT as well, so
    the flat point at scan index 6 is pushed to the flat cloud and to the
    less flat candidates, and it is in both emitted clouds. *)
Lemma flat_points_are_less_flat_too :
  let cfg := Scripted.defaults 0.5 0.5 0.5 in
  let q := mkPointXYZI 1%float 0%float 14%float 0%float in
  exists st' pub st1 less,
    process (EXT := Scripted.provider (Scripted.zigzag 20)) cfg
      (Scripted.initial false) (Scripted.rawBatch 20) 1%float = Ok (st', pub) /\
    extractRegions (EXT := Scripted.provider (Scripted.zigzag 20)) cfg
      (Scripted.withCloud (pub_laserCloud pub) (Scripted.initial false))
    = Ok (st1, less) /\
    vec_get (pub_laserCloud pub) 6 = Ok q /\
    q ∈ _surfacePointsFlat st1 /\ q ∈ less /\
    q ∈ pub_surfacePointsFlat pub /\ q ∈ pub_surfacePointsLessFlat pub /\
    ~ classes_disjoint_as_specified
        (pub_cornerPointsSharp pub) (pub_cornerPointsLessSharp pub)
        (pub_surfacePointsFlat pub) (pub_surfacePointsLessFlat pub).
Proof.
  intros cfg q.
  eexists _, _, _, _.
  split; [vm_compute; reflexivity |].
  split; [vm_compute; reflexivity |].
  assert (Hflat : q ∈ [mkPointXYZI 1%float 0%float 14%float 0%float;
                       mkPointXYZI 1%float 0%float 12%float 0%float])
    by (apply elem_of_cons; left; reflexivity).
  assert (Hless : q ∈ [mkPointXYZI 1%float 0%float 14%float 0%float;
                       mkPointXYZI 1%float 0%float 12%float 0%float;
                       mkPointXYZI 1%float 0%float 9%float 0%float;
                       mkPointXYZI 1%float 0%float 7%float 0%float])
    by (apply elem_of_cons; left; reflexivity).
  split; [vm_compute; reflexivity |].
  split; [exact Hflat |]. split; [exact Hless |].
  split; [exact Hflat |]. split; [exact Hless |].
  intros Hdisjoint. destruct (Hdisjoint q) as (_ & _ & _ & _ & _ & Hfl).
  apply Hfl. split; [exact Hflat | exact Hless].
Qed.

(** C2: nothing guards a scan too short for its regions.  For a scan of 10
    valid points the tables are [5, 6, 6, 6] and [5, 5, 5, 4]; region 0 has
    length 0, the corner pass starts at position [regionSize - 1], which
    wraps to 2^64 - 1, and reads [_regionSortIndices] there.  The access is
    outside the vector, so [extractFeatures] and with it [process] end
    there, before [publishResult]; below 10 points the tables themselves
    are undefined, the quotient being outside the range of [int]. *)
Theorem degenerate_scan_out_of_bounds :
  let cfg := Scripted.defaults 0.5 0.5 0.5 in
  let st := Scripted.withCloud (Scripted.scanOf 10) (Scripted.initial false) in
  startPoints 10 = Ok [5; 6; 6; 6] /\ endPoints 10 = Ok [5; 5; 5; 4] /\
  wrap64 (wrap64 (5 - 5) - 1) = 2 ^ 64 - 1 /\
  vec_get (@nil Z) (2 ^ 64 - 1) = Err OutOfBounds /\
  extractRegion (EXT := Scripted.provider (Scripted.zigzag 10)) cfg 5 5
    (call_setScanBuffersFor (EXT := Scripted.provider (Scripted.zigzag 10)) 0 10 st)
    [] = Err OutOfBounds /\
  extractFeatures (EXT := Scripted.provider (Scripted.zigzag 10)) cfg st
  = Err OutOfBounds /\
  process (EXT := Scripted.provider (Scripted.zigzag 10)) cfg
    (Scripted.initial false) (Scripted.rawBatch 10) 1%float = Err OutOfBounds /\
  startPoints 9 = Err Undefined.
Proof. intros cfg st. repeat split; reflexivity. Qed.

(** C3: the corner pass leaves out position 0 of the sorted order, its
    loop running while [j > 0].  In a region of two points, both above the
    threshold and neither suppressed, with room for two sharp corners, only
    the point at position 1 is labelled; the point at position 0, scan
    index 5, is still an unsuppressed candidate above the threshold when the
    region is done. *)
Theorem corner_pass_skips_position_zero :
  let cfg := Scripted.defaults 0.5 0.5 0.5 in
  let st := call_setScanBuffersFor (EXT := Scripted.provider (Scripted.rising 20))
              0 20 (Scripted.withCloud (Scripted.scanOf 20) (Scripted.initial false)) in
  exists st' less,
    extractRegion (EXT := Scripted.provider (Scripted.rising 20)) cfg 5 7 st []
    = Ok (st', less) /\
    _regionSortIndices st' = [5; 6] /\
    _regionLabel st' = [SURFACE_LESS_FLAT; CORNER_SHARP] /\
    _cornerPointsSharp st' = [Scripted.scanPoint 7] /\
    _cornerPointsLessSharp st' = [] /\
    candidate cfg true 5 (wrap64 (5 - 5)) st' = Ok true /\
    Z.of_nat (length (_cornerPointsSharp st')) < maxCornerSharp cfg /\
    Z.of_nat (length (_cornerPointsSharp st')) < maxCornerLessSharp cfg.
Proof.
  intros cfg st. eexists _, _.
  split; [vm_compute; reflexivity |].
  vm_compute. repeat split.
Qed.

(** * Further properties of the code *)

(** ** Scans too short for their regions *)

Lemma startPoints_below_10 (n : Z) :
  0 <= n < 10 -> startPoints n = Err Undefined.
Proof.
  intros Hn. unfold startPoints. rewrite wrap64_neg by lia.
  unfold int_of_quotient, INT_MAX.
  destruct (Z.leb_spec ((n - 10 + 2 ^ 64) / 4) (2 ^ 31 - 1)) as [Hle | _];
    [| reflexivity].
  exfalso. Z.div_mod_to_equations. lia.
Qed.

Section ShortScans.
Context {F Time IMU : Type} {FO : FloatOps F} {EXT : Collaborators F Time IMU}.

Abbreviation State := (ScanRegistration F Time IMU).
Abbreviation Cloud := (list (PointXYZI F)).

Lemma extractFeatures_below_10 (cfg : RegistrationParams F) (st : State) :
  Z.of_nat (length (_laserCloud st)) < 10 ->
  extractFeatures cfg st = Err Undefined.
Proof.
  intros Hn. unfold extractFeatures, extractRegions.
  rewrite startPoints_below_10 by lia. reflexivity.
Qed.

Lemma ingest_length (laserCloudIn : list (PointXYZ F)) :
  forall (point : PointXYZI F) (imu : IMU) (scan : Cloud),
    length (snd (ingest laserCloudIn point imu scan))
    = (length scan + length (List.filter keepRaw laserCloudIn))%nat.
Proof.
  intros point imu scan.
  destruct (ingest_filter laserCloudIn point imu scan) as (new & -> & Hall & _).
  rewrite length_app. apply Forall2_length in Hall. lia.
Qed.

(** X1: a batch that is not empty but has fewer than 10 points passing the
    filter is never published: the sweep detection goes through, the scan
    buffer gets its few points, and [extractFeatures] ends in the undefined
    conversion of [(cloudSize - 10) / 4.0], whatever the parameters and the
    collaborators. *)
Theorem process_needs_ten_valid_points (cfg : RegistrationParams F)
    (st : State) (p : PointXYZ F) (rest : list (PointXYZ F)) (scanTime : Time) :
  Z.of_nat (length (p :: rest)) < 2 ^ 64 ->
  (length (List.filter keepRaw (p :: rest)) < 10)%nat ->
  (exists stR newSweep,
      detectSweep cfg st (p :: rest) scanTime = Ok (stR, newSweep)) /\
  process cfg st (p :: rest) scanTime = Err Undefined.
Proof.
  intros Hlen Hkept.
  destruct (detectSweep_nonempty cfg st scanTime p rest Hlen)
    as (stR & b & Hsweep).
  split; [exists stR, b; exact Hsweep |].
  unfold process. rewrite Hsweep. cbn [bind fst]. unfold ingestBatch.
  destruct (Z.of_nat (length (p :: rest)) <=? INT_MAX); [| reflexivity].
  cbn [bind fst snd]. rewrite extractFeatures_below_10; [reflexivity |].
  cbn [_laserCloud set_laserCloud]. rewrite ingest_length. cbn [length]. lia.
Qed.

(** The contract of the provider that the next property needs: for an
    empty range it does not return 2^64 - 1 sort indices or more. *)
Hypothesis sortIndices_short :
  forall (cloud : Cloud) (startIdx : Z),
    1 <= startIdx ->
    Z.of_nat (length (rb_sortIndices
                        (setRegionBuffersFor cloud startIdx (startIdx - 1))))
    < 2 ^ 64 - 1.

(** The loop over the regions does not get past a region of length 0. *)
Lemma regionsLoop_stops_at_empty_region (cfg : RegistrationParams F)
    (ss es : list Z) (k : nat) (sp : Z) :
  0 < maxCornerLessSharp cfg ->
  1 <= sp < 2 ^ 64 ->
  ss !! k = Some sp -> es !! k = Some sp ->
  forall (fuel : nat) (i : Z) (st : State) (less : Cloud),
    0 <= i <= Z.of_nat k -> Z.of_nat k < i + Z.of_nat fuel ->
    exists e, regionsLoop cfg ss es fuel i st less = Err e.
Proof.
  intros Hquota Hrange Hsp Hep.
  induction fuel as [| fuel IH]; intros i st less Hi Hk; [lia |].
  cbn [regionsLoop].
  destruct (vec_get ss i) as [spi | e] eqn:Hspi; [| eexists; reflexivity].
  destruct (vec_get es i) as [epi | e] eqn:Hepi; [| eexists; reflexivity].
  cbn [bind].
  destruct (Z.eq_dec i (Z.of_nat k)) as [-> | Hne].
  - apply vec_get_Ok in Hspi as [_ Hspi]. apply vec_get_Ok in Hepi as [_ Hepi].
    rewrite Nat2Z.id in Hspi, Hepi.
    rewrite Hsp in Hspi. rewrite Hep in Hepi.
    inversion Hspi; inversion Hepi; subst spi epi.
    rewrite empty_region_out_of_bounds;
      [eexists; reflexivity | exact Hquota |].
    rewrite wrap64_small by lia. apply sortIndices_short. lia.
  - destruct (extractRegion cfg spi epi st less) as [r | e];
      [| eexists; reflexivity].
    cbn [bind]. apply IH; lia.
Qed.

(** X2: with four regions and a corner quota above 0, [extractFeatures]
    returns on no scan of 18 points or fewer.  Below 10 points the tables
    are undefined; from 10 to 18 points one of the four regions has length
    0, and the corner pass of that region reads outside the vector of sort
    indices. *)
Theorem scan_below_19_never_completes (cfg : RegistrationParams F) (st : State) :
  nFeatureRegions cfg = 4 ->
  0 < maxCornerLessSharp cfg ->
  Z.of_nat (length (_laserCloud st)) <= 18 ->
  exists e, extractFeatures cfg st = Err e.
Proof.
  intros Hregions Hquota Hn.
  destruct (Z_lt_le_dec (Z.of_nat (length (_laserCloud st))) 10) as [Hlt | Hge].
  { exists Undefined. apply extractFeatures_below_10. exact Hlt. }
  unfold extractFeatures, extractRegions.
  set (n := Z.of_nat (length (_laserCloud st))) in *.
  set (st0 := call_setScanBuffersFor 0 n st). clearbody st0.
  rewrite Hregions. change (Z.to_nat (wrap64 4)) with 4%nat.
  assert (Hcase : n = 10 \/ n = 11 \/ n = 12 \/ n = 13 \/ n = 14 \/ n = 15 \/
                  n = 16 \/ n = 17 \/ n = 18) by lia.
  assert (Hstop : forall ss es (k : nat) sp,
             ss !! k = Some sp -> es !! k = Some sp -> (k < 4)%nat ->
             1 <= sp < 2 ^ 64 ->
             exists e, regionsLoop cfg ss es 4 0 st0 [] = Err e).
  { intros ss es k sp Hsp Hep Hk Hrange.
    apply (regionsLoop_stops_at_empty_region cfg ss es k sp Hquota Hrange Hsp Hep);
      lia. }
  clearbody n.
  destruct Hcase as [-> | [-> | [-> | [-> | [-> | [-> | [-> | [-> | ->]]]]]]]];
    cbn [startPoints endPoints bind];
    match goal with
    | |- exists e, bind (bind ?S _) _ = _ =>
      let s := eval vm_compute in S in change S with s
    end; cbn [bind];
    match goal with
    | |- exists e, bind (bind ?E _) _ = _ =>
      let s := eval vm_compute in E in change E with s
    end; cbn [bind].
  all: match goal with
       | |- exists e, bind (regionsLoop _ ?ss ?es _ _ _ _) _ = _ =>
         first
           [ edestruct (Hstop ss es 0%nat) as [e He];
             [reflexivity | reflexivity | lia | lia |]
           | edestruct (Hstop ss es 1%nat) as [e He];
             [reflexivity | reflexivity | lia | lia |]
           | edestruct (Hstop ss es 2%nat) as [e He];
             [reflexivity | reflexivity | lia | lia |]
           | edestruct (Hstop ss es 3%nat) as [e He];
             [reflexivity | reflexivity | lia | lia |] ];
         rewrite He; exists e; reflexivity
       end.
Qed.

End ShortScans.

Lemma process_needs_ten_valid_points_witness :
  let cfg := Scripted.defaults 0.5 0.5 0.5 in
  let st := Scripted.initial false in
  let p := mkPointXYZ PrimFloat.nan 1%float 0%float in
  let rest := Scripted.rawBatch 9 in
  Z.of_nat (length (p :: rest)) < 2 ^ 64 /\
  (length (List.filter keepRaw (p :: rest)) < 10)%nat /\
  ((exists stR newSweep,
       detectSweep (EXT := Scripted.provider (Scripted.zigzag 9)) cfg st
         (p :: rest) 1%float = Ok (stR, newSweep)) /\
   process (EXT := Scripted.provider (Scripted.zigzag 9)) cfg st (p :: rest)
     1%float = Err Undefined).
Proof.
  intros cfg st p rest.
  assert (Hlen : Z.of_nat (length (p :: rest)) < 2 ^ 64) by (cbn; lia).
  assert (Hkept : (length (List.filter keepRaw (p :: rest)) < 10)%nat)
    by (vm_compute; repeat constructor).
  split; [exact Hlen |]. split; [exact Hkept |].
  exact (process_needs_ten_valid_points
           (EXT := Scripted.provider (Scripted.zigzag 9)) cfg st p rest 1%float
           Hlen Hkept).
Defined.

Lemma scripted_sortIndices_short (script : list float) (startIdx : Z) :
  1 <= startIdx ->
  Z.of_nat (length (rb_sortIndices
                      (Scripted.region_buffers script startIdx (startIdx - 1))))
  < 2 ^ 64 - 1.
Proof.
  intros _. unfold Scripted.region_buffers. cbn [rb_sortIndices].
  replace (startIdx - 1 - startIdx + 1) with 0 by lia. reflexivity.
Qed.

Lemma scan_below_19_never_completes_witness :
  let cfg := Scripted.defaults 0.5 0.5 0.5 in
  let st := Scripted.withCloud (Scripted.scanOf 16) (Scripted.initial false) in
  nFeatureRegions cfg = 4 /\ 0 < maxCornerLessSharp cfg /\
  Z.of_nat (length (_laserCloud st)) <= 18 /\
  exists e, extractFeatures (EXT := Scripted.provider (Scripted.zigzag 16)) cfg st
            = Err e.
Proof.
  intros cfg st.
  assert (H1 : nFeatureRegions cfg = 4) by reflexivity.
  assert (H2 : 0 < maxCornerLessSharp cfg) by (cbn; lia).
  assert (H3 : Z.of_nat (length (_laserCloud st)) <= 18) by (cbn; lia).
  split; [exact H1 |]. split; [exact H2 |]. split; [exact H3 |].
  exact (scan_below_19_never_completes
           (EXT := Scripted.provider (Scripted.zigzag 16))
           (fun _ => scripted_sortIndices_short (Scripted.zigzag 16))
           cfg st H1 H2 H3).
Defined.

(** ** The regions of a scan, taken together *)

Section ScanLevel.
Context {F Time IMU : Type} {FO : FloatOps F} {EXT : Collaborators F Time IMU}.

Abbreviation State := (ScanRegistration F Time IMU).
Abbreviation Cloud := (list (PointXYZI F)).

(** The loop over the regions reads the tables at [i], [i+1], ...: it does
    not return when there are more turns than entries. *)
Lemma regionsLoop_past_tables (cfg : RegistrationParams F) (ss es : list Z)
    (fuel : nat) :
  forall (i : Z) (st : State) (less : Cloud),
    0 <= i <= Z.of_nat (length ss) ->
    Z.of_nat (length ss) < i + Z.of_nat fuel ->
    exists e, regionsLoop cfg ss es fuel i st less = Err e.
Proof.
  induction fuel as [| fuel IH]; intros i st less Hi Hlen.
  - lia.
  - cbn [regionsLoop].
    destruct (vec_get ss i) as [sp | e] eqn:Hsp; [| eexists; reflexivity].
    apply vec_get_range in Hsp.
    destruct (vec_get es i) as [ep | e]; [| eexists; reflexivity].
    cbn [bind].
    destruct (extractRegion cfg sp ep st less) as [r | e];
      [| eexists; reflexivity].
    cbn [bind]. apply IH; lia.
Qed.

Lemma startPoints_length (n : Z) (ss : list Z) :
  startPoints n = Ok ss -> length ss = 4%nat.
Proof.
  unfold startPoints. intros H.
  repeat (apply bind_Ok in H as (? & _ & H)). inversion H. reflexivity.
Qed.

(** X3: the tables have four entries.  With [nFeatureRegions] above 4, or
    negative and so huge as a [size_t], [extractFeatures] does not return
    on any scan: the fifth turn of the loop reads [startPoints[4]]. *)
Theorem more_than_four_regions_never_complete (cfg : RegistrationParams F)
    (st : State) :
  4 < wrap64 (nFeatureRegions cfg) ->
  exists e, extractFeatures cfg st = Err e.
Proof.
  intros Hregions. unfold extractFeatures, extractRegions.
  destruct (startPoints (Z.of_nat (length (_laserCloud st)))) as [ss | e] eqn:Hss;
    [| eexists; reflexivity].
  destruct (endPoints (Z.of_nat (length (_laserCloud st)))) as [es | e];
    [| eexists; reflexivity].
  cbn [bind]. apply startPoints_length in Hss.
  edestruct (regionsLoop_past_tables cfg ss es
               (Z.to_nat (wrap64 (nFeatureRegions cfg))) 0) as [e He];
    [lia | rewrite Hss; lia |].
  rewrite He. exists e. reflexivity.
Qed.

(** A quantity as in [picking_bounded] that the provider's buffers do not
    touch grows in the loop over the regions by at most the bounds of the
    two passes, once for every turn. *)
Lemma regionsLoop_bounded (cfg : RegistrationParams F) (ss es : list Z)
    (P : PointLabel -> bool) (mu : State -> Z) (bc bf : Z -> Z) :
  (forall l lbl p scanIdx st i,
      0 <= i ->
      vec_set (_regionLabel st) i l = Ok lbl ->
      mu (accepted l lbl p scanIdx st) <= mu st + (if P l then 1 else 0)) ->
  (forall s e st, mu (call_setRegionBuffersFor s e st) = mu st) ->
  (forall c, c < maxCornerLessSharp cfg ->
             bc (c + 1) + (if P (cornerLabel cfg (c + 1)) then 1 else 0) <= bc c) ->
  (forall c, 0 <= bc c) ->
  (forall c, c < maxSurfaceFlat cfg ->
             bf (c + 1) + (if P (flatLabel (c + 1)) then 1 else 0) <= bf c) ->
  (forall c, 0 <= bf c) ->
  forall (fuel : nat) (i : Z) (st st' : State) (less less' : Cloud),
    regionsLoop cfg ss es fuel i st less = Ok (st', less') ->
    mu st' <= mu st + Z.of_nat fuel * (bc 0 + bf 0).
Proof.
  intros Hstep Hframe Hbc Hbc0 Hbf Hbf0.
  induction fuel as [| fuel IH]; intros i st st' less less' Hrun; cbn in Hrun.
  - inversion Hrun. lia.
  - apply bind_Ok in Hrun as (sp & _ & Hrun).
    apply bind_Ok in Hrun as (ep & _ & Hrun).
    apply bind_Ok in Hrun as ([st1 less1] & Hregion & Hrun).
    cbn [fst snd] in Hrun. apply IH in Hrun.
    pose proof (region_bounded cfg sp ep P mu bc bf st st1 less less1
                  Hstep Hbc Hbc0 Hbf Hbf0 Hregion) as Hr.
    rewrite Hframe in Hr. lia.
Qed.

Lemma regionsLoop_turns (cfg : RegistrationParams F) (ss es : list Z)
    (fuel : nat) (i : Z) (st : State) (less : Cloud) (r : State * Cloud) :
  0 <= i <= Z.of_nat (length ss) ->
  regionsLoop cfg ss es fuel i st less = Ok r ->
  i + Z.of_nat fuel <= Z.of_nat (length ss).
Proof.
  intros Hi Hrun.
  destruct (Z_le_gt_dec (i + Z.of_nat fuel) (Z.of_nat (length ss))) as [Hle | Hgt];
    [exact Hle |].
  assert (Hpast : Z.of_nat (length ss) < i + Z.of_nat fuel) by lia.
  destruct (regionsLoop_past_tables cfg ss es fuel i st less Hi Hpast)
    as [e He].
  congruence.
Qed.

(** X4: a scan adds to the sharp cloud at most [maxCornerSharp] points for
    each of its regions, to the two corner clouds together at most
    [maxCornerLessSharp], and to the flat cloud at most [maxSurfaceFlat];
    the regions are [nFeatureRegions], four at most. *)
Theorem scan_quotas (cfg : RegistrationParams F) (st st' : State) (less : Cloud) :
  0 <= maxCornerSharp cfg ->
  0 <= maxCornerLessSharp cfg ->
  0 <= maxSurfaceFlat cfg ->
  extractRegions cfg st = Ok (st', less) ->
  let regions := wrap64 (nFeatureRegions cfg) in
  0 <= regions <= 4 /\
  Z.of_nat (length (_cornerPointsSharp st'))
  <= Z.of_nat (length (_cornerPointsSharp st)) + regions * maxCornerSharp cfg /\
  Z.of_nat (length (_cornerPointsSharp st'))
  + Z.of_nat (length (_cornerPointsLessSharp st'))
  <= Z.of_nat (length (_cornerPointsSharp st))
     + Z.of_nat (length (_cornerPointsLessSharp st))
     + regions * maxCornerLessSharp cfg /\
  Z.of_nat (length (_surfacePointsFlat st'))
  <= Z.of_nat (length (_surfacePointsFlat st)) + regions * maxSurfaceFlat cfg.
Proof.
  intros Hcs Hcls Hsf Hrun regions. unfold extractRegions in Hrun.
  apply bind_Ok in Hrun as (ss & Hss & Hrun).
  apply bind_Ok in Hrun as (es & _ & Hrun).
  apply startPoints_length in Hss.
  pose proof (wrap64_range (nFeatureRegions cfg)) as Hw. fold regions in Hw.
  assert (Hzero : 0 <= 0 <= Z.of_nat (length ss)) by lia.
  pose proof (regionsLoop_turns _ _ _ _ _ _ _ _ Hzero Hrun) as Hturns.
  rewrite Hss, Z2Nat.id in Hturns by lia.
  split; [lia |].
  assert (Hpsharp :
    Z.of_nat (length (_cornerPointsSharp st'))
    <= Z.of_nat (length (_cornerPointsSharp st))
       + Z.of_nat (Z.to_nat regions) * (Z.max 0 (maxCornerSharp cfg - 0) + 0)).
  { apply (regionsLoop_bounded cfg ss es isSharp
             (fun s => Z.of_nat (length (cloudOf CORNER_SHARP s)))
             (fun c => Z.max 0 (maxCornerSharp cfg - c)) (fun _ => 0)) in Hrun;
      [exact Hrun | ..].
    - apply pushes_step.
    - reflexivity.
    - apply corner_bound_sharp.
    - intros; lia.
    - intros; cbn; lia.
    - intros; lia. }
  assert (Hpcorner :
    Z.of_nat (length (_cornerPointsSharp st'))
    + Z.of_nat (length (_cornerPointsLessSharp st'))
    <= Z.of_nat (length (_cornerPointsSharp st))
       + Z.of_nat (length (_cornerPointsLessSharp st))
       + Z.of_nat (Z.to_nat regions) * (Z.max 0 (maxCornerLessSharp cfg - 0) + 0)).
  { apply (regionsLoop_bounded cfg ss es isCorner
             (fun s => Z.of_nat (length (_cornerPointsSharp s))
                       + Z.of_nat (length (_cornerPointsLessSharp s)))
             (fun c => Z.max 0 (maxCornerLessSharp cfg - c)) (fun _ => 0)) in Hrun;
      [exact Hrun | ..].
    - apply corner_pushes_step.
    - reflexivity.
    - apply corner_bound_corner.
    - intros; lia.
    - intros; cbn; lia.
    - intros; lia. }
  assert (Hpflat :
    Z.of_nat (length (_surfacePointsFlat st'))
    <= Z.of_nat (length (_surfacePointsFlat st))
       + Z.of_nat (Z.to_nat regions) * (0 + Z.max 0 (maxSurfaceFlat cfg - 0))).
  { apply (regionsLoop_bounded cfg ss es isFlat
             (fun s => Z.of_nat (length (cloudOf SURFACE_FLAT s)))
             (fun _ => 0) (fun c => Z.max 0 (maxSurfaceFlat cfg - c))) in Hrun;
      [exact Hrun | ..].
    - apply pushes_step.
    - reflexivity.
    - apply corner_bound_flat.
    - intros; lia.
    - apply flat_bound_flat.
    - intros; lia. }
  rewrite Z2Nat.id in Hpsharp, Hpcorner, Hpflat by lia.
  rewrite Z.sub_0_r, Z.max_r in Hpsharp, Hpcorner, Hpflat by lia.
  rewrite ?Z.add_0_r, ?Z.add_0_l in Hpsharp, Hpcorner, Hpflat.
  change (cloudOf CORNER_SHARP st') with (_cornerPointsSharp st') in Hpsharp.
  change (cloudOf CORNER_SHARP st) with (_cornerPointsSharp st) in Hpsharp.
  change (cloudOf SURFACE_FLAT st') with (_surfacePointsFlat st') in Hpflat.
  change (cloudOf SURFACE_FLAT st) with (_surfacePointsFlat st) in Hpflat.
  repeat split; lia.
Qed.

End ScanLevel.

Lemma more_than_four_regions_never_complete_witness :
  let cfg := mkParams 0.5%float 5 2 20 4 0.5%float 0.5%float in
  let st := Scripted.withCloud (Scripted.scanOf 30) (Scripted.initial false) in
  4 < wrap64 (nFeatureRegions cfg) /\
  exists e, extractFeatures (EXT := Scripted.provider (Scripted.zigzag 30)) cfg st
            = Err e.
Proof.
  intros cfg st.
  assert (Hregions : 4 < wrap64 (nFeatureRegions cfg)) by reflexivity.
  split; [exact Hregions |].
  exact (more_than_four_regions_never_complete
           (EXT := Scripted.provider (Scripted.zigzag 30)) cfg st Hregions).
Defined.

Lemma scan_quotas_witness :
  let cfg := Scripted.defaults 0.5 0.5 0.5 in
  let st := Scripted.withCloud (Scripted.scanOf 30) (Scripted.initial false) in
  exists st' less,
    extractRegions (EXT := Scripted.provider (Scripted.zigzag 30)) cfg st
    = Ok (st', less) /\
    0 <= wrap64 (nFeatureRegions cfg) <= 4 /\
    Z.of_nat (length (_cornerPointsSharp st'))
    <= Z.of_nat (length (_cornerPointsSharp st))
       + wrap64 (nFeatureRegions cfg) * maxCornerSharp cfg /\
    Z.of_nat (length (_cornerPointsSharp st'))
    + Z.of_nat (length (_cornerPointsLessSharp st'))
    <= Z.of_nat (length (_cornerPointsSharp st))
       + Z.of_nat (length (_cornerPointsLessSharp st))
       + wrap64 (nFeatureRegions cfg) * maxCornerLessSharp cfg /\
    Z.of_nat (length (_surfacePointsFlat st'))
    <= Z.of_nat (length (_surfacePointsFlat st))
       + wrap64 (nFeatureRegions cfg) * maxSurfaceFlat cfg.
Proof.
  intros cfg st.
  destruct (extractRegions (EXT := Scripted.provider (Scripted.zigzag 30)) cfg st)
    as [[st' less] | e] eqn:Hrun; [| vm_compute in Hrun; discriminate].
  exists st', less. split; [reflexivity |].
  apply (scan_quotas (EXT := Scripted.provider (Scripted.zigzag 30))
           cfg st st' less); [cbn; lia | cbn; lia | cbn; lia | exact Hrun].
Defined.

(** ** Batches that are processed to the end *)

Section Completion.
Context {F Time IMU : Type} {FO : FloatOps F} {EXT : Collaborators F Time IMU}.

Abbreviation State := (ScanRegistration F Time IMU).
Abbreviation Cloud := (list (PointXYZI F)).

Lemma filter_keepRaw_length (laserCloudIn : list (PointXYZ F)) :
  (length (List.filter keepRaw laserCloudIn) <= length laserCloudIn)%nat.
Proof.
  induction laserCloudIn as [| p rest IH]; cbn [List.filter length]; [lia |].
  destruct (keepRaw p); cbn [length]; lia.
Qed.

(** X5: with collaborators that keep the contracts of the buffers, four
    regions or fewer and [maxCornerSharp * 10] an [int], [process] returns
    on every batch of at most [INT_MAX] points, which the counter of the
    loop can count, of which 19 or more pass the filter; the scan buffer it
    leaves has one point for each of them. *)
Theorem process_completes_from_19_valid_points (cfg : RegistrationParams F)
    (st : State) (p : PointXYZ F) (rest : list (PointXYZ F)) (scanTime : Time) :
  (forall (cloud : Cloud) (startIdx endIdx : Z),
      startIdx <= endIdx ->
      let rb := setRegionBuffersFor cloud startIdx endIdx in
      Z.of_nat (length (rb_sortIndices rb)) = endIdx - startIdx + 1 /\
      Forall (fun i => startIdx <= i <= endIdx) (rb_sortIndices rb) /\
      Z.of_nat (length (rb_curvature rb)) = endIdx - startIdx + 1 /\
      Z.of_nat (length (rb_label rb)) = endIdx - startIdx + 1) ->
  (forall (cloud : Cloud) (startIdx endIdx : Z),
      (length cloud <= length (setScanBuffersFor cloud startIdx endIdx))%nat) ->
  (forall (cloud : Cloud) (picked : list Z) (cloudIdx scanIdx : Z),
      (length picked <= length (markAsPicked cloud picked cloudIdx scanIdx))%nat) ->
  INT_MIN <= maxCornerSharp cfg * 10 <= INT_MAX ->
  0 <= nFeatureRegions cfg <= 4 ->
  Z.of_nat (length (p :: rest)) <= INT_MAX ->
  (19 <= length (List.filter keepRaw (p :: rest)))%nat ->
  exists st' pub,
    process cfg st (p :: rest) scanTime = Ok (st', pub) /\
    length (_laserCloud st') = length (List.filter keepRaw (p :: rest)).
Proof.
  intros Hfits Hscan Hmark Hint Hregions Hlen Hkept.
  assert (Hlen64 : Z.of_nat (length (p :: rest)) < 2 ^ 64)
    by (unfold INT_MAX in Hlen; lia).
  destruct (detectSweep_nonempty cfg st scanTime p rest Hlen64)
    as (stR & newSweep & Hsweep).
  unfold process. rewrite Hsweep. cbn [bind fst].
  rewrite ingestBatch_counted by exact Hlen. cbn [bind].
  set (scan := ingest (p :: rest) defaultPoint (_imu stR) []).
  assert (Hsize : length (snd scan) = length (List.filter keepRaw (p :: rest))).
  { unfold scan. rewrite ingest_length. reflexivity. }
  pose proof (filter_keepRaw_length (p :: rest)) as Hle.
  destruct (extractFeatures_total Hfits Hscan Hmark cfg Hint
              (set_laserCloud (fst scan) (snd scan) stR)) as [st' Hst'].
  - cbn [_laserCloud set_laserCloud]. rewrite Hsize.
    unfold INT_MAX in Hlen. lia.
  - exact Hregions.
  - rewrite Hst'. cbn [bind]. exists st', (publishResult st').
    split; [reflexivity |].
    apply extractFeatures_Ok in Hst' as (_ & _ & _ & _ & _ & _ & _ & Hcl & _).
    rewrite Hcl. exact Hsize.
Qed.

(** Without IMU data the loop of lines 137-164 is a filter followed by the
    exchange of the axes; the intensity is the one [point] had before the
    loop. *)
Lemma ingest_without_imu (laserCloudIn : list (PointXYZ F)) :
  forall (point : PointXYZI F) (imu : IMU) (scan : Cloud),
    hasIMUData imu = false ->
    ingest laserCloudIn point imu scan
    = (imu, scan ++ map (remapInto point) (List.filter keepRaw laserCloudIn)).
Proof.
  induction laserCloudIn as [| q rest IH]; intros point imu scan Himu.
  - cbn. rewrite app_nil_r. reflexivity.
  - cbn [ingest List.filter]. rewrite keepPoint_remapInto.
    destruct (keepRaw q).
    + rewrite Himu, IH by exact Himu. rewrite <- app_assoc. reflexivity.
    + rewrite IH by exact Himu. reflexivity.
Qed.

(** X6: when the IMU capability has no data for the scan, the scan buffer
    that [process] leaves is the batch filtered, in its order, each point
    with its axes exchanged (x from y, y from z, z from x) and the
    intensity 0 of a default-constructed point; the IMU state is the one
    that [reset] left. *)
Theorem scan_without_imu_data (cfg : RegistrationParams F) (st stR st' : State)
    (laserCloudIn : list (PointXYZ F)) (scanTime : Time) (newSweep : bool)
    (pub : Published F) :
  detectSweep cfg st laserCloudIn scanTime = Ok (stR, newSweep) ->
  hasIMUData (_imu stR) = false ->
  process cfg st laserCloudIn scanTime = Ok (st', pub) ->
  _laserCloud st'
  = map (fun p => mkPointXYZI (in_y p) (in_z p) (in_x p) (f_of_int 0))
        (List.filter keepRaw laserCloudIn) /\
  _imu st' = _imu stR.
Proof.
  intros Hsweep Himu Hrun.
  apply process_Ok in Hrun as (stR' & newSweep' & Hsweep' & Hfeat & _).
  rewrite Hsweep in Hsweep'. inversion Hsweep'. subst stR' newSweep'.
  cbv zeta in Hfeat. rewrite ingest_without_imu in Hfeat by exact Himu.
  cbn [fst snd app] in Hfeat.
  pose proof Hfeat as Hdef.
  apply extractFeatures_Ok in Hfeat as (st1 & less & Hregions & _ & _ & _ & _ & Hcl & _).
  split; [rewrite Hcl; reflexivity |].
  unfold extractFeatures in Hdef. rewrite Hregions in Hdef. cbn [bind fst snd] in Hdef.
  inversion Hdef. cbn [_imu set_surfacePointsLessFlat].
  apply extractRegions_grownFrom in Hregions as ([Hs _] & _).
  destruct Hs as (_ & _ & _ & Himu' & _ & _).
  rewrite Himu'. reflexivity.
Qed.

End Completion.

(** ** The cap of the corner pass *)

Section CornerCap.
Context {F Time IMU : Type} {FO : FloatOps F} {EXT : Collaborators F Time IMU}.

Abbreviation State := (ScanRegistration F Time IMU).
Abbreviation Cloud := (list (PointXYZI F)).

(** The points in the two corner clouds. *)
Abbreviation corners st :=
  (Z.of_nat (length (_cornerPointsSharp st))
   + Z.of_nat (length (_cornerPointsLessSharp st))).

Lemma int_mul_Ok (a b m : Z) : int_mul a b = Ok m -> m = a * b.
Proof.
  unfold int_mul. destruct (in_int_range (a * b)); intros H; inversion H.
  reflexivity.
Qed.

(** The corner pass leaves at the [break] of line 220: the count of its
    corners does not get past [maxCornerSharp * 10]. *)
Lemma cornerLoop_cap (cfg : RegistrationParams F) (sp : Z) (fuel : nat) :
  forall (j c : Z) (st st' : State),
    0 <= c ->
    cornerLoop cfg sp fuel j c st = Ok st' ->
    corners st' <= corners st + Z.max 0 (maxCornerSharp cfg * 10 - c).
Proof.
  induction fuel as [| fuel IH]; intros j c st st' Hc Hrun; cbn in Hrun.
  - inversion Hrun. lia.
  - destruct (c <? maxCornerLessSharp cfg); [| inversion Hrun; lia].
    apply bind_Ok in Hrun as (scanIdx & _ & Hrun).
    apply bind_Ok in Hrun as (accept & _ & Hrun).
    destruct accept; [| apply IH in Hrun; [lia | exact Hc]].
    destruct (Z.leb_spec (c + 1) (maxCornerSharp cfg)) as [Hs | Hs].
    + apply bind_Ok in Hrun as (lbl & _ & Hrun).
      apply bind_Ok in Hrun as (p & _ & Hrun).
      apply IH in Hrun; [| lia].
      cbn in Hrun. rewrite length_app in Hrun.
      cbn [length] in Hrun. lia.
    + apply bind_Ok in Hrun as (m10 & Hm10 & Hrun).
      apply int_mul_Ok in Hm10. subst m10.
      destruct (Z.leb_spec (c + 1) (maxCornerSharp cfg * 10)) as [Hl | Hl];
        [| inversion Hrun; lia].
      apply bind_Ok in Hrun as (lbl & _ & Hrun).
      apply bind_Ok in Hrun as (p & _ & Hrun).
      apply IH in Hrun; [| lia].
      cbn in Hrun. rewrite length_app in Hrun.
      cbn [length] in Hrun. lia.
Qed.

(** X7: a region adds to the two corner clouds together at most ten times
    [maxCornerSharp] points, whatever [maxCornerLessSharp] is: the corner
    pass leaves at the first candidate whose count exceeds
    [maxCornerSharp * 10], and the flat pass adds no corner. *)
Theorem corner_clouds_capped_by_ten_times_sharp (cfg : RegistrationParams F)
    (sp ep : Z) (st st' : State) (less less' : Cloud) :
  extractRegion cfg sp ep st less = Ok (st', less') ->
  Z.of_nat (length (_cornerPointsSharp st'))
  + Z.of_nat (length (_cornerPointsLessSharp st'))
  <= Z.of_nat (length (_cornerPointsSharp st))
     + Z.of_nat (length (_cornerPointsLessSharp st))
     + Z.max 0 (maxCornerSharp cfg * 10).
Proof.
  unfold extractRegion. intros Hrun.
  apply bind_Ok in Hrun as (st2 & Hcorner & Hrun).
  apply bind_Ok in Hrun as (st3 & Hflat & Hrun).
  apply bind_Ok in Hrun as (l & _ & Hrun).
  inversion Hrun; subst st3 l.
  apply cornerLoop_cap in Hcorner; [| lia].
  apply flatLoop_picking in Hflat.
  apply (picking_bounded _ _ _ isCorner (fun s => corners s) (fun _ => 0)) in Hflat.
  - cbn in Hcorner. rewrite Z.sub_0_r in Hcorner. lia.
  - apply corner_pushes_step.
  - intros c _. cbn. lia.
  - intros c. lia.
Qed.

End CornerCap.

(** ** Runs of [process] on concrete batches *)

Lemma process_completes_from_19_valid_points_witness :
  let cfg := Scripted.defaults 0.5 0.5 0.5 in
  let st := Scripted.initial false in
  let p := mkPointXYZ 21%float 1%float 0%float in
  let rest := Scripted.rawBatch 20 in
  exists st' pub,
    process (EXT := Scripted.provider (Scripted.zigzag 21)) cfg st (p :: rest)
      1%float = Ok (st', pub) /\
    length (_laserCloud st') = length (List.filter keepRaw (p :: rest)).
Proof.
  intros cfg st p rest.
  apply (process_completes_from_19_valid_points
           (EXT := Scripted.provider (Scripted.zigzag 21))).
  - intros cloud s e Hle. apply scripted_buffers_fit. exact Hle.
  - intros cloud s e. cbn. rewrite length_replicate. lia.
  - intros cloud picked i k. cbn. unfold Scripted.mark.
    destruct (0 <=? k); [rewrite length_insert |]; lia.
  - cbn. unfold INT_MIN, INT_MAX. lia.
  - cbn. lia.
  - cbn. unfold INT_MAX. lia.
  - vm_compute. repeat constructor.
Defined.

Lemma scan_without_imu_data_witness :
  let cfg := Scripted.defaults 0.5 0.5 0.5 in
  let st := Scripted.initial false in
  let batch := Scripted.rawBatch 21 in
  exists stR newSweep st' pub,
    detectSweep (EXT := Scripted.provider (Scripted.zigzag 21)) cfg st batch
      1%float = Ok (stR, newSweep) /\
    hasIMUData (Collaborators := Scripted.provider (Scripted.zigzag 21))
      (_imu stR) = false /\
    process (EXT := Scripted.provider (Scripted.zigzag 21)) cfg st batch 1%float
    = Ok (st', pub) /\
    _laserCloud st'
    = map (fun p => mkPointXYZI (in_y p) (in_z p) (in_x p) (f_of_int 0))
          (List.filter keepRaw batch) /\
    _imu st' = _imu stR.
Proof.
  intros cfg st batch.
  destruct (detectSweep (EXT := Scripted.provider (Scripted.zigzag 21)) cfg st
              batch 1%float) as [[stR newSweep] | e] eqn:Hsweep;
    [| vm_compute in Hsweep; discriminate].
  destruct (process (EXT := Scripted.provider (Scripted.zigzag 21)) cfg st
              batch 1%float) as [[st' pub] | e] eqn:Hrun;
    [| vm_compute in Hrun; discriminate].
  assert (Himu : hasIMUData (Collaborators := Scripted.provider (Scripted.zigzag 21))
                   (_imu stR) = false).
  { vm_compute in Hsweep. inversion Hsweep. reflexivity. }
  exists stR, newSweep, st', pub.
  split; [reflexivity |]. split; [exact Himu |]. split; [reflexivity |].
  exact (scan_without_imu_data (EXT := Scripted.provider (Scripted.zigzag 21))
           cfg st stR st' batch 1%float newSweep pub Hsweep Himu Hrun).
Defined.

Lemma corner_clouds_capped_by_ten_times_sharp_witness :
  let cfg := mkParams 0.5%float 4 1 20 4 0.5%float 0.5%float in
  let st := call_setScanBuffersFor (EXT := Scripted.provider (Scripted.rising 60))
              0 60 (Scripted.withCloud (Scripted.scanOf 60) (Scripted.initial false)) in
  exists st' less',
    extractRegion (EXT := Scripted.provider (Scripted.rising 60)) cfg 5 30 st []
    = Ok (st', less') /\
    Z.of_nat (length (_cornerPointsSharp st'))
    + Z.of_nat (length (_cornerPointsLessSharp st'))
    <= Z.of_nat (length (_cornerPointsSharp st))
       + Z.of_nat (length (_cornerPointsLessSharp st))
       + Z.max 0 (maxCornerSharp cfg * 10).
Proof.
  intros cfg st.
  destruct (extractRegion (EXT := Scripted.provider (Scripted.rising 60))
              cfg 5 30 st []) as [[st' less'] | e] eqn:Hrun;
    [| vm_compute in Hrun; discriminate].
  exists st', less'. split; [reflexivity |].
  exact (corner_clouds_capped_by_ten_times_sharp
           (EXT := Scripted.provider (Scripted.rising 60))
           cfg 5 30 st st' [] less' Hrun).
Defined.

(** ** The message handler *)

Section HandlerProperties.
Context {F Time IMU : Type} {FO : FloatOps F} {EXT : Collaborators F Time IMU}.
Context {Msg : Type}.
Variable fromROSMsg : Msg -> list (PointXYZ F).
Variable header_stamp : Msg -> Time.

Abbreviation State := (ScanRegistration F Time IMU).
Abbreviation Self := (CtRot2DScanRegistration F Time IMU).

Lemma handleAll_cons_skipped (self self1 : Self) (m : Msg) (rest : list Msg) :
  handleCloudMessage fromROSMsg header_stamp self m = Ok (self1, None) ->
  handleAll fromROSMsg header_stamp self (m :: rest)
  = handleAll fromROSMsg header_stamp self1 rest.
Proof.
  intros Hm. cbn [handleAll]. rewrite Hm. cbn [bind fst snd].
  destruct (handleAll fromROSMsg header_stamp self1 rest) as [[s pubs] | e];
    reflexivity.
Qed.

(** X8: while [_systemDelay] is above 0 the handler counts a message and
    returns: the first messages, as many as the delay says, are not decoded
    and leave the registration as it is, whatever they hold; what follows is
    handled as by an object whose delay is what is left. *)
Theorem warmup_messages_are_skipped (self : Self) (warm rest : list Msg) :
  Z.of_nat (length warm) <= _systemDelay self ->
  handleAll fromROSMsg header_stamp self (warm ++ rest)
  = handleAll fromROSMsg header_stamp
      (mkCtRot2D (_systemDelay self - Z.of_nat (length warm))
         (_config self) (_registration self)) rest.
Proof.
  revert self. induction warm as [| m warm IH]; intros self Hlen.
  - cbn [length app]. rewrite Z.sub_0_r. destruct self; reflexivity.
  - cbn [length] in Hlen. cbn [app].
    rewrite (handleAll_cons_skipped self
               (mkCtRot2D (_systemDelay self - 1) (_config self)
                  (_registration self))).
    + rewrite IH by (cbn [_systemDelay]; lia).
      cbn [_systemDelay _config _registration length].
      f_equal. f_equal. lia.
    + unfold handleCloudMessage.
      destruct (Z.ltb_spec 0 (_systemDelay self)); [reflexivity | lia].
Qed.

(** X9: of the messages handled one after the other, those after the
    delay are published, one result each; the delay counts down to 0 and
    stays, a delay that is 0 or negative is never changed, and the
    parameters are never changed. *)
Theorem handler_publishes_after_the_delay (self self' : Self)
    (msgs : list Msg) (pubs : list (Published F)) :
  handleAll fromROSMsg header_stamp self msgs = Ok (self', pubs) ->
  length pubs = (length msgs - Z.to_nat (_systemDelay self))%nat /\
  _systemDelay self'
  = (if 0 <? _systemDelay self
     then Z.max 0 (_systemDelay self - Z.of_nat (length msgs))
     else _systemDelay self) /\
  _config self' = _config self.
Proof.
  revert self self' pubs.
  induction msgs as [| m msgs IH]; intros self self' pubs Hrun; cbn in Hrun.
  - inversion Hrun; subst. cbn [length].
    destruct (Z.ltb_spec 0 (_systemDelay self')); repeat split; lia.
  - apply bind_Ok in Hrun as ([self1 pub] & Hm & Hrun). cbn [fst snd] in Hrun.
    apply bind_Ok in Hrun as ([self2 pubs2] & Hrest & Hrun).
    cbn [fst snd] in Hrun. inversion Hrun; subst self2 pubs. clear Hrun.
    apply IH in Hrest as (Hcount & Hdelay & Hcfg).
    unfold handleCloudMessage in Hm.
    destruct (Z.ltb_spec 0 (_systemDelay self)) as [Hpos | Hle].
    + inversion Hm; subst self1 pub. clear Hm.
      cbn [_systemDelay _config] in *. cbn [length].
      split; [lia |]. split; [| exact Hcfg].
      rewrite Hdelay.
      destruct (Z.ltb_spec 0 (_systemDelay self - 1)); lia.
    + apply bind_Ok in Hm as ([st1 pub1] & _ & Hm). cbn [fst snd] in Hm.
      inversion Hm; subst self1 pub. clear Hm.
      cbn [_systemDelay _config] in *. cbn [length].
      destruct (Z.ltb_spec 0 (_systemDelay self)); [lia |].
      split; [| split; assumption].
      replace (Z.to_nat (_systemDelay self)) with 0%nat in * by lia. lia.
Qed.

Lemma process_rotDir (cfg : RegistrationParams F) (st st' : State)
    (laserCloudIn : list (PointXYZ F)) (scanTime : Time) (pub : Published F) :
  process cfg st laserCloudIn scanTime = Ok (st', pub) ->
  _laserRotDir st' = _laserRotDir st \/ _laserRotDir st' = _laserRotDir st * -1.
Proof.
  intros Hrun.
  apply process_Ok in Hrun as (stR & newSweep & Hsweep & Hfeat & _).
  cbv zeta in Hfeat.
  apply extractFeatures_Ok in Hfeat as (_ & _ & _ & _ & _ & Hrot & _).
  cbn [_laserRotDir set_laserCloud] in Hrot. rewrite Hrot.
  apply detectSweep_Ok in Hsweep as (first & last & _ & _ & ->).
  destruct newSweep; [right | left]; reflexivity.
Qed.

Lemma handleAll_rotDir (self self' : Self) (msgs : list Msg)
    (pubs : list (Published F)) :
  _laserRotDir (_registration self) = 1
  \/ _laserRotDir (_registration self) = -1 ->
  handleAll fromROSMsg header_stamp self msgs = Ok (self', pubs) ->
  _laserRotDir (_registration self') = 1
  \/ _laserRotDir (_registration self') = -1.
Proof.
  revert self self' pubs.
  induction msgs as [| m msgs IH]; intros self self' pubs Hsign Hrun;
    cbn in Hrun.
  - inversion Hrun; subst. exact Hsign.
  - apply bind_Ok in Hrun as ([self1 pub] & Hm & Hrun). cbn [fst snd] in Hrun.
    apply bind_Ok in Hrun as ([self2 pubs2] & Hrest & Hrun).
    cbn [fst snd] in Hrun. inversion Hrun; subst self2. clear Hrun.
    apply (IH self1 self' pubs2); [| exact Hrest].
    unfold handleCloudMessage in Hm.
    destruct (0 <? _systemDelay self).
    + inversion Hm; subst. exact Hsign.
    + apply bind_Ok in Hm as ([st1 pub1] & Hproc & Hm). cbn [fst snd] in Hm.
      inversion Hm; subst. cbn [_registration].
      apply process_rotDir in Hproc. lia.
Qed.

(** X10: the rotation direction of an object that was constructed and has
    since handled any number of messages is 1 or -1, so that the
    multiplication of line 126 never leaves the range of an [int]. *)
Theorem rotation_direction_stays_a_sign (SYSTEM_DELAY : Z)
    (config : RegistrationParams F) (base : State) (msgs : list Msg)
    (self' : Self) (pubs : list (Published F)) :
  handleAll fromROSMsg header_stamp (construct SYSTEM_DELAY config base) msgs
  = Ok (self', pubs) ->
  _laserRotDir (_registration self') = 1
  \/ _laserRotDir (_registration self') = -1.
Proof.
  apply handleAll_rotDir. left. reflexivity.
Qed.

End HandlerProperties.

(** Runs of the handler; a message is the batch it decodes to and its stamp. *)
Lemma warmup_messages_are_skipped_witness :
  let self := construct 2 (Scripted.defaults 0.5 0.5 0.5) (Scripted.initial false) in
  let warm : list (list (PointXYZ float) * float) := [([], 1%float); ([], 2%float)] in
  let rest := [(Scripted.rawBatch 21, 3%float)] in
  Z.of_nat (length warm) <= _systemDelay self /\
  handleAll (EXT := Scripted.provider (Scripted.zigzag 21)) fst snd self
    (warm ++ rest)
  = handleAll (EXT := Scripted.provider (Scripted.zigzag 21)) fst snd
      (mkCtRot2D (_systemDelay self - Z.of_nat (length warm)) (_config self)
         (_registration self)) rest.
Proof.
  intros self warm rest.
  assert (Hlen : Z.of_nat (length warm) <= _systemDelay self) by (cbn; lia).
  split; [exact Hlen |].
  exact (warmup_messages_are_skipped
           (EXT := Scripted.provider (Scripted.zigzag 21)) fst snd self warm rest
           Hlen).
Defined.

Lemma handler_publishes_after_the_delay_witness :
  let self := construct 2 (Scripted.defaults 0.5 0.5 0.5) (Scripted.initial false) in
  let msgs : list (list (PointXYZ float) * float) :=
    [([], 1%float); ([], 2%float); (Scripted.rawBatch 21, 3%float);
     (Scripted.rawBatch 21, 4%float)] in
  exists self' pubs,
    handleAll (EXT := Scripted.provider (Scripted.zigzag 21)) fst snd self msgs
    = Ok (self', pubs) /\
    length pubs = (length msgs - Z.to_nat (_systemDelay self))%nat /\
    _systemDelay self'
    = (if 0 <? _systemDelay self
       then Z.max 0 (_systemDelay self - Z.of_nat (length msgs))
       else _systemDelay self) /\
    _config self' = _config self.
Proof.
  intros self msgs.
  destruct (handleAll (EXT := Scripted.provider (Scripted.zigzag 21)) fst snd
              self msgs) as [[self' pubs] | e] eqn:Hrun;
    [| vm_compute in Hrun; discriminate].
  exists self', pubs. split; [reflexivity |].
  exact (handler_publishes_after_the_delay
           (EXT := Scripted.provider (Scripted.zigzag 21)) fst snd self self'
           msgs pubs Hrun).
Defined.

Lemma rotation_direction_stays_a_sign_witness :
  let msgs : list (list (PointXYZ float) * float) :=
    [(Scripted.rawBatch 21, 1%float); (Scripted.rawBatch 21, 2%float);
     (Scripted.rawBatch 21, 3%float)] in
  exists self' pubs,
    handleAll (EXT := Scripted.provider (Scripted.zigzag 21)) fst snd
      (construct 0 (Scripted.defaults 0.5 0.5 0.5) (Scripted.initial false)) msgs
    = Ok (self', pubs) /\
    (_laserRotDir (_registration self') = 1
     \/ _laserRotDir (_registration self') = -1).
Proof.
  intros msgs.
  destruct (handleAll (EXT := Scripted.provider (Scripted.zigzag 21)) fst snd
              (construct 0 (Scripted.defaults 0.5 0.5 0.5) (Scripted.initial false))
              msgs) as [[self' pubs] | e] eqn:Hrun;
    [| vm_compute in Hrun; discriminate].
  exists self', pubs. split; [reflexivity |].
  exact (rotation_direction_stays_a_sign
           (EXT := Scripted.provider (Scripted.zigzag 21)) fst snd 0
           (Scripted.defaults 0.5 0.5 0.5) (Scripted.initial false) msgs self'
           pubs Hrun).
Defined.

(** ** Points outside the regions *)

Section OutsideRegions.
Context {F Time IMU : Type} {FO : FloatOps F} {EXT : Collaborators F Time IMU}.

Abbreviation State := (ScanRegistration F Time IMU).
Abbreviation Cloud := (list (PointXYZI F)).

(** The contracts of the suppression and of the provider, as for
    [extractRegion_inv]. *)
Hypothesis markAsPicked_marks :
  forall (cloud : Cloud) (picked : list Z) (i v : Z),
    vec_get picked i = Ok v -> marked (markAsPicked cloud picked i i) i.
Hypothesis markAsPicked_keeps :
  forall (cloud : Cloud) (picked : list Z) (i k : Z),
    marked picked k -> marked (markAsPicked cloud picked i i) k.
Hypothesis setRegionBuffersFor_labels :
  forall (cloud : Cloud) (startIdx endIdx : Z),
    startIdx <= endIdx + 1 ->
    length (rb_label (setRegionBuffersFor cloud startIdx endIdx))
    = Z.to_nat (endIdx - startIdx + 1).

Lemma regionsLoop_inRegions (cfg : RegistrationParams F) (st0 : State)
    (ss es : list Z) (fuel : nat) :
  tables_ordered ss es ->
  Z.of_nat (length (_laserCloud st0)) <= 2 ^ 64 ->
  forall (i : Z) (st st' : State) (less less' : Cloud)
         (glog : list (PointLabel * Z)) (C : list Z),
    picksInv st0 st glog ->
    atIndices (_laserCloud st0) C less ->
    (forall x, x ∈ C \/ x ∈ map snd glog -> inRegions ss es x) ->
    regionsLoop cfg ss es fuel i st less = Ok (st', less') ->
    exists glog' C',
      picksInv st0 st' glog' /\
      atIndices (_laserCloud st0) C' less' /\
      (forall x, x ∈ C' \/ x ∈ map snd glog' -> inRegions ss es x).
Proof.
  intros Hord Hcloud.
  induction fuel as [| fuel IH];
    intros i st st' less less' glog C Hpicks Hat Hin Hrun; cbn in Hrun.
  - inversion Hrun; subst. exists glog, C. auto.
  - apply bind_Ok in Hrun as (sp & Hsp & Hrun).
    apply bind_Ok in Hrun as (ep & Hep & Hrun).
    apply bind_Ok in Hrun as ([st1 less1] & Hregion & Hrun).
    cbn [fst snd] in Hrun.
    apply vec_get_Ok in Hsp as [_ Hsp]. apply vec_get_Ok in Hep as [_ Hep].
    destruct (Hord _ _ _ Hsp Hep) as (Hspep & Hep63 & _).
    destruct (extractRegion_inv markAsPicked_marks markAsPicked_keeps
                setRegionBuffersFor_labels cfg st0 glog sp ep st st1 less less1
                Hspep Hep63 Hcloud Hpicks Hregion)
      as (rlog & Cr & pts & Hpicks1 & -> & Hatr & _ & HCr & Hrlog & _).
    apply (IH (i + 1) st1 st' (less ++ pts) less' (glog ++ rlog) (C ++ Cr));
      [exact Hpicks1 | apply Forall2_app; assumption | | exact Hrun].
    intros x [Hx | Hx].
    + apply elem_of_app in Hx as [Hx | Hx]; [apply Hin; left; exact Hx |].
      exists (Z.to_nat i), sp, ep. auto.
    + rewrite map_app in Hx. apply elem_of_app in Hx as [Hx | Hx];
        [apply Hin; right; exact Hx |].
      apply list_elem_of_fmap in Hx as (e & -> & He).
      exists (Z.to_nat i), sp, ep. auto.
Qed.

(** X11: for a scan of 15 to 2^31 points and collaborators that keep
    their contracts, every point that [extractFeatures] adds to the sharp,
    less sharp and flat clouds or hands to the voxel grid is taken at a scan
    index from 5 to [n - 7] that is none of [5 + (n-10)/4], [5 + (n-10)/2]
    and [5 + 3(n-10)/4]: the first five points of a scan, its last six and
    the three points between two regions are never features. *)
Theorem points_outside_regions_are_never_features (cfg : RegistrationParams F)
    (st st' : State) (less : Cloud) :
  15 <= Z.of_nat (length (_laserCloud st)) <= 2 ^ 31 ->
  extractRegions cfg st = Ok (st', less) ->
  grownAt (insideRegions (Z.of_nat (length (_laserCloud st)))) st st' /\
  exists lessFlat,
    atIndices (_laserCloud st) lessFlat less /\
    Forall (insideRegions (Z.of_nat (length (_laserCloud st)))) lessFlat.
Proof.
  intros Hn Hrun. unfold extractRegions in Hrun.
  set (n := Z.of_nat (length (_laserCloud st))) in *.
  set (ok := insideRegions n).
  apply bind_Ok in Hrun as (ss & Hss & Hrun).
  apply bind_Ok in Hrun as (es & Hes & Hrun).
  set (st0 := call_setScanBuffersFor 0 n st) in *.
  assert (Hord : tables_ordered ss es)
    by (eapply tables_ordered_values; eassumption).
  destruct (tables_values n) as [Hs He]; [lia |].
  rewrite Hs in Hss. rewrite He in Hes. inversion Hss. inversion Hes.
  clear Hs He Hss Hes.
  assert (Hinit : picksInv st0 st0 []).
  { split; [unfold sameSweepState; tauto |]. split; [| split].
    - intros X _. exists []. rewrite app_nil_r. split; [reflexivity | constructor].
    - constructor.
    - intros e He. inversion He. }
  assert (Hcloud : Z.of_nat (length (_laserCloud st0)) <= 2 ^ 64)
    by (cbn; fold n; lia).
  assert (Hnil : atIndices (_laserCloud st0) [] []) by constructor.
  assert (Hnone : forall x, x ∈ [] \/ x ∈ map snd ([] : list (PointLabel * Z)) ->
                            inRegions ss es x).
  { intros x [Hx | Hx]; inversion Hx. }
  destruct (regionsLoop_inRegions cfg st0 ss es _ Hord Hcloud 0 st0 st' [] less
              [] [] Hinit Hnil Hnone Hrun)
    as (glog & C & (Hsame & Hclouds & _ & _) & HatC & Hin).
  assert (Hok : forall x, inRegions ss es x -> ok x).
  { intros x (k & sp & ep & Hsp & Hep & Hx). subst ss es.
    apply lookup4 in Hsp. apply lookup4 in Hep. unfold ok, insideRegions.
    destruct Hsp as [[-> ->]|[[-> ->]|[[-> ->]|[-> ->]]]];
      destruct Hep as [[Hk ->]|[[Hk ->]|[[Hk ->]|[Hk ->]]]];
      try discriminate Hk; clear Hk;
      Z.div_mod_to_equations; lia. }
  change (_laserCloud st0) with (_laserCloud st) in *.
  split.
  - split; [destruct Hsame as (_ & _ & _ & _ & Hcl & _); exact Hcl |].
    intros X.
    assert (HX : X = SURFACE_LESS_FLAT \/ X <> SURFACE_LESS_FLAT)
      by (destruct X; (left; reflexivity) || (right; discriminate)).
    destruct HX as [-> | HX].
    + exists [], []. repeat split; constructor.
    + destruct (Hclouds X HX) as (pts & He & Hat).
      exists (idxOf X glog), pts. split; [exact He |]. split; [exact Hat |].
      apply Forall_forall. intros x Hx. apply Hok, Hin. right.
      apply idxOf_elem in Hx. apply list_elem_of_fmap. exists (X, x).
      split; [reflexivity | exact Hx].
  - exists C. split; [exact HatC |].
    apply Forall_forall. intros x Hx. apply Hok, Hin. left. exact Hx.
Qed.

End OutsideRegions.

Lemma points_outside_regions_are_never_features_witness :
  let cfg := Scripted.defaults 0.5 0.5 0.5 in
  let st := Scripted.withCloud (Scripted.scanOf 30) (Scripted.initial false) in
  exists st' less,
    extractRegions (EXT := Scripted.provider (Scripted.zigzag 30)) cfg st
    = Ok (st', less) /\
    grownAt (insideRegions (Z.of_nat (length (_laserCloud st)))) st st' /\
    exists lessFlat,
      atIndices (_laserCloud st) lessFlat less /\
      Forall (insideRegions (Z.of_nat (length (_laserCloud st)))) lessFlat.
Proof.
  intros cfg st.
  destruct (extractRegions (EXT := Scripted.provider (Scripted.zigzag 30)) cfg st)
    as [[st' less] | e] eqn:Hrun; [| vm_compute in Hrun; discriminate].
  exists st', less. split; [reflexivity |].
  apply (points_outside_regions_are_never_features
           (EXT := Scripted.provider (Scripted.zigzag 30))
           (fun _ picked i v => scripted_mark_marks picked i v)
           (fun _ picked i k => scripted_mark_keeps picked i k)
           (fun _ s e _ => scripted_labels (Scripted.zigzag 30) s e)
           cfg st st' less).
  - cbn. lia.
  - exact Hrun.
Defined.

(** ** Points flagged before the passes *)

Section Flagged.
Context {F Time IMU : Type} {FO : FloatOps F} {EXT : Collaborators F Time IMU}.

Abbreviation State := (ScanRegistration F Time IMU).
Abbreviation Cloud := (list (PointXYZI F)).

(** The suppression takes no mark back. *)
Hypothesis markAsPicked_keeps :
  forall (cloud : Cloud) (picked : list Z) (i k : Z),
    marked picked k -> marked (markAsPicked cloud picked i i) k.

Variable picked0 : list Z.

Abbreviation flagsKept st :=
  (forall i, marked picked0 i -> marked (_scanNeighborPicked st) i).
Abbreviation unflagged := (fun i => ~ marked picked0 i).

Lemma accepted_laserCloud (l : PointLabel) (lbl : list PointLabel)
    (p : PointXYZI F) (scanIdx : Z) (st : State) :
  _laserCloud (accepted l lbl p scanIdx st) = _laserCloud st.
Proof. destruct l; reflexivity. Qed.

Lemma picking_unflagged (sp quota : Z) (labelFor : Z -> PointLabel)
    (st0 : State) :
  forall c st st',
    picking sp quota labelFor c st st' ->
    flagsKept st -> grownAt unflagged st0 st ->
    flagsKept st' /\ grownAt unflagged st0 st'.
Proof.
  intros c st st' Hrun.
  induction Hrun as [c st | c st st' scanIdx lbl p Hq Hpk Hlbl Hp Hrun IH];
    intros Hkept Hgrown; [split; assumption |].
  apply IH.
  - intros i Hi. rewrite accepted_picked. apply markAsPicked_keeps, Hkept, Hi.
  - destruct Hgrown as [Hcl Hclouds].
    split; [rewrite accepted_laserCloud; exact Hcl |].
    intros X. destruct (Hclouds X) as (idx & pts & He & Hat & Hok).
    rewrite accepted_cloudOf.
    destruct (PointLabel_eqb (labelFor (c + 1)) X
              && negb (PointLabel_eqb X SURFACE_LESS_FLAT)).
    + exists (idx ++ [scanIdx]), (pts ++ [p]).
      split; [rewrite He, app_assoc; reflexivity |].
      split.
      * apply Forall2_app; [exact Hat |]. constructor; [| constructor].
        rewrite <- Hcl. exact Hp.
      * apply Forall_app. split; [exact Hok |]. constructor; [| constructor].
        intros Hflag. destruct (Hkept scanIdx Hflag) as (v & Hv & Hne).
        rewrite Hpk in Hv. inversion Hv. congruence.
    + exists idx, pts. auto.
Qed.

Lemma grownAt_setRegionBuffers (st0 st : State) (s e : Z) :
  grownAt unflagged st0 st ->
  grownAt unflagged st0 (call_setRegionBuffersFor s e st).
Proof.
  intros [Hcl Hclouds]. split; [exact Hcl |].
  intros X. destruct (Hclouds X) as (idx & pts & He & Hat & Hok).
  exists idx, pts. split; [| auto]. rewrite <- He. destruct X; reflexivity.
Qed.

Lemma regionsLoop_unflagged (cfg : RegistrationParams F) (st0 : State)
    (ss es : list Z) (fuel : nat) :
  forall (i : Z) (st st' : State) (less less' : Cloud),
    regionsLoop cfg ss es fuel i st less = Ok (st', less') ->
    flagsKept st -> grownAt unflagged st0 st ->
    flagsKept st' /\ grownAt unflagged st0 st'.
Proof.
  induction fuel as [| fuel IH]; intros i st st' less less' Hrun Hkept Hgrown;
    cbn in Hrun.
  - inversion Hrun; subst. split; assumption.
  - apply bind_Ok in Hrun as (sp & _ & Hrun).
    apply bind_Ok in Hrun as (ep & _ & Hrun).
    apply bind_Ok in Hrun as ([st1 less1] & Hregion & Hrun).
    cbn [fst snd] in Hrun.
    apply extractRegion_Ok in Hregion as (st2 & Hcorner & Hflat & _).
    apply (picking_unflagged _ _ _ st0) in Hcorner as [Hkept2 Hgrown2];
      [| exact Hkept | apply grownAt_setRegionBuffers; exact Hgrown].
    apply (picking_unflagged _ _ _ st0) in Hflat as [Hkept1 Hgrown1];
      [| exact Hkept2 | exact Hgrown2].
    exact (IH _ _ _ _ _ Hrun Hkept1 Hgrown1).
Qed.

End Flagged.

Section FlaggedScan.
Context {F Time IMU : Type} {FO : FloatOps F} {EXT : Collaborators F Time IMU}.

Abbreviation State := (ScanRegistration F Time IMU).
Abbreviation Cloud := (list (PointXYZI F)).

(** X12: when the suppression takes no mark back, a point that
    [setScanBuffersFor] flagged at the start of [extractFeatures] is added
    to none of the sharp, less sharp and flat clouds: both passes test the
    flag of a candidate before they accept it. *)
Theorem flagged_points_are_never_features (cfg : RegistrationParams F)
    (st st' : State) (less : Cloud) :
  (forall (cloud : Cloud) (picked : list Z) (i k : Z),
      marked picked k -> marked (markAsPicked cloud picked i i) k) ->
  extractRegions cfg st = Ok (st', less) ->
  grownAt
    (fun i => ~ marked (setScanBuffersFor (_laserCloud st) 0
                          (Z.of_nat (length (_laserCloud st)))) i)
    st st'.
Proof.
  intros Hkeeps Hrun. unfold extractRegions in Hrun.
  apply bind_Ok in Hrun as (ss & _ & Hrun).
  apply bind_Ok in Hrun as (es & _ & Hrun).
  set (n := Z.of_nat (length (_laserCloud st))) in *.
  set (st0 := call_setScanBuffersFor 0 n st) in *.
  apply (regionsLoop_unflagged Hkeeps (setScanBuffersFor (_laserCloud st) 0 n)
           cfg st0) in Hrun as [_ [Hcl Hclouds]].
  - split; [exact Hcl |]. intros X.
    destruct (Hclouds X) as (idx & pts & He & Hat & Hok).
    exists idx, pts. split; [| auto]. rewrite He. destruct X; reflexivity.
  - intros i Hi. exact Hi.
  - split; [reflexivity |]. intros X. exists [], [].
    rewrite app_nil_r. repeat split; constructor.
Qed.

End FlaggedScan.

Lemma flagged_points_are_never_features_witness :
  let cfg := Scripted.defaults 0.5 0.5 0.5 in
  let st := Scripted.withCloud (Scripted.scanOf 30) (Scripted.initial false) in
  let flags := <[7%nat := 1]> (<[9%nat := 1]> (replicate 30 0)) in
  exists st' less,
    extractRegions (EXT := Scripted.flagging flags (Scripted.zigzag 30)) cfg st
    = Ok (st', less) /\
    grownAt
      (fun i => ~ marked (setScanBuffersFor
                            (Collaborators := Scripted.flagging flags
                                                (Scripted.zigzag 30))
                            (_laserCloud st) 0
                            (Z.of_nat (length (_laserCloud st)))) i)
      st st'.
Proof.
  intros cfg st flags.
  destruct (extractRegions (EXT := Scripted.flagging flags (Scripted.zigzag 30))
              cfg st) as [[st' less] | e] eqn:Hrun;
    [| vm_compute in Hrun; discriminate].
  exists st', less. split; [reflexivity |].
  exact (flagged_points_are_never_features
           (EXT := Scripted.flagging flags (Scripted.zigzag 30)) cfg st st' less
           (fun _ picked i k => scripted_mark_keeps picked i k) Hrun).
Defined.

(** ** setup *)

Section SetupProperties.
Context {F Node : Type} {PS : ParamServer Node}.
Variable baseSetup : Node -> Node -> RegistrationParams F -> bool * RegistrationParams F.
Variable f_0_1 : F.

(** X13: [setup] returns what the setup of the base class returns and
    subscribes, to ["/sync_scan_cloud_filtered"] with a queue of 2, exactly
    when that is [true].  Of the parameters the base class left it changes
    none but [scanPeriod], and that one only to 0.1 and only when ["lidar"]
    is a string parameter and ["scanPeriod"] is not on the server; the
    name of the lidar makes no difference. *)
Theorem setup_changes_scanPeriod_only (node privateNode : Node)
    (cfg : RegistrationParams F) :
  let result := setup baseSetup f_0_1 node privateNode cfg in
  let based := baseSetup node privateNode cfg in
  fst (fst result) = fst based /\
  snd result
  = (if fst based then Some (mkSubscription "/sync_scan_cloud_filtered" 2)
     else None) /\
  set_scanPeriod (scanPeriod (snd based)) (snd (fst result)) = snd based /\
  (scanPeriod (snd (fst result)) = scanPeriod (snd based)
   \/ fst based = true /\ is_Some (getParamString privateNode "lidar") /\
      hasParam privateNode "scanPeriod" = false /\
      scanPeriod (snd (fst result)) = f_0_1).
Proof.
  cbv zeta. unfold setup.
  destruct (baseSetup node privateNode cfg) as [ok based]. cbn [fst snd].
  destruct ok; cbn [negb fst snd].
  - destruct (getParamString privateNode "lidar") as [lidarName |] eqn:Hlidar.
    + destruct (hasParam privateNode "scanPeriod") eqn:Hperiod; cbn [negb].
      * destruct based; cbn; auto.
      * destruct based; cbn.
        split; [reflexivity |]. split; [reflexivity |]. split; [reflexivity |].
        right. split; [reflexivity |]. split; [eexists; reflexivity |].
        split; reflexivity.
    + destruct based; cbn; auto.
  - destruct based; cbn; auto.
Qed.

End SetupProperties.

(** ** The conversions between odometry messages and isometries *)

Section ConversionProperties.
Context {F Time M : Type} {FO : FloatOps F} {EO : EigenOps F M}.

(** X14: an isometry written to a message and read back has its
    translation, entry by entry, and as linear part the rotation matrix of
    the quaternion that was made of its linear part; the frame id and the
    stamp of the message make no difference. *)
Theorem isometry_through_message (zero stamp : Time) (frame_id : string)
    (odom : Isometry3 F M) :
  convertOdometryToEigenIsometry
    (convertEigenIsometryToOdometry zero frame_id odom stamp)
  = mkIsometry3 (toRotationMatrix (quaternionOfMatrix (iso_linear odom)))
      (iso_translation odom).
Proof.
  unfold convertOdometryToEigenIsometry, convertEigenIsometryToOdometry.
  cbn [pose_orientation pose_position q_x q_y q_z q_w v_x v_y v_z].
  destruct (quaternionOfMatrix (iso_linear odom)) as [x y z w].
  destruct (iso_translation odom) as [tx ty tz]. reflexivity.
Qed.

(** X15: a message read as an isometry and written back keeps its
    position; the orientation passes through the rotation matrix, the stamp
    and the frame id are the ones given, and the sequence number, the child
    frame id, the twist and both covariances are those of a
    default-constructed message, whatever the message held. *)
Theorem message_through_isometry (zero stamp : Time) (frame_id : string)
    (odom_msg : Odometry F Time) :
  convertEigenIsometryToOdometry zero frame_id
    (convertOdometryToEigenIsometry odom_msg) stamp
  = mkOdometry 0 stamp frame_id ""
      (pose_position odom_msg)
      (quaternionOfMatrix (toRotationMatrix (pose_orientation odom_msg)))
      (pose_covariance (defaultOdometry zero))
      (twist_linear (defaultOdometry zero))
      (twist_angular (defaultOdometry zero))
      (twist_covariance (defaultOdometry zero)).
Proof.
  unfold convertOdometryToEigenIsometry, convertEigenIsometryToOdometry.
  cbn [iso_linear iso_translation v_x v_y v_z].
  destruct (pose_orientation odom_msg) as [x y z w].
  destruct (pose_position odom_msg) as [px py pz].
  cbn [q_x q_y q_z q_w].
  destruct (quaternionOfMatrix (toRotationMatrix (mkQuaternion x y z w)))
    as [x' y' z' w'].
  reflexivity.
Qed.

End ConversionProperties.

(** ** The order in which the corner quotas are filled *)

Section CornerOrder.
Context {F Time IMU : Type} {FO : FloatOps F} {EXT : Collaborators F Time IMU}.

Abbreviation State := (ScanRegistration F Time IMU).
Abbreviation Cloud := (list (PointXYZI F)).

(** With [c] corners counted before and [c'] after, the corner pass has
    added to the sharp cloud the corners counted up to [maxCornerSharp] and
    to the less sharp cloud those counted above it. *)
Lemma cornerLoop_fills_sharp_first (cfg : RegistrationParams F) (sp : Z)
    (fuel : nat) :
  forall (j c : Z) (st st' : State),
    0 <= c ->
    cornerLoop cfg sp fuel j c st = Ok st' ->
    exists c',
      c <= c' /\
      Z.of_nat (length (_cornerPointsSharp st'))
      = Z.of_nat (length (_cornerPointsSharp st))
        + (Z.min c' (maxCornerSharp cfg) - Z.min c (maxCornerSharp cfg)) /\
      Z.of_nat (length (_cornerPointsLessSharp st'))
      = Z.of_nat (length (_cornerPointsLessSharp st))
        + (Z.max 0 (c' - maxCornerSharp cfg) - Z.max 0 (c - maxCornerSharp cfg)).
Proof.
  induction fuel as [| fuel IH]; intros j c st st' Hc Hrun; cbn in Hrun.
  - inversion Hrun. exists c. lia.
  - destruct (c <? maxCornerLessSharp cfg); [| inversion Hrun; exists c; lia].
    apply bind_Ok in Hrun as (scanIdx & _ & Hrun).
    apply bind_Ok in Hrun as (accept & _ & Hrun).
    destruct accept; [| apply IH in Hrun; [exact Hrun | exact Hc]].
    destruct (Z.leb_spec (c + 1) (maxCornerSharp cfg)) as [Hs | Hs].
    + apply bind_Ok in Hrun as (lbl & _ & Hrun).
      apply bind_Ok in Hrun as (p & _ & Hrun).
      apply IH in Hrun as (c' & Hc' & Hsharp & Hless); [| lia].
      cbn in Hsharp, Hless. rewrite length_app in Hsharp.
      cbn [length] in Hsharp. exists c'. lia.
    + apply bind_Ok in Hrun as (m10 & _ & Hrun).
      destruct (c + 1 <=? m10); [| inversion Hrun; exists c; lia].
      apply bind_Ok in Hrun as (lbl & _ & Hrun).
      apply bind_Ok in Hrun as (p & _ & Hrun).
      apply IH in Hrun as (c' & Hc' & Hsharp & Hless); [| lia].
      cbn in Hsharp, Hless. rewrite length_app in Hless.
      cbn [length] in Hless. exists c'. lia.
Qed.

Lemma flatLoop_keeps_corners (cfg : RegistrationParams F) (sp : Z) (fuel : nat) :
  forall (j c : Z) (st st' : State),
    flatLoop cfg sp fuel j c st = Ok st' ->
    _cornerPointsSharp st' = _cornerPointsSharp st /\
    _cornerPointsLessSharp st' = _cornerPointsLessSharp st.
Proof.
  induction fuel as [| fuel IH]; intros j c st st' Hrun; cbn in Hrun.
  - inversion Hrun. auto.
  - destruct (c <? maxSurfaceFlat cfg); [| inversion Hrun; auto].
    apply bind_Ok in Hrun as (scanIdx & _ & Hrun).
    apply bind_Ok in Hrun as (accept & _ & Hrun).
    destruct accept; [| apply IH in Hrun; exact Hrun].
    apply bind_Ok in Hrun as (lbl & _ & Hrun).
    apply bind_Ok in Hrun as (p & _ & Hrun).
    apply IH in Hrun. exact Hrun.
Qed.

(** X16: a region fills the sharp quota first.  Of the corners it counts,
    the first [maxCornerSharp] go to the sharp cloud and the following ones
    to the less sharp cloud, so that a region which adds a less sharp point
    has added exactly [maxCornerSharp] sharp points. *)
Theorem sharp_quota_is_filled_first (cfg : RegistrationParams F) (sp ep : Z)
    (st st' : State) (less less' : Cloud) :
  0 <= maxCornerSharp cfg ->
  extractRegion cfg sp ep st less = Ok (st', less') ->
  (exists corners,
      0 <= corners /\
      Z.of_nat (length (_cornerPointsSharp st'))
      = Z.of_nat (length (_cornerPointsSharp st))
        + Z.min corners (maxCornerSharp cfg) /\
      Z.of_nat (length (_cornerPointsLessSharp st'))
      = Z.of_nat (length (_cornerPointsLessSharp st))
        + Z.max 0 (corners - maxCornerSharp cfg)) /\
  ((length (_cornerPointsLessSharp st) < length (_cornerPointsLessSharp st'))%nat ->
   Z.of_nat (length (_cornerPointsSharp st'))
   = Z.of_nat (length (_cornerPointsSharp st)) + maxCornerSharp cfg).
Proof.
  unfold extractRegion. intros Hquota Hrun.
  apply bind_Ok in Hrun as (st2 & Hcorner & Hrun).
  apply bind_Ok in Hrun as (st3 & Hflat & Hrun).
  apply bind_Ok in Hrun as (l & _ & Hrun).
  inversion Hrun; subst st3 l.
  apply cornerLoop_fills_sharp_first in Hcorner as (c' & Hc' & Hsharp & Hless);
    [| lia].
  apply flatLoop_keeps_corners in Hflat as [-> ->].
  cbn in Hsharp, Hless. rewrite Hsharp, Hless.
  split; [exists c'; lia | lia].
Qed.

End CornerOrder.

Lemma sharp_quota_is_filled_first_witness :
  let cfg := Scripted.defaults 0.5 0.5 0.5 in
  let st := call_setScanBuffersFor (EXT := Scripted.provider (Scripted.zigzag 30))
              0 30 (Scripted.withCloud (Scripted.scanOf 30) (Scripted.initial false)) in
  exists st' less',
    extractRegion (EXT := Scripted.provider (Scripted.zigzag 30)) cfg 11 15 st []
    = Ok (st', less') /\
    (exists corners,
        0 <= corners /\
        Z.of_nat (length (_cornerPointsSharp st'))
        = Z.of_nat (length (_cornerPointsSharp st))
          + Z.min corners (maxCornerSharp cfg) /\
        Z.of_nat (length (_cornerPointsLessSharp st'))
        = Z.of_nat (length (_cornerPointsLessSharp st))
          + Z.max 0 (corners - maxCornerSharp cfg)) /\
    ((length (_cornerPointsLessSharp st) < length (_cornerPointsLessSharp st'))%nat ->
     Z.of_nat (length (_cornerPointsSharp st'))
     = Z.of_nat (length (_cornerPointsSharp st)) + maxCornerSharp cfg).
Proof.
  intros cfg st.
  destruct (extractRegion (EXT := Scripted.provider (Scripted.zigzag 30))
              cfg 11 15 st []) as [[st' less'] | e] eqn:Hrun;
    [| vm_compute in Hrun; discriminate].
  exists st', less'. split; [reflexivity |].
  apply (sharp_quota_is_filled_first
           (EXT := Scripted.provider (Scripted.zigzag 30))
           cfg 11 15 st st' [] less'); [cbn; lia | exact Hrun].
Defined.

(** ** The curvature of the features *)

Section Threshold.
Context {F Time IMU : Type} {FO : FloatOps F} {EXT : Collaborators F Time IMU}.

Abbreviation State := (ScanRegistration F Time IMU).
Abbreviation Cloud := (list (PointXYZI F)).

Lemma candidate_pastThreshold (cfg : RegistrationParams F) (sp : Z)
    (above : bool) (scanIdx : Z) (st : State) :
  candidate cfg above scanIdx (wrap64 (scanIdx - sp)) st = Ok true ->
  pastThreshold cfg (_regionCurvature st) sp above scanIdx.
Proof.
  unfold candidate. intros Hc.
  apply bind_Ok in Hc as (picked & _ & Hc).
  destruct (picked =? 0); [| discriminate].
  apply bind_Ok in Hc as (c & Hcurv & Hc). inversion Hc as [Hflt].
  exists c. rewrite Hflt. split; [exact Hcurv | reflexivity].
Qed.

Lemma grownAt_accepted (ok : Z -> Prop) (st0 st : State) (l : PointLabel)
    (lbl : list PointLabel) (p : PointXYZI F) (scanIdx : Z) :
  vec_get (_laserCloud st) scanIdx = Ok p ->
  ok scanIdx ->
  grownAt ok st0 st ->
  grownAt ok st0 (accepted l lbl p scanIdx st).
Proof.
  intros Hp Hok [Hcl Hclouds].
  split; [rewrite accepted_laserCloud; exact Hcl |].
  intros X. destruct (Hclouds X) as (idx & pts & He & Hat & Hall).
  rewrite accepted_cloudOf.
  destruct (PointLabel_eqb l X && negb (PointLabel_eqb X SURFACE_LESS_FLAT)).
  - exists (idx ++ [scanIdx]), (pts ++ [p]).
    split; [rewrite He, app_assoc; reflexivity |].
    split.
    + apply Forall2_app; [exact Hat |]. constructor; [| constructor].
      rewrite <- Hcl. exact Hp.
    + apply Forall_app. split; [exact Hall |]. constructor; [exact Hok |].
      constructor.
  - exists idx, pts. auto.
Qed.

Lemma accepted_curvature (l : PointLabel) (lbl : list PointLabel)
    (p : PointXYZI F) (scanIdx : Z) (st : State) :
  _regionCurvature (accepted l lbl p scanIdx st) = _regionCurvature st.
Proof. destruct l; reflexivity. Qed.

(** Every corner that the corner pass adds has a curvature above the
    threshold, and the pass leaves the flat cloud alone. *)
Lemma cornerLoop_above (cfg : RegistrationParams F) (sp : Z) (curvature : list F)
    (st0 : State) (fuel : nat) :
  forall (j c : Z) (st st' : State),
    cornerLoop cfg sp fuel j c st = Ok st' ->
    _regionCurvature st = curvature ->
    grownAt (pastThreshold cfg curvature sp true) st0 st ->
    _regionCurvature st' = curvature /\
    _surfacePointsFlat st' = _surfacePointsFlat st /\
    grownAt (pastThreshold cfg curvature sp true) st0 st'.
Proof.
  induction fuel as [| fuel IH]; intros j c st st' Hrun Hcurv Hgrown;
    cbn in Hrun.
  - inversion Hrun; subst. auto.
  - destruct (c <? maxCornerLessSharp cfg); [| inversion Hrun; subst; auto].
    apply bind_Ok in Hrun as (scanIdx & _ & Hrun).
    apply bind_Ok in Hrun as (accept & Hcand & Hrun).
    destruct accept; [| exact (IH _ _ _ _ Hrun Hcurv Hgrown)].
    apply candidate_pastThreshold in Hcand. rewrite Hcurv in Hcand.
    destruct (c + 1 <=? maxCornerSharp cfg).
    + apply bind_Ok in Hrun as (lbl & _ & Hrun).
      apply bind_Ok in Hrun as (p & Hp & Hrun).
      change (call_markAsPicked scanIdx scanIdx
                (set_cornerPointsSharp (_cornerPointsSharp st ++ [p])
                   (set_regionLabel lbl st)))
        with (accepted CORNER_SHARP lbl p scanIdx st) in Hrun.
      apply IH in Hrun;
        [exact Hrun | rewrite accepted_curvature; exact Hcurv |
         apply grownAt_accepted; assumption].
    + apply bind_Ok in Hrun as (m10 & _ & Hrun).
      destruct (c + 1 <=? m10); [| inversion Hrun; subst; auto].
      apply bind_Ok in Hrun as (lbl & _ & Hrun).
      apply bind_Ok in Hrun as (p & Hp & Hrun).
      change (call_markAsPicked scanIdx scanIdx
                (set_cornerPointsLessSharp (_cornerPointsLessSharp st ++ [p])
                   (set_regionLabel lbl st)))
        with (accepted CORNER_LESS_SHARP lbl p scanIdx st) in Hrun.
      apply IH in Hrun;
        [exact Hrun | rewrite accepted_curvature; exact Hcurv |
         apply grownAt_accepted; assumption].
Qed.

(** Every point that the surface pass adds has a curvature below the
    threshold. *)
Lemma flatLoop_below (cfg : RegistrationParams F) (sp : Z) (curvature : list F)
    (st0 : State) (fuel : nat) :
  forall (j c : Z) (st st' : State),
    flatLoop cfg sp fuel j c st = Ok st' ->
    _regionCurvature st = curvature ->
    grownAt (pastThreshold cfg curvature sp false) st0 st ->
    grownAt (pastThreshold cfg curvature sp false) st0 st'.
Proof.
  induction fuel as [| fuel IH]; intros j c st st' Hrun Hcurv Hgrown;
    cbn in Hrun.
  - inversion Hrun; subst. exact Hgrown.
  - destruct (c <? maxSurfaceFlat cfg); [| inversion Hrun; subst; exact Hgrown].
    apply bind_Ok in Hrun as (scanIdx & _ & Hrun).
    apply bind_Ok in Hrun as (accept & Hcand & Hrun).
    destruct accept; [| exact (IH _ _ _ _ Hrun Hcurv Hgrown)].
    apply candidate_pastThreshold in Hcand. rewrite Hcurv in Hcand.
    apply bind_Ok in Hrun as (lbl & _ & Hrun).
    apply bind_Ok in Hrun as (p & Hp & Hrun).
    change (call_markAsPicked scanIdx scanIdx
              (set_surfacePointsFlat (_surfacePointsFlat st ++ [p])
                 (set_regionLabel lbl st)))
      with (accepted SURFACE_FLAT lbl p scanIdx st) in Hrun.
    apply IH in Hrun;
      [exact Hrun | rewrite accepted_curvature; exact Hcurv |
       apply grownAt_accepted; assumption].
Qed.

Lemma grownAt_refl (ok : Z -> Prop) (st : State) : grownAt ok st st.
Proof.
  split; [reflexivity |]. intros X. exists [], [].
  rewrite app_nil_r. repeat split; constructor.
Qed.

(** X18: the features of a region lie on their side of the threshold.
    The points a region adds to the sharp and less sharp clouds are points
    of the scan at indices whose curvature, as the provider computed it for
    the region, is above [surfaceCurvatureThreshold], and the points it adds
    to the flat cloud are at indices whose curvature is below it; an index
    whose curvature equals the threshold, or compares with it neither way,
    gives no feature. *)
Theorem features_are_past_the_threshold (cfg : RegistrationParams F) (sp ep : Z)
    (st st' : State) (less less' : Cloud) :
  extractRegion cfg sp ep st less = Ok (st', less') ->
  exists (sharp lessSharp flat : list Z) (ptsS ptsL ptsF : Cloud),
    _cornerPointsSharp st' = _cornerPointsSharp st ++ ptsS /\
    atIndices (_laserCloud st) sharp ptsS /\
    _cornerPointsLessSharp st' = _cornerPointsLessSharp st ++ ptsL /\
    atIndices (_laserCloud st) lessSharp ptsL /\
    _surfacePointsFlat st' = _surfacePointsFlat st ++ ptsF /\
    atIndices (_laserCloud st) flat ptsF /\
    Forall (pastThreshold cfg
              (rb_curvature (setRegionBuffersFor (_laserCloud st) sp
                               (wrap64 (ep - 1)))) sp true)
      (sharp ++ lessSharp) /\
    Forall (pastThreshold cfg
              (rb_curvature (setRegionBuffersFor (_laserCloud st) sp
                               (wrap64 (ep - 1)))) sp false)
      flat.
Proof.
  unfold extractRegion. intros Hrun.
  apply bind_Ok in Hrun as (st2 & Hcorner & Hrun).
  apply bind_Ok in Hrun as (st3 & Hflat & Hrun).
  apply bind_Ok in Hrun as (l & _ & Hrun).
  inversion Hrun; subst st3 l. clear Hrun.
  set (st1 := call_setRegionBuffersFor sp (wrap64 (ep - 1)) st) in *.
  set (curvature := rb_curvature (setRegionBuffersFor (_laserCloud st) sp
                                    (wrap64 (ep - 1)))).
  apply (cornerLoop_above cfg sp curvature st1) in Hcorner
    as (Hcurv2 & Hflat2 & [Hcl2 Hclouds2]);
    [| reflexivity | apply grownAt_refl].
  pose proof (flatLoop_keeps_corners _ _ _ _ _ _ _ Hflat) as [HkeepS HkeepL].
  apply (flatLoop_below cfg sp curvature st2) in Hflat as [Hcl3 Hclouds3];
    [| exact Hcurv2 | apply grownAt_refl].
  destruct (Hclouds2 CORNER_SHARP) as (sharp & ptsS & HeS & HatS & HokS).
  destruct (Hclouds2 CORNER_LESS_SHARP) as (lessSharp & ptsL & HeL & HatL & HokL).
  destruct (Hclouds3 SURFACE_FLAT) as (flat & ptsF & HeF & HatF & HokF).
  cbn [cloudOf] in HeS, HeL, HeF. rewrite Hcl2 in HatF.
  change (_laserCloud st1) with (_laserCloud st) in *.
  change (_cornerPointsSharp st1) with (_cornerPointsSharp st) in *.
  change (_cornerPointsLessSharp st1) with (_cornerPointsLessSharp st) in *.
  change (_surfacePointsFlat st1) with (_surfacePointsFlat st) in *.
  exists sharp, lessSharp, flat, ptsS, ptsL, ptsF.
  split; [rewrite HkeepS; exact HeS |]. split; [exact HatS |].
  split; [rewrite HkeepL; exact HeL |]. split; [exact HatL |].
  split; [rewrite HeF, Hflat2; reflexivity |]. split; [exact HatF |].
  split; [apply Forall_app; split; assumption | exact HokF].
Qed.

End Threshold.

Lemma features_are_past_the_threshold_witness :
  let cfg := Scripted.defaults 0.5 0.5 0.5 in
  let st := call_setScanBuffersFor (EXT := Scripted.provider (Scripted.zigzag 30))
              0 30 (Scripted.withCloud (Scripted.scanOf 30) (Scripted.initial false)) in
  exists st' less',
    extractRegion (EXT := Scripted.provider (Scripted.zigzag 30)) cfg 5 10 st []
    = Ok (st', less') /\
    exists (sharp lessSharp flat : list Z) (ptsS ptsL ptsF : list (PointXYZI float)),
      _cornerPointsSharp st' = _cornerPointsSharp st ++ ptsS /\
      atIndices (_laserCloud st) sharp ptsS /\
      _cornerPointsLessSharp st' = _cornerPointsLessSharp st ++ ptsL /\
      atIndices (_laserCloud st) lessSharp ptsL /\
      _surfacePointsFlat st' = _surfacePointsFlat st ++ ptsF /\
      atIndices (_laserCloud st) flat ptsF /\
      Forall (pastThreshold cfg
                (rb_curvature
                   (setRegionBuffersFor
                      (Collaborators := Scripted.provider (Scripted.zigzag 30))
                      (_laserCloud st) 5 (wrap64 (10 - 1)))) 5 true)
        (sharp ++ lessSharp) /\
      Forall (pastThreshold cfg
                (rb_curvature
                   (setRegionBuffersFor
                      (Collaborators := Scripted.provider (Scripted.zigzag 30))
                      (_laserCloud st) 5 (wrap64 (10 - 1)))) 5 false)
        flat.
Proof.
  intros cfg st.
  destruct (extractRegion (EXT := Scripted.provider (Scripted.zigzag 30))
              cfg 5 10 st []) as [[st' less'] | e] eqn:Hrun;
    [| vm_compute in Hrun; discriminate].
  exists st', less'. split; [reflexivity |].
  exact (features_are_past_the_threshold
           (EXT := Scripted.provider (Scripted.zigzag 30))
           cfg 5 10 st st' [] less' Hrun).
Defined.
